(** * Profile store of the engineer-consolidation app

    A shallow embedding of the storage layer under [frontend/src/storage]
    (db.js, crypto.js, profiles.js, progress.js, quizzes.js, exportImport.js)
    together with the platform services it calls: the IndexedDB engine,
    [btoa]/[atob], [TextEncoder] and WebCrypto's PBKDF2-HMAC-SHA-256.

    Conventions.
    - A JavaScript string is a Rocq [string]: a sequence of code units below
      256, which is also the shape of the "binary strings" of [btoa]/[atob].
    - A byte and a 32-bit word are a [Z]; wrap-around is written out.
    - An [async] function is a computation in the monad [Js.M]: it reads the
      environment (clock, random source, engine faults), threads the database
      and either returns or throws. *)

From Stdlib Require Import ZArith Lia List Ascii String Bool.
From Stdlib Require PrimFloat Uint63.
From Stdlib Require OrdersEx.
From stdpp Require Import base option list gmap strings fin_maps sorting.

#[local] Open Scope string_scope.
#[local] Open Scope Z_scope.

(* ===================================================================== *)
(** ** Strings and bytes as JavaScript sees them *)
(* ===================================================================== *)

Module JsString.

(** [s.charCodeAt(i)] for each [i], in order. *)
Definition charCodes (s : string) : list Z :=
  map (fun c => Z.of_N (N_of_ascii c)) (list_ascii_of_string s).

(** [String.fromCharCode(b)] for each byte, concatenated. *)
Definition fromCharCodes (bs : list Z) : string :=
  string_of_list_ascii (map (fun b => ascii_of_N (Z.to_N b)) bs).

(** [new TextEncoder().encode(s)]: UTF-8. Code units below 128 are one
    byte, the others (below 256 here) are two. *)
Definition utf8_unit (c : Z) : list Z :=
  if c <? 128 then [c]
  else [Z.lor 192 (Z.shiftr c 6); Z.lor 128 (Z.land c 63)].

Definition textEncode (s : string) : list Z :=
  flat_map utf8_unit (charCodes s).

(** JavaScript white space and line terminators below 256. *)
Definition isWhiteSpace (c : ascii) : bool :=
  let n := Z.of_N (N_of_ascii c) in
  (n =? 9) || (n =? 10) || (n =? 11) || (n =? 12) || (n =? 13)
  || (n =? 32) || (n =? 160).

Fixpoint trimStart (s : string) : string :=
  match s with
  | EmptyString => EmptyString
  | String c r => if isWhiteSpace c then trimStart r else s
  end.

Fixpoint trimEnd (s : string) : string :=
  match s with
  | EmptyString => EmptyString
  | String c r =>
      match trimEnd r with
      | EmptyString => if isWhiteSpace c then EmptyString else String c EmptyString
      | r' => String c r'
      end
  end.

(** [s.trim()] *)
Definition trim (s : string) : string := trimEnd (trimStart s).

(** Truthiness of a string value: only the empty string is falsy. *)
Definition truthy (s : string) : bool :=
  match s with EmptyString => false | _ => true end.

(** Truthiness of a value that is a string, [null] or [undefined]. *)
Definition truthy_opt (o : option string) : bool :=
  match o with Some s => truthy s | None => false end.

(** [v || null] *)
Definition or_null (o : option string) : option string :=
  if truthy_opt o then o else None.

End JsString.

(* ===================================================================== *)
(** ** [btoa] and [atob] *)
(* ===================================================================== *)

Module Base64.

Definition alphabet : string :=
  "ABCDEFGHIJKLMNOPQRSTUVWXYZabcdefghijklmnopqrstuvwxyz0123456789+/".

Definition digit (n : Z) : ascii :=
  match String.get (Z.to_nat n) alphabet with
  | Some c => c
  | None => "="%char
  end.

(** Value of a base64 character, if it is one. *)
Definition value (c : ascii) : option Z :=
  let n := Z.of_N (N_of_ascii c) in
  if (65 <=? n) && (n <=? 90) then Some (n - 65)
  else if (97 <=? n) && (n <=? 122) then Some (n - 71)
  else if (48 <=? n) && (n <=? 57) then Some (n + 4)
  else if n =? 43 then Some 62
  else if n =? 47 then Some 63
  else None.

(** The six-bit groups of a byte sequence, the last one filled with zero
    bits. *)
Fixpoint sextets (bs : list Z) : list Z :=
  match bs with
  | [] => []
  | [a] => [Z.shiftr a 2; Z.shiftl (Z.land a 3) 4]
  | [a; b] =>
      [Z.shiftr a 2;
       Z.lor (Z.shiftl (Z.land a 3) 4) (Z.shiftr b 4);
       Z.shiftl (Z.land b 15) 2]
  | a :: b :: c :: r =>
      Z.shiftr a 2
      :: Z.lor (Z.shiftl (Z.land a 3) 4) (Z.shiftr b 4)
      :: Z.lor (Z.shiftl (Z.land b 15) 2) (Z.shiftr c 6)
      :: Z.land c 63
      :: sextets r
  end.

(** [=] signs that bring the output to a multiple of four characters. *)
Definition padding (n : nat) : list ascii :=
  repeat "="%char ((3 - n mod 3) mod 3)%nat.

Definition encode (bs : list Z) : list ascii :=
  map digit (sextets bs) ++ padding (length bs).

(** [btoa(binary)] on a string of code units below 256. *)
Definition btoa (binary : string) : string :=
  string_of_list_ascii (encode (JsString.charCodes binary)).

Definition isAsciiWhitespace (c : ascii) : bool :=
  let n := Z.of_N (N_of_ascii c) in
  (n =? 9) || (n =? 10) || (n =? 12) || (n =? 13) || (n =? 32).

(** Strip at most two trailing [=] when the length is a multiple of 4. *)
Definition stripPadding (cs : list ascii) : list ascii :=
  if (length cs mod 4 =? 0)%nat then
    match rev cs with
    | c1 :: r1 =>
        if Ascii.eqb c1 "=" then
          match r1 with
          | c2 :: r2 => if Ascii.eqb c2 "=" then rev r2 else rev r1
          | [] => rev r1
          end
        else cs
    | [] => cs
    end
  else cs.

Fixpoint values (cs : list ascii) : option (list Z) :=
  match cs with
  | [] => Some []
  | c :: r =>
      match value c, values r with
      | Some v, Some vs => Some (v :: vs)
      | _, _ => None
      end
  end.

(** Groups of four sextets give three bytes; a trailing group of three
    gives two and of two gives one, the spare bits being dropped. *)
Fixpoint decode (vs : list Z) : list Z :=
  match vs with
  | a :: b :: c :: d :: r =>
      Z.lor (Z.shiftl a 2) (Z.shiftr b 4)
      :: Z.lor (Z.shiftl (Z.land b 15) 4) (Z.shiftr c 2)
      :: Z.lor (Z.shiftl (Z.land c 3) 6) d
      :: decode r
  | [a; b; c] =>
      [Z.lor (Z.shiftl a 2) (Z.shiftr b 4);
       Z.lor (Z.shiftl (Z.land b 15) 4) (Z.shiftr c 2)]
  | [a; b] => [Z.lor (Z.shiftl a 2) (Z.shiftr b 4)]
  | _ => []
  end.

(** [atob(base64)]: [None] stands for its [InvalidCharacterError]. *)
Definition atob (base64 : string) : option string :=
  let cs := List.filter (fun c => negb (isAsciiWhitespace c)) (list_ascii_of_string base64) in
  let cs := stripPadding cs in
  if (length cs mod 4 =? 1)%nat then None
  else match values cs with
       | Some vs => Some (JsString.fromCharCodes (decode vs))
       | None => None
       end.

End Base64.

(* ===================================================================== *)
(** ** SHA-256 (FIPS 180-4) on 32-bit words held in [Z] *)
(* ===================================================================== *)

Module Sha256.

Definition wrap (x : Z) : Z := x mod 2 ^ 32.
Definition add32 (x y : Z) : Z := wrap (x + y).
Definition rotr (n x : Z) : Z :=
  Z.lor (Z.shiftr x n) (wrap (Z.shiftl x (32 - n))).
Definition not32 (x : Z) : Z := 2 ^ 32 - 1 - x.

Definition Ch (x y z : Z) : Z := Z.lxor (Z.land x y) (Z.land (not32 x) z).
Definition Maj (x y z : Z) : Z :=
  Z.lxor (Z.lxor (Z.land x y) (Z.land x z)) (Z.land y z).
Definition Sigma0 (x : Z) : Z := Z.lxor (Z.lxor (rotr 2 x) (rotr 13 x)) (rotr 22 x).
Definition Sigma1 (x : Z) : Z := Z.lxor (Z.lxor (rotr 6 x) (rotr 11 x)) (rotr 25 x).
Definition sigma0 (x : Z) : Z := Z.lxor (Z.lxor (rotr 7 x) (rotr 18 x)) (Z.shiftr x 3).
Definition sigma1 (x : Z) : Z := Z.lxor (Z.lxor (rotr 17 x) (rotr 19 x)) (Z.shiftr x 10).

(** The first 64 primes. *)
Definition primes : list Z :=
  [2; 3; 5; 7; 11; 13; 17; 19; 23; 29; 31; 37; 41; 43; 47; 53; 59; 61; 67; 71;
   73; 79; 83; 89; 97; 101; 103; 107; 109; 113; 127; 131; 137; 139; 149; 151;
   157; 163; 167; 173; 179; 181; 191; 193; 197; 199; 211; 223; 227; 229; 233;
   239; 241; 251; 257; 263; 269; 271; 277; 281; 283; 293; 307; 311].

(** Integer cube root by bisection: the root lies in [lo, hi). *)
Fixpoint cbrtBetween (fuel : nat) (n lo hi : Z) : Z :=
  match fuel with
  | O => lo
  | S fuel' =>
      let mid := (lo + hi) / 2 in
      if mid * mid * mid <=? n then cbrtBetween fuel' n mid hi
      else cbrtBetween fuel' n lo mid
  end.

Definition cbrt (n : Z) : Z := cbrtBetween 64 n 0 (2 ^ 40).

(** Round constants: the first 32 bits of the fractional parts of the cube
    roots of the first 64 primes. *)
Definition K : list Z :=
  Eval vm_compute in map (fun p => cbrt (p * 2 ^ 96) mod 2 ^ 32) primes.

(** Initial hash value: the first 32 bits of the fractional parts of the
    square roots of the first 8 primes. *)
Definition H0 : list Z :=
  Eval vm_compute in map (fun p => Z.sqrt (p * 2 ^ 64) mod 2 ^ 32) (firstn 8 primes).

(** Big-endian bytes of the low [n] bytes of [x]. *)
Fixpoint be_bytes (n : nat) (x : Z) : list Z :=
  match n with
  | O => []
  | S n' => Z.land (Z.shiftr x (8 * Z.of_nat n')) 255 :: be_bytes n' x
  end.

Definition be_word (bs : list Z) : Z :=
  fold_left (fun acc b => Z.lor (Z.shiftl acc 8) b) bs 0.

(** Message padding: a one bit, zeros, and the bit length on 64 bits. *)
Definition pad (msg : list Z) : list Z :=
  let l := Z.of_nat (length msg) in
  let k := (55 - l) mod 64 in
  msg ++ [128] ++ repeat 0 (Z.to_nat k) ++ be_bytes 8 (8 * l).

(** Cut a list into chunks of [n]; [fuel] bounds the number of chunks. *)
Fixpoint chunks {A} (fuel n : nat) (l : list A) : list (list A) :=
  match fuel, l with
  | O, _ | _, [] => []
  | S fuel', _ => firstn n l :: chunks fuel' n (skipn n l)
  end.

Definition words (block : list Z) : list Z :=
  map be_word (chunks 16 4 block).

(** Message schedule: [w] holds W(t-1), W(t-2), ... most recent first. *)
Fixpoint extend (n : nat) (w : list Z) : list Z :=
  match n with
  | O => w
  | S n' =>
      let wt := add32 (add32 (add32 (sigma1 (nth 1 w 0)) (nth 6 w 0))
                             (sigma0 (nth 14 w 0))) (nth 15 w 0) in
      extend n' (wt :: w)
  end.

Definition schedule (block : list Z) : list Z :=
  rev (extend 48 (rev (words block))).

Definition round (st : list Z) (kw : Z * Z) : list Z :=
  match st with
  | [a; b; c; d; e; f; g; h] =>
      let t1 := add32 (add32 (add32 (add32 h (Sigma1 e)) (Ch e f g)) (fst kw)) (snd kw) in
      let t2 := add32 (Sigma0 a) (Maj a b c) in
      [add32 t1 t2; a; b; c; add32 d t1; e; f; g]
  | _ => st
  end.

Fixpoint zipAdd (xs ys : list Z) : list Z :=
  match xs, ys with
  | x :: xs', y :: ys' => add32 x y :: zipAdd xs' ys'
  | _, _ => []
  end.

Definition compress (h : list Z) (block : list Z) : list Z :=
  zipAdd h (fold_left round (combine K (schedule block)) h).

Definition digest_words (msg : list Z) : list Z :=
  let p := pad msg in
  fold_left compress (chunks (length p) 64 p) H0.

Definition hash (msg : list Z) : list Z :=
  flat_map (be_bytes 4) (digest_words msg).

End Sha256.

(* ===================================================================== *)
(** ** HMAC (RFC 2104) and PBKDF2 (RFC 8018) as WebCrypto provides them *)
(* ===================================================================== *)

Module WebCrypto.

Definition blockSize : nat := 64.

(** The key block of HMAC: a key longer than a block is hashed first, and
    the result is filled with zero bytes up to the block size. *)
Definition keyBlock (key : list Z) : list Z :=
  let k := if (blockSize <? length key)%nat then Sha256.hash key else key in
  k ++ repeat 0 (blockSize - length k)%nat.

Definition hmacBlock (kb : list Z) (msg : list Z) : list Z :=
  Sha256.hash (map (Z.lxor 0x5c) kb ++ Sha256.hash (map (Z.lxor 0x36) kb ++ msg)).

Definition hmac (key msg : list Z) : list Z := hmacBlock (keyBlock key) msg.

Fixpoint xorBytes (xs ys : list Z) : list Z :=
  match xs, ys with
  | x :: xs', y :: ys' => Z.lxor x y :: xorBytes xs' ys'
  | _, _ => []
  end.

(** One PBKDF2 block: U1 xor U2 xor ... xor Uc. The pair is (Uj, Tj). *)
Definition pbkdf2Step (kb : list Z) (ut : list Z * list Z) : list Z * list Z :=
  let u := hmacBlock kb (fst ut) in (u, xorBytes (snd ut) u).

Definition pbkdf2Block (kb salt : list Z) (iterations : N) (i : Z) : list Z :=
  let u1 := hmacBlock kb (salt ++ Sha256.be_bytes 4 i) in
  snd (N.iter (iterations - 1) (pbkdf2Step kb) (u1, u1)).

Definition pbkdf2From (kb salt : list Z) (iterations : N) (dkLen : nat) : list Z :=
  let blocks := ((dkLen + 31) / 32)%nat in
  firstn dkLen
    (flat_map (fun i => pbkdf2Block kb salt iterations (Z.of_nat i)) (seq 1 blocks)).

(** [deriveBits({name:'PBKDF2', salt, iterations, hash:'SHA-256'}, key, 8*dkLen)] *)
Definition pbkdf2 (password salt : list Z) (iterations : N) (dkLen : nat) : list Z :=
  pbkdf2From (keyBlock password) salt iterations dkLen.

End WebCrypto.

(* ===================================================================== *)
(** ** Asynchronous functions: environment, database, exceptions *)
(* ===================================================================== *)

Module Js.

Inductive exn : Type :=
| Error (message : string)          (* [throw new Error(message)] *)
| DOMException (name : string).     (* raised by the platform *)

Inductive result (A : Type) : Type :=
| Ok (a : A)
| Throw (e : exn).
Arguments Ok {A} a.
Arguments Throw {A} e.

Definition isOk {A} (r : result A) : bool :=
  match r with Ok _ => true | Throw _ => false end.

End Js.
Export Js.

(** *** Rows of the three object stores (db.js) *)

Record Profile : Type := mkProfile {
  profileId : string;
  name : string;
  createdAt : string;
  updatedAt : string;
  pinSalt : option string;
  pinHash : option string;
}.

Record ProgressRow : Type := mkProgress {
  pr_profileId : string;
  pr_lessonId : string;
  pr_completed : bool;
  pr_completedAt : option string;
}.

(** What [Math.round] can return: an integer, an infinity or NaN. *)
Inductive rounded : Type :=
| Int (z : Z)
| Infinity (negative : bool)
| NaN.

Record QuizRow : Type := mkQuiz {
  qr_id : Z;
  qr_profileId : string;
  qr_quizId : string;
  qr_score : Z;
  qr_totalQuestions : Z;
  qr_answers : gmap Z Z;
  qr_completedAt : string;
  qr_percentage : option rounded;     (* [None] is [undefined] *)
}.

#[global] Instance rounded_eq_dec : EqDecision rounded.
Proof. solve_decision. Defined.
#[global] Instance Profile_eq_dec : EqDecision Profile.
Proof. solve_decision. Defined.
#[global] Instance ProgressRow_eq_dec : EqDecision ProgressRow.
Proof. solve_decision. Defined.
#[global] Instance QuizRow_eq_dec : EqDecision QuizRow.
Proof. solve_decision. Defined.

(** The database [engineerDevApp], version 1, as [getDb]'s [upgrade] lays it
    out: [profiles] keyed by [profileId]; [progress] keyed by the pair
    [profileId, lessonId]; [quizResults] keyed by a generated [id], kept here
    in ascending [id], which is the order every scan of it follows. *)
Record Db : Type := mkDb {
  profiles : gmap string Profile;
  progress : gmap (string * string) ProgressRow;
  quizResults : list QuizRow;
  quizKeyGen : Z;                     (* last key handed out by autoIncrement *)
}.

Definition emptyDb : Db :=
  {| profiles := ∅; progress := ∅; quizResults := []; quizKeyGen := 0 |}.

Inductive storeName : Type := ProfilesStore | ProgressStore | QuizResultsStore.

#[global] Instance storeName_eq_dec : EqDecision storeName.
Proof. solve_decision. Defined.

Module STORES.
Definition profiles := ProfilesStore.
Definition progress := ProgressStore.
Definition quizResults := QuizResultsStore.
End STORES.

(** What one call of an exported function sees of the outside world. *)
Record Env : Type := mkEnv {
  clock : nat -> string;    (* the k-th [new Date().toISOString()] of the call *)
  uuid : string;            (* what [newId()] returns *)
  entropy : nat -> Z;       (* the bytes [crypto.getRandomValues] writes *)
  subtle : bool;            (* is [crypto.subtle] there *)
  fails : nat -> bool;      (* does the k-th request to the engine fail *)
}.

Record St : Type := mkSt {
  db : Db;
  requests : nat;           (* engine requests issued so far in the call *)
  ticks : nat;              (* clock readings so far in the call *)
}.

Definition M (A : Type) : Type := Env -> St -> result A * St.

Definition ret {A} (a : A) : M A := fun _ st => (Ok a, st).

Definition throw {A} (e : exn) : M A := fun _ st => (Throw e, st).

Definition bind {A B} (m : M A) (k : A -> M B) : M B :=
  fun env st =>
    match m env st with
    | (Ok a, st') => k a env st'
    | (Throw e, st') => (Throw e, st')
    end.

Notation "x <- m ;; k" := (bind m (fun x => k))
  (at level 100, m at next level, right associativity).
Notation "m ;;; k" := (bind m (fun _ => k))
  (at level 100, right associativity).

(** Run one call against a database. *)
Definition run {A} (m : M A) (env : Env) (d : Db) : result A * Db :=
  let '(r, st) := m env {| db := d; requests := 0; ticks := 0 |} in (r, db st).

(** [new Date().toISOString()] *)
Definition nowIso : M string :=
  fun env st =>
    (Ok (clock env (ticks st)),
     {| db := db st; requests := requests st; ticks := S (ticks st) |}).

(* ===================================================================== *)
(** ** The IndexedDB engine as the [idb] wrapper exposes it *)
(* ===================================================================== *)

Module Idb.

(** One request to the engine. When the engine fails it the awaiting code
    receives the rejection; the transaction it belongs to aborts. *)
Definition request {A} (f : Db -> A * Db) : M A :=
  fun env st =>
    let st1 := {| db := db st; requests := S (requests st); ticks := ticks st |} in
    if fails env (requests st) then (Throw (DOMException "AbortError"), st1)
    else let '(a, d) := f (db st) in
         (Ok a, {| db := d; requests := S (requests st); ticks := ticks st |}).

(** A transaction handle: the stores it was opened on. *)
Definition Tx : Type := list storeName.

(** [tx.objectStore(name)] *)
Definition objectStore (tx : Tx) (s : storeName) : M unit :=
  if decide (s ∈ tx) then ret tt else throw (DOMException "NotFoundError").

(** [db.transaction(stores, 'readwrite')], the body, then [await tx.done].
    Every await of the bodies below is a request of this transaction, so a
    rejection is a failed request: the engine aborts the transaction and
    nothing it wrote stays. [tx.done] is the commit, which can fail too. *)
Definition transaction {A} (stores : list storeName) (body : Tx -> M A) : M A :=
  fun env st =>
    match (a <- body stores ;; request (fun d => (tt, d)) ;;; ret a) env st with
    | (Ok a, st') => (Ok a, st')
    | (Throw e, st') =>
        (Throw e, {| db := db st; requests := requests st'; ticks := ticks st' |})
    end.

(** *** profiles *)

Definition profilesGet (tx : Tx) (key : string) : M (option Profile) :=
  objectStore tx STORES.profiles ;;;
  request (fun d => (profiles d !! key, d)).

Definition profilesPut (tx : Tx) (p : Profile) : M unit :=
  objectStore tx STORES.profiles ;;;
  request (fun d =>
    (tt, {| profiles := <[profileId p := p]> (profiles d);
            progress := progress d;
            quizResults := quizResults d;
            quizKeyGen := quizKeyGen d |})).

Definition profilesDelete (tx : Tx) (key : string) : M unit :=
  objectStore tx STORES.profiles ;;;
  request (fun d =>
    (tt, {| profiles := delete key (profiles d);
            progress := progress d;
            quizResults := quizResults d;
            quizKeyGen := quizKeyGen d |})).

(** *** progress: key path [profileId, lessonId], index [byProfileId] *)

Definition progressKey (r : ProgressRow) : string * string :=
  (pr_profileId r, pr_lessonId r).

Definition progressPut (tx : Tx) (r : ProgressRow) : M unit :=
  objectStore tx STORES.progress ;;;
  request (fun d =>
    (tt, {| profiles := profiles d;
            progress := <[progressKey r := r]> (progress d);
            quizResults := quizResults d;
            quizKeyGen := quizKeyGen d |})).

Definition progressDeleteKey (key : string * string) : M unit :=
  request (fun d =>
    (tt, {| profiles := profiles d;
            progress := delete key (progress d);
            quizResults := quizResults d;
            quizKeyGen := quizKeyGen d |})).

(** The entries of the index [byProfileId] equal to [pid]. *)
Definition progressByProfileId (pid : string) (d : Db)
  : list ((string * string) * ProgressRow) :=
  List.filter (fun kr => bool_decide (pr_profileId (snd kr) = pid))
              (map_to_list (progress d)).

(** *** quizResults: key path [id], autoIncrement, index [byProfileId] *)

Definition withId (i : Z) (r : QuizRow) : QuizRow :=
  {| qr_id := i; qr_profileId := qr_profileId r; qr_quizId := qr_quizId r;
     qr_score := qr_score r; qr_totalQuestions := qr_totalQuestions r;
     qr_answers := qr_answers r; qr_completedAt := qr_completedAt r;
     qr_percentage := qr_percentage r |}.

(** [add] of a row that has no [id] yet: the key generator supplies it. *)
Definition quizAdd (tx : Tx) (r : QuizRow) : M Z :=
  objectStore tx STORES.quizResults ;;;
  request (fun d =>
    let i := quizKeyGen d + 1 in
    (i, {| profiles := profiles d;
           progress := progress d;
           quizResults := quizResults d ++ [withId i r];
           quizKeyGen := i |})).

Definition quizDeleteKey (key : Z) : M unit :=
  request (fun d =>
    (tt, {| profiles := profiles d;
            progress := progress d;
            quizResults := List.filter (fun r => negb (bool_decide (qr_id r = key)))
                                       (quizResults d);
            quizKeyGen := quizKeyGen d |})).

Definition quizByProfileId (pid : string) (d : Db) : list QuizRow :=
  List.filter (fun r => bool_decide (qr_profileId r = pid)) (quizResults d).

(** *** Cursors over an index, restricted by [IDBKeyRange.only(pid)].
    A cursor is the primary keys still ahead of it, the first one being the
    row it stands on; [null] is the empty list. *)

Definition progressOpenCursor (tx : Tx) (pid : string) : M (list (string * string)) :=
  objectStore tx STORES.progress ;;;
  request (fun d => (map fst (progressByProfileId pid d), d)).

Definition quizOpenCursor (tx : Tx) (pid : string) : M (list Z) :=
  objectStore tx STORES.quizResults ;;;
  request (fun d => (map qr_id (quizByProfileId pid d), d)).

(** [cursor.continue()] *)
Definition cursorContinue : M unit := request (fun d => (tt, d)).

(** *** The shortcuts on the connection: one request in a transaction of
    its own, committed when the request is a write. *)

Definition get (key : string) : M (option Profile) :=
  profilesGet [STORES.profiles] key.

Definition putProfile (p : Profile) : M unit :=
  transaction [STORES.profiles] (fun tx => profilesPut tx p).

Definition putProgress (r : ProgressRow) : M unit :=
  transaction [STORES.progress] (fun tx => progressPut tx r).

Definition addQuiz (r : QuizRow) : M Z :=
  transaction [STORES.quizResults] (fun tx => quizAdd tx r).

Definition getAllProgressFromIndex (pid : string) : M (list ProgressRow) :=
  request (fun d => (map snd (progressByProfileId pid d), d)).

Definition getAllQuizFromIndex (pid : string) : M (list QuizRow) :=
  request (fun d => (quizByProfileId pid d, d)).

End Idb.

(* ===================================================================== *)
(** ** Numbers: the double-precision arithmetic the percentage uses *)
(* ===================================================================== *)

Module JsNumber.

(** A Number: the finite double [m * 2^e], an infinity, or NaN. *)
Inductive num : Type :=
| Finite (m e : Z)
| Inf (negative : bool)
| NotANumber.

(** Nearest integer to [n/d], ties to the even one ([0 <= n], [0 < d]). *)
Definition roundHalfEven (n d : Z) : Z :=
  let q := n / d in
  let r := n mod d in
  if 2 * r <? d then q
  else if d <? 2 * r then q + 1
  else if Z.even q then q else q + 1.

(** [floor (log2 (n/d))] for [0 < n], [0 < d]. *)
Definition floorLog2 (n d : Z) : Z :=
  let e := Z.log2 n - Z.log2 d in
  if n * 2 ^ Z.max 0 (- e) <? d * 2 ^ Z.max 0 e then e - 1 else e.

(** The double nearest to [n/d] ([0 <= n], [0 < d]), round-to-nearest-even
    on 53 bits, subnormal below [2^-1022], infinite from [2^1024]. *)
Definition nearest (n d : Z) : num :=
  if n =? 0 then Finite 0 0
  else
    let ex := Z.max (floorLog2 n d - 52) (-1074) in
    let m := roundHalfEven (n * 2 ^ Z.max 0 (- ex)) (d * 2 ^ Z.max 0 ex) in
    if (0 <=? ex) && (2 ^ 1024 <=? m * 2 ^ ex) then Inf false else Finite m ex.

Definition opp (x : num) : num :=
  match x with
  | Finite m e => Finite (- m) e
  | Inf b => Inf (negb b)
  | NotANumber => NotANumber
  end.

(** The double nearest to [n/d] for [d <> 0]. *)
Definition ofRatio (n d : Z) : num :=
  if xorb (n <? 0) (d <? 0) then opp (nearest (Z.abs n) (Z.abs d))
  else nearest (Z.abs n) (Z.abs d).

(** [x / y] for integer-valued [x] and [y]. *)
Definition divInt (x y : Z) : num :=
  if y =? 0 then (if x =? 0 then NotANumber else Inf (x <? 0))
  else ofRatio x y.

(** [x * k] for a double [x] and an integer constant [k]. *)
Definition mulInt (x : num) (k : Z) : num :=
  match x with
  | Finite m e =>
      if 0 <=? e then ofRatio (m * k * 2 ^ e) 1 else ofRatio (m * k) (2 ^ (- e))
  | Inf b => if k =? 0 then NotANumber else Inf (xorb b (k <? 0))
  | NotANumber => NotANumber
  end.

(** [Math.round(x)]: the integer nearest to [x], a tie going up. *)
Definition round (x : num) : rounded :=
  match x with
  | Finite m e =>
      Int (if 0 <=? e then m * 2 ^ e else (2 * m + 2 ^ (- e)) / 2 ^ (1 - e))
  | Inf b => Infinity b
  | NotANumber => NaN
  end.

(** [a > b] on results of [Math.round]. *)
Definition gt (a b : rounded) : bool :=
  match a, b with
  | Int x, Int y => y <? x
  | Int _, Infinity neg => neg
  | Infinity neg, Int _ => negb neg
  | Infinity na, Infinity nb => negb na && nb
  | _, _ => false
  end.

End JsNumber.

(** [Math.round((score / totalQuestions) * 100)] *)
Definition percentageOf (score totalQuestions : Z) : rounded :=
  JsNumber.round (JsNumber.mulInt (JsNumber.divInt score totalQuestions) 100).

(* ===================================================================== *)
(** ** crypto.js *)
(* ===================================================================== *)

Definition toBase64 (bytes : list Z) : string :=
  Base64.btoa (JsString.fromCharCodes bytes).

Definition fromBase64 (base64 : string) : M (list Z) :=
  match Base64.atob base64 with
  | Some binary => ret (JsString.charCodes binary)
  | None => throw (DOMException "InvalidCharacterError")
  end.

(** [crypto.getRandomValues(new Uint8Array(byteLength))] *)
Definition getRandomValues (byteLength : nat) : M (list Z) :=
  fun env st => (Ok (map (fun k => entropy env k mod 256) (seq 0 byteLength)), st).

Definition generateSaltBase64 (byteLength : nat) : M string :=
  salt <- getRandomValues byteLength ;;
  ret (toBase64 salt).

Definition hasSubtle : M bool := fun env st => (Ok (subtle env), st).

Definition derivePinHashBase64 (pin : string) (saltBase64 : string) (iterations : N)
  : M string :=
  ok <- hasSubtle ;;
  if negb ok then throw (Error "WebCrypto is not available in this browser")
  else
    saltBytes <- fromBase64 saltBase64 ;;
    let bits := WebCrypto.pbkdf2 (JsString.textEncode pin) saltBytes iterations 32 in
    ret (toBase64 bits).

Definition defaultIterations : N := 100000.
Definition defaultSaltLength : nat := 16.

(* ===================================================================== *)
(** ** profiles.js *)
(* ===================================================================== *)

Definition newId : M string := fun env st => (Ok (uuid env), st).

Definition getProfile (profileId : string) : M (option Profile) :=
  Idb.get profileId.

(** Assignments to the fields of a profile object read from the store. *)
Definition setName (p : Profile) (newName now : string) : Profile :=
  {| profileId := profileId p;
     name := newName;
     createdAt := createdAt p;
     updatedAt := now;
     pinSalt := pinSalt p;
     pinHash := pinHash p |}.

Definition setPin (p : Profile) (salt hash : option string) (now : string) : Profile :=
  {| profileId := profileId p;
     name := name p;
     createdAt := createdAt p;
     updatedAt := now;
     pinSalt := salt;
     pinHash := hash |}.

Definition nameMissing (name : string) : bool :=
  negb (JsString.truthy name) || negb (JsString.truthy (JsString.trim name)).

Definition createProfile (name : string) (pin : option string) : M Profile :=
  if nameMissing name then throw (Error "Profile name is required")
  else
    profileId <- newId ;;
    createdAt <- nowIso ;;
    pinPair <- (match pin with
                | Some p =>
                    if JsString.truthy p then
                      pinSalt <- generateSaltBase64 defaultSaltLength ;;
                      pinHash <- derivePinHashBase64 p pinSalt defaultIterations ;;
                      ret (Some pinSalt, Some pinHash)
                    else ret (None, None)
                | None => ret (None, None)
                end) ;;
    let profile :=
      {| profileId := profileId;
         name := JsString.trim name;
         createdAt := createdAt;
         updatedAt := createdAt;
         pinSalt := fst pinPair;
         pinHash := snd pinPair |} in
    Idb.putProfile profile ;;;
    ret profile.

Definition renameProfile (profileId : string) (name : string) : M Profile :=
  if nameMissing name then throw (Error "Profile name is required")
  else
    found <- Idb.get profileId ;;
    match found with
    | None => throw (Error "Profile not found")
    | Some profile =>
        now <- nowIso ;;
        let profile := setName profile (JsString.trim name) now in
        Idb.putProfile profile ;;;
        ret profile
    end.

Definition pinTooShort (pin : string) : bool :=
  negb (JsString.truthy pin) || (String.length pin <? 4)%nat.

Definition setProfilePin (profileId : string) (pin : string) : M Profile :=
  if pinTooShort pin then throw (Error "PIN must be at least 4 characters")
  else
    found <- Idb.get profileId ;;
    match found with
    | None => throw (Error "Profile not found")
    | Some profile =>
        pinSalt <- generateSaltBase64 defaultSaltLength ;;
        pinHash <- derivePinHashBase64 pin pinSalt defaultIterations ;;
        now <- nowIso ;;
        let profile := setPin profile (Some pinSalt) (Some pinHash) now in
        Idb.putProfile profile ;;;
        ret profile
    end.

Definition clearProfilePin (profileId : string) : M Profile :=
  found <- Idb.get profileId ;;
  match found with
  | None => throw (Error "Profile not found")
  | Some profile =>
      now <- nowIso ;;
      let profile := setPin profile None None now in
      Idb.putProfile profile ;;;
      ret profile
  end.

Definition verifyProfilePin (profileId : string) (pin : string) : M bool :=
  found <- getProfile profileId ;;
  match found with
  | None => ret false
  | Some profile =>
      match pinHash profile, pinSalt profile with
      | Some h, Some s =>
          if negb (JsString.truthy h) || negb (JsString.truthy s) then ret true
          else
            hash <- derivePinHashBase64 pin s defaultIterations ;;
            ret (bool_decide (hash = h))
      | _, _ => ret true
      end
  end.

Fixpoint progressCursorLoop (cursor : list (string * string)) : M unit :=
  match cursor with
  | [] => ret tt
  | key :: rest =>
      Idb.progressDeleteKey key ;;;
      Idb.cursorContinue ;;;
      progressCursorLoop rest
  end.

Fixpoint quizCursorLoop (cursor : list Z) : M unit :=
  match cursor with
  | [] => ret tt
  | key :: rest =>
      Idb.quizDeleteKey key ;;;
      Idb.cursorContinue ;;;
      quizCursorLoop rest
  end.

Definition allStores : list storeName :=
  [STORES.profiles; STORES.progress; STORES.quizResults].

Definition deleteProfile (profileId : string) : M unit :=
  Idb.transaction allStores (fun tx =>
    Idb.profilesDelete tx profileId ;;;
    cursor <- Idb.progressOpenCursor tx profileId ;;
    progressCursorLoop cursor ;;;
    cursor <- Idb.quizOpenCursor tx profileId ;;
    quizCursorLoop cursor).

(* ===================================================================== *)
(** ** progress.js *)
(* ===================================================================== *)

Definition markLessonComplete (profileId lessonId : string) : M unit :=
  now <- nowIso ;;
  Idb.putProgress
    {| pr_profileId := profileId; pr_lessonId := lessonId;
       pr_completed := true; pr_completedAt := Some now |}.

Definition markLessonIncomplete (profileId lessonId : string) : M unit :=
  Idb.putProgress
    {| pr_profileId := profileId; pr_lessonId := lessonId;
       pr_completed := false; pr_completedAt := None |}.

(* ===================================================================== *)
(** ** quizzes.js *)
(* ===================================================================== *)

Record Submitted : Type := mkSubmitted {
  sub_id : Z;
  sub_completedAt : string;
  sub_percentage : rounded;
}.

Definition submitQuizResult (profileId quizId : string) (score totalQuestions : Z)
    (answers : gmap Z Z) : M Submitted :=
  completedAt <- nowIso ;;
  let percentage := percentageOf score totalQuestions in
  id <- Idb.addQuiz
          {| qr_id := 0; qr_profileId := profileId; qr_quizId := quizId;
             qr_score := score; qr_totalQuestions := totalQuestions;
             qr_answers := answers; qr_completedAt := completedAt;
             qr_percentage := Some percentage |} ;;
  ret {| sub_id := id; sub_completedAt := completedAt; sub_percentage := percentage |}.

Record Best : Type := mkBest {
  b_score : Z;
  b_totalQuestions : Z;
  b_percentage : rounded;
  b_completedAt : string;
}.

(** A plain object [{}] used as a dictionary: its own properties, and behind
    them the properties every object inherits from [Object.prototype]. *)
Module JsObject.

Definition inheritedNames : list string :=
  ["constructor"; "hasOwnProperty"; "isPrototypeOf"; "propertyIsEnumerable";
   "toLocaleString"; "toString"; "valueOf"; "__proto__";
   "__defineGetter__"; "__defineSetter__"; "__lookupGetter__";
   "__lookupSetter__"].

Inductive lookup (V : Type) : Type :=
| Own (v : V)       (* a value stored under the key *)
| Inherited         (* a function or object of [Object.prototype] *)
| Undefined.
Arguments Own {V} v.
Arguments Inherited {V}.
Arguments Undefined {V}.

(** [o[key]] *)
Definition get {V} (o : gmap string V) (key : string) : lookup V :=
  match o !! key with
  | Some v => Own v
  | None => if bool_decide (key ∈ inheritedNames) then Inherited else Undefined
  end.

End JsObject.

Definition rowPercentage (r : QuizRow) : rounded :=
  match qr_percentage r with
  | Some p => p
  | None => percentageOf (qr_score r) (qr_totalQuestions r)
  end.

(** One turn of the loop of [getBestQuizScores]. An inherited [prev] is
    truthy and has no [percentage], and no number is greater than
    [undefined]. *)
Definition bestStep (bestScores : gmap string Best) (r : QuizRow) : gmap string Best :=
  let percentage := rowPercentage r in
  let replace :=
    match JsObject.get bestScores (qr_quizId r) with
    | JsObject.Own prev => JsNumber.gt percentage (b_percentage prev)
    | JsObject.Inherited => false
    | JsObject.Undefined => true
    end in
  if replace then
    <[qr_quizId r :=
        {| b_score := qr_score r; b_totalQuestions := qr_totalQuestions r;
           b_percentage := percentage; b_completedAt := qr_completedAt r |}]> bestScores
  else bestScores.

Definition getBestQuizScores (profileId : string) : M (gmap string Best) :=
  rows <- Idb.getAllQuizFromIndex profileId ;;
  ret (fold_left bestStep rows ∅).

(* ===================================================================== *)
(** ** exportImport.js *)
(* ===================================================================== *)

Record SnapshotProfile : Type := mkSnapshotProfile {
  sp_profileId : string;
  sp_name : string;
  sp_createdAt : string;
  sp_updatedAt : string;
}.

Record SnapshotProgress : Type := mkSnapshotProgress {
  sg_lessonId : string;
  sg_completed : bool;
  sg_completedAt : option string;
}.

Record SnapshotQuiz : Type := mkSnapshotQuiz {
  sq_quizId : string;
  sq_score : Z;
  sq_totalQuestions : Z;
  sq_answers : option (gmap Z Z);
  sq_completedAt : option string;
}.

(** The export file. A field the importer guards against being absent is an
    [option]; an absent [profile.name] is the empty string, which the
    importer treats alike. *)
Record Snapshot : Type := mkSnapshot {
  version : Z;
  exportedAt : string;
  sn_profile : option SnapshotProfile;
  sn_progress : option (list SnapshotProgress);
  sn_quizResults : option (list SnapshotQuiz);
}.

Definition exportProgressRow (r : ProgressRow) : SnapshotProgress :=
  {| sg_lessonId := pr_lessonId r;
     sg_completed := pr_completed r;
     sg_completedAt := JsString.or_null (pr_completedAt r) |}.

Definition exportQuizRow (r : QuizRow) : SnapshotQuiz :=
  {| sq_quizId := qr_quizId r;
     sq_score := qr_score r;
     sq_totalQuestions := qr_totalQuestions r;
     sq_answers := Some (qr_answers r);
     sq_completedAt := Some (qr_completedAt r) |}.

Definition exportProfile (p : Profile) : SnapshotProfile :=
  {| sp_profileId := profileId p;
     sp_name := name p;
     sp_createdAt := createdAt p;
     sp_updatedAt := updatedAt p |}.

Definition exportProfileData (profileId : string) : M Snapshot :=
  found <- Idb.get profileId ;;
  match found with
  | None => throw (Error "Profile not found")
  | Some profile =>
      progressRows <- Idb.getAllProgressFromIndex profileId ;;
      quizRows <- Idb.getAllQuizFromIndex profileId ;;
      now <- nowIso ;;
      ret {| version := 1;
             exportedAt := now;
             sn_profile := Some (exportProfile profile);
             sn_progress := Some (map exportProgressRow progressRows);
             sn_quizResults := Some (map exportQuizRow quizRows) |}
  end.

(** [for (const x of xs) { await body(x) }] *)
Fixpoint forEach {A} (xs : list A) (body : A -> M unit) : M unit :=
  match xs with
  | [] => ret tt
  | x :: rest => body x ;;; forEach rest body
  end.

Definition importProgressRow (tx : Idb.Tx) (profileId : string) (p : SnapshotProgress)
  : M unit :=
  if negb (JsString.truthy (sg_lessonId p)) then ret tt
  else
    Idb.progressPut tx
      {| pr_profileId := profileId;
         pr_lessonId := sg_lessonId p;
         pr_completed := sg_completed p;
         pr_completedAt := JsString.or_null (sg_completedAt p) |}.

Definition importQuizRow (tx : Idb.Tx) (profileId : string) (q : SnapshotQuiz)
  : M unit :=
  if negb (JsString.truthy (sq_quizId q)) then ret tt
  else
    completedAt <- (if JsString.truthy_opt (sq_completedAt q)
                    then ret (default "" (sq_completedAt q))
                    else nowIso) ;;
    Idb.quizAdd tx
      {| qr_id := 0; qr_profileId := profileId; qr_quizId := sq_quizId q;
         qr_score := sq_score q; qr_totalQuestions := sq_totalQuestions q;
         qr_answers := default ∅ (sq_answers q);
         qr_completedAt := completedAt;
         qr_percentage :=
           if sq_totalQuestions q =? 0 then None
           else Some (percentageOf (sq_score q) (sq_totalQuestions q)) |} ;;;
    ret tt.

Definition importBatch (data : Snapshot) (name : string) (profileId : string)
    (tx : Idb.Tx) : M unit :=
  found <- Idb.profilesGet tx profileId ;;
  (match found with
   | Some profile =>
       now <- nowIso ;;
       Idb.profilesPut tx (setName profile name now)
   | None => ret tt
   end) ;;;
  forEach (default [] (sn_progress data)) (importProgressRow tx profileId) ;;;
  forEach (default [] (sn_quizResults data)) (importQuizRow tx profileId).

(** The profile the batch is written to: the one to overwrite, which must
    exist, or else a new one, created before the batch begins. *)
Definition importTarget (name : string) (overwriteProfileId : option string) : M string :=
  if JsString.truthy_opt overwriteProfileId then
    let target := default "" overwriteProfileId in
    existing <- getProfile target ;;
    match existing with
    | None => throw (Error "Target profile not found")
    | Some _ => ret target
    end
  else
    created <- createProfile name None ;;
    ret (profileId created).

Definition importProfileData (data : Snapshot) (overwriteProfileId : option string)
  : M string :=
  if negb (version data =? 1) then throw (Error "Unsupported import version")
  else
    let name := match sn_profile data with Some p => sp_name p | None => "" end in
    if negb (JsString.truthy name) then throw (Error "Import is missing profile name")
    else
      profileId <- importTarget name overwriteProfileId ;;
      Idb.transaction allStores (importBatch data name profileId) ;;;
      ret profileId.

(* ===================================================================== *)
(** ** profiles.js: [listProfiles] *)
(* ===================================================================== *)

(** [array.sort(compare)]: the stable sort the language prescribes for a
    consistent comparator. An element goes before the first element it does
    not compare greater than. *)
Fixpoint insertSorted {A} (compare : A -> A -> Z) (x : A) (l : list A) : list A :=
  match l with
  | [] => [x]
  | y :: rest => if 0 <? compare x y then y :: insertSorted compare x rest else x :: l
  end.

Definition sortBy {A} (compare : A -> A -> Z) (l : list A) : list A :=
  foldr (insertSorted compare) [] l.

(** The order of keys in an object store: strings by their code units. *)
Definition compareKeys (a b : string) : Z :=
  match String.compare a b with Lt => -1 | Eq => 0 | Gt => 1 end.




(* ===================================================================== *)
(** ** progress.js: [getProgressMap] *)
(* ===================================================================== *)

(** An entry of the progress table: [{ completed, completedAt }]. *)
Definition ProgressEntry : Type := bool * option string.

(** The object [getProgressMap] builds: its own properties, and the entry
    that has taken the place of its prototype, if one has. *)
Record ProgressMap : Type := mkProgressMap {
  pm_own : gmap string ProgressEntry;
  pm_proto : option ProgressEntry;
}.

(** [{}] *)
Definition emptyObject : ProgressMap := {| pm_own := ∅; pm_proto := None |}.

(** [map[key] = entry] on such an object. Under the key "__proto__" the
    assignment is the inherited setter: the entry becomes the prototype and
    no property is added. Under any other key, inherited or not, it makes an
    own property. *)
Definition assign (map : ProgressMap) (key : string) (entry : ProgressEntry)
  : ProgressMap :=
  if bool_decide (key = "__proto__")
  then {| pm_own := pm_own map; pm_proto := Some entry |}
  else {| pm_own := <[key := entry]> (pm_own map); pm_proto := pm_proto map |}.

Definition getProgressMap (profileId : string) : M ProgressMap :=
  rows <- Idb.getAllProgressFromIndex profileId ;;
  ret (fold_left
         (fun map r =>
            assign map (pr_lessonId r)
              (pr_completed r, JsString.or_null (pr_completedAt r)))
         rows emptyObject).

(** [progress[id]?.completed || false] as the components read it. A key
    that is not an own property finds what the object inherits: under
    "__proto__" the prototype itself, which is an entry where one has taken
    its place; under any other key a function of [Object.prototype] or an
    entry's boolean or date, none of which has a truthy [completed]. *)
Definition completedIn (progress : ProgressMap) (id : string) : bool :=
  match pm_own progress !! id with
  | Some entry => fst entry
  | None =>
      if bool_decide (id = "__proto__")
      then match pm_proto progress with
           | Some entry => fst entry
           | None => false
           end
      else false
  end.

(* ===================================================================== *)
(** ** quizzes.js: the two listings *)
(* ===================================================================== *)

(** [db.getAllFromIndex(STORES.quizResults, 'byProfileQuizId', [profileId, quizId])] *)
Definition getAllQuizFromProfileQuizIndex (pid qid : string) : M (list QuizRow) :=
  Idb.request (fun d =>
    (List.filter (fun r => bool_decide (qr_profileId r = pid /\ qr_quizId r = qid))
                 (quizResults d), d)).

Definition getAllQuizResults (localeCompare : string -> string -> Z) (profileId : string)
  : M (list QuizRow) :=
  rows <- Idb.getAllQuizFromIndex profileId ;;
  ret (sortBy (fun a b => localeCompare (qr_completedAt b) (qr_completedAt a)) rows).

Definition getQuizResultsByQuizId (localeCompare : string -> string -> Z)
    (profileId quizId : string) : M (list QuizRow) :=
  rows <- getAllQuizFromProfileQuizIndex profileId quizId ;;
  ret (sortBy (fun a b => localeCompare (qr_completedAt b) (qr_completedAt a)) rows).

(* ===================================================================== *)
(** ** App.jsx: [markComplete] and [submitQuiz] *)
(* ===================================================================== *)

(** [markComplete] of the App on its state [profile] and [progress]; what it
    returns is the next [progress]. The spread copies the own properties
    into a fresh object; a failure is caught and logged. *)
Definition markComplete (profile : option Profile) (prev : ProgressMap)
    (lessonId : string) : M ProgressMap :=
  match profile with
  | None => ret prev
  | Some p =>
      fun env st =>
        match markLessonComplete (profileId p) lessonId env st with
        | (Ok _, st') =>
            (Ok {| pm_own := <[lessonId := (true, Some (clock env (ticks st')))]> (pm_own prev);
                   pm_proto := None |},
             {| db := db st'; requests := requests st'; ticks := S (ticks st') |})
        | (Throw _, st') => (Ok prev, st')
        end
  end.

(** The state [quizResults] of the App after [submitQuiz] has received the
    result of a submission: the update function passed to [setQuizResults]. *)
Definition submitQuizUpdate (prev : gmap string Best) (quizId : string)
    (score totalQuestions : Z) (percentage : rounded) (completedAt : string)
  : gmap string Best :=
  let replace :=
    match JsObject.get prev quizId with
    | JsObject.Own prevBest => JsNumber.gt percentage (b_percentage prevBest)
    | JsObject.Inherited => false
    | JsObject.Undefined => true
    end in
  if replace then
    <[quizId := {| b_score := score; b_totalQuestions := totalQuestions;
                   b_percentage := percentage; b_completedAt := completedAt |}]> prev
  else prev.

(** [submitQuiz] of the App, on its state [profile] and [quizResults]; what
    it returns is the next [quizResults]. A failure is caught and logged. *)
Definition submitQuiz (profile : option Profile) (prev : gmap string Best)
    (quizId : string) (score totalQuestions : Z) (answers : gmap Z Z)
  : M (gmap string Best) :=
  match profile with
  | None => ret prev
  | Some p =>
      fun env st =>
        match submitQuizResult (profileId p) quizId score totalQuestions answers env st with
        | (Ok s, st') =>
            (Ok (submitQuizUpdate prev quizId score totalQuestions
                   (sub_percentage s) (sub_completedAt s)), st')
        | (Throw _, st') => (Ok prev, st')
        end
  end.

(* ===================================================================== *)
(** ** Dashboard.jsx and Sidebar.jsx: progress of the course *)
(* ===================================================================== *)

(** The course as content/structure.js lays it out. *)
Record Lesson : Type := mkLesson {
  lesson_id : string;
  lesson_title : string;
}.

Record CourseModule : Type := mkCourseModule {
  module_id : string;
  module_title : string;
  module_lessons : list Lesson;
}.

Record Phase : Type := mkPhase {
  phase_id : string;
  phase_title : string;
  phase_icon : string;
  phase_weeks : string;
  phase_description : string;
  phase_modules : list CourseModule;
}.

(** [`${phase.id}-${module.id}-${lesson.id}`], the key of a lesson in the
    progress table. *)
Definition lessonKey (phaseId moduleId lessonId : string) : string :=
  phaseId ++ "-" ++ moduleId ++ "-" ++ lessonId.

Record PhaseStats : Type := mkPhaseStats {
  ps_completed : Z;
  ps_total : Z;
  ps_percentage : rounded;
}.

(** [getPhaseStats] of the Dashboard: the two counters run over the lessons
    of the modules of the phase. *)
Definition countLesson (progress : ProgressMap) (phase : Phase) (module : CourseModule)
    (counters : Z * Z) (lesson : Lesson) : Z * Z :=
  let '(completed, total) := counters in
  let total := total + 1 in
  let id := lessonKey (phase_id phase) (module_id module) (lesson_id lesson) in
  if completedIn progress id then (completed + 1, total) else (completed, total).

Definition getPhaseStats (progress : ProgressMap) (phase : Phase) : PhaseStats :=
  let '(completed, total) :=
    fold_left (fun counters module =>
                 fold_left (countLesson progress phase module)
                           (module_lessons module) counters)
              (phase_modules phase) (0, 0) in
  {| ps_completed := completed;
     ps_total := total;
     ps_percentage := if 0 <? total then percentageOf completed total else Int 0 |}.

(** The Sidebar's count of the same thing. *)
Definition getLessonProgress (progress : ProgressMap) (phaseId moduleId lessonId : string)
  : bool :=
  completedIn progress (lessonKey phaseId moduleId lessonId).

Definition getModuleProgress (progress : ProgressMap) (phaseId : string)
    (module : CourseModule) : Z * Z :=
  (Z.of_nat (length (List.filter
                       (fun lesson => getLessonProgress progress phaseId (module_id module)
                                        (lesson_id lesson))
                       (module_lessons module))),
   Z.of_nat (length (module_lessons module))).

Definition getPhaseProgress (progress : ProgressMap) (phase : Phase) : Z * Z :=
  fold_left (fun counters module =>
               let moduleProgress := getModuleProgress progress (phase_id phase) module in
               (fst counters + fst moduleProgress, snd counters + snd moduleProgress))
            (phase_modules phase) (0, 0).

(** [getNextLesson] of the Dashboard: three nested loops that return at the
    first lesson not completed. *)
Definition nextInModule (progress : ProgressMap) (phase : Phase) (module : CourseModule)
  : option (Phase * CourseModule * Lesson) :=
  (fun lesson => (phase, module, lesson)) <$>
  List.find (fun lesson =>
               negb (completedIn progress
                       (lessonKey (phase_id phase) (module_id module) (lesson_id lesson))))
            (module_lessons module).

Fixpoint nextInModules (progress : ProgressMap) (phase : Phase)
    (modules : list CourseModule) : option (Phase * CourseModule * Lesson) :=
  match modules with
  | [] => None
  | module :: rest =>
      match nextInModule progress phase module with
      | Some found => Some found
      | None => nextInModules progress phase rest
      end
  end.

Fixpoint getNextLesson (progress : ProgressMap) (structure : list Phase)
  : option (Phase * CourseModule * Lesson) :=
  match structure with
  | [] => None
  | phase :: rest =>
      match nextInModules progress phase (phase_modules phase) with
      | Some found => Some found
      | None => getNextLesson progress rest
      end
  end.

(* ===================================================================== *)
(** * Vocabulary of the statements *)
(* ===================================================================== *)

Definition noFail (env : Env) : Prop := forall k, fails env k = false.

Definition withProgress (d : Db) (m : gmap (string * string) ProgressRow) : Db :=
  {| profiles := profiles d; progress := m;
     quizResults := quizResults d; quizKeyGen := quizKeyGen d |}.

Definition withQuizResults (d : Db) (l : list QuizRow) : Db :=
  {| profiles := profiles d; progress := progress d;
     quizResults := l; quizKeyGen := quizKeyGen d |}.

Definition withProfiles (d : Db) (m : gmap string Profile) : Db :=
  {| profiles := m; progress := progress d;
     quizResults := quizResults d; quizKeyGen := quizKeyGen d |}.

Definition deleteKeys (keys : list (string * string))
    (m : gmap (string * string) ProgressRow) : gmap (string * string) ProgressRow :=
  fold_left (fun acc k => delete k acc) keys m.

Definition deleteIds (ids : list Z) (l : list QuizRow) : list QuizRow :=
  fold_left (fun acc i => List.filter (fun r => negb (bool_decide (qr_id r = i))) acc) ids l.

(** The database a completed cascade leaves. *)
Definition cascade (pid : string) (d : Db) : Db :=
  {| profiles := delete pid (profiles d);
     progress := deleteKeys (map fst (Idb.progressByProfileId pid d)) (progress d);
     quizResults := deleteIds (map qr_id (Idb.quizByProfileId pid d)) (quizResults d);
     quizKeyGen := quizKeyGen d |}.

Definition isByte (b : Z) : Prop := 0 <= b < 256.
Definition isSextet (s : Z) : Prop := 0 <= s < 64.

Definition range (n : nat) : list Z := map Z.of_nat (seq 0 n).

(** Bit-level facts on two bytes at a time, checked by enumeration. *)
Definition sextetFacts (a b : Z) : bool :=
  let s2 := Z.lor (Z.shiftl (Z.land a 3) 4) (Z.shiftr b 4) in
  let s3 := Z.lor (Z.shiftl (Z.land a 15) 2) (Z.shiftr b 6) in
  forallb (fun s => (0 <=? s) && (s <? 64))
    [Z.shiftr a 2; s2; s3; Z.land b 63; Z.shiftl (Z.land a 3) 4; Z.shiftl (Z.land a 15) 2]
  && (Z.lor (Z.shiftl (Z.shiftr a 2) 2) (Z.shiftr s2 4) =? a)
  && (Z.land s2 15 =? Z.shiftr b 4)
  && (Z.lor (Z.shiftl (Z.shiftr a 4) 4) (Z.shiftr s3 2) =? a)
  && (Z.lor (Z.shiftl (Z.land s3 3) 6) (Z.land b 63) =? b)
  && (Z.lor (Z.shiftl (Z.shiftr a 2) 2) (Z.shiftr (Z.shiftl (Z.land a 3) 4) 4) =? a)
  && (Z.lor (Z.shiftl (Z.land s2 15) 4) (Z.shiftr (Z.shiftl (Z.land b 15) 2) 2) =? b).

(** The salt bytes a call draws. *)
Definition saltOf (env : Env) : list Z :=
  map (fun k => entropy env k mod 256) (seq 0 defaultSaltLength).

(** The hash stored for a PIN under given salt bytes. *)
Definition pinHashFor (pin : string) (saltBytes : list Z) : string :=
  toBase64 (WebCrypto.pbkdf2 (JsString.textEncode pin) saltBytes defaultIterations 32).

(** The profile [createProfile] builds. *)
Definition createdProfile (env : Env) (name : string) (pin : option string) : Profile :=
  {| profileId := uuid env;
     name := JsString.trim name;
     createdAt := clock env 0;
     updatedAt := clock env 0;
     pinSalt := if JsString.truthy_opt pin then Some (toBase64 (saltOf env)) else None;
     pinHash := if JsString.truthy_opt pin
                then Some (pinHashFor (default "" pin) (saltOf env)) else None |}.

(** A concrete world: a counting clock, a fixed identifier, a fixed random
    source, WebCrypto available and an engine that fails no request. *)
Definition sampleEnv : Env :=
  {| clock := fun k => "2026-01-01T00:00:0" ++ String (ascii_of_nat (48 + k)) ".000Z";
     uuid := "7f3c1a52-0000-4000-8000-000000000001";
     entropy := fun k => 37 * Z.of_nat k + 11;
     subtle := true;
     fails := fun _ => false |}.

(** The same world with the [k]-th request failing. *)
Definition failingAt (n : nat) (env : Env) : Env :=
  {| clock := clock env; uuid := uuid env; entropy := entropy env;
     subtle := subtle env; fails := fun k => Nat.eqb k n |}.

Definition paddedPin : string := "1234" ++ String "000" "".

(** Every row of [progress] sits under the key its key path gives: the
    engine takes the key of a [put] from the row. *)
Definition keyed (d : Db) : Prop :=
  forall k r, progress d !! k = Some r -> Idb.progressKey r = k.

(** The rows of [progress] that carry a given pair of identifiers. *)
Definition progressRowsAt (d : Db) (pid lid : string) : list ProgressRow :=
  List.filter (fun r => bool_decide (Idb.progressKey r = (pid, lid)))
              (map snd (map_to_list (progress d))).

(** [markLessonComplete] or [markLessonIncomplete]. *)
Definition mark (completed : bool) (pid lid : string) : M unit :=
  if completed then markLessonComplete pid lid else markLessonIncomplete pid lid.

(** The row a call of [mark] writes. *)
Definition markedRow (completed : bool) (env : Env) (pid lid : string) : ProgressRow :=
  {| pr_profileId := pid; pr_lessonId := lid; pr_completed := completed;
     pr_completedAt := if completed then Some (clock env 0) else None |}.

(** [pinSalt] and [pinHash] of a profile are both [null] or both set. *)
Definition paired (p : Profile) : Prop :=
  pinSalt p = None <-> pinHash p = None.

Definition pinPaired (d : Db) : Prop :=
  forall pid p, profiles d !! pid = Some p -> paired p.

(** [m] keeps the invariant [I] of the database whether it returns or
    throws, and what it returns satisfies [Q]. *)
Definition keeps {A} (I : Db -> Prop) (m : M A) (Q : A -> Prop) : Prop :=
  forall env st, I (db st) ->
    I (db (snd (m env st))) /\ forall a, fst (m env st) = Ok a -> Q a.

(** The calls of the storage modules that write to the database. *)
Inductive call : Type :=
| CreateProfile (name : string) (pin : option string)
| RenameProfile (profileId name : string)
| SetProfilePin (profileId pin : string)
| ClearProfilePin (profileId : string)
| DeleteProfile (profileId : string)
| ImportProfileData (data : Snapshot) (overwriteProfileId : option string)
| MarkLessonComplete (profileId lessonId : string)
| MarkLessonIncomplete (profileId lessonId : string)
| SubmitQuizResult (profileId quizId : string) (score totalQuestions : Z)
                   (answers : gmap Z Z).

(** The database after a call, whether it returned or threw. *)
Definition perform (c : call) (env : Env) (d : Db) : Db :=
  match c with
  | CreateProfile name pin => snd (run (createProfile name pin) env d)
  | RenameProfile pid name => snd (run (renameProfile pid name) env d)
  | SetProfilePin pid pin => snd (run (setProfilePin pid pin) env d)
  | ClearProfilePin pid => snd (run (clearProfilePin pid) env d)
  | DeleteProfile pid => snd (run (deleteProfile pid) env d)
  | ImportProfileData data target => snd (run (importProfileData data target) env d)
  | MarkLessonComplete pid lid => snd (run (markLessonComplete pid lid) env d)
  | MarkLessonIncomplete pid lid => snd (run (markLessonIncomplete pid lid) env d)
  | SubmitQuizResult pid qid score total answers =>
      snd (run (submitQuizResult pid qid score total answers) env d)
  end.

(** A history: calls, each in the world it ran in, oldest first. *)
Definition replay (history : list (call * Env)) (d : Db) : Db :=
  fold_left (fun acc ce => perform (fst ce) (snd ce) acc) history d.

(** The entry [getBestQuizScores] stores for a row. *)
Definition bestOf (r : QuizRow) : Best :=
  {| b_score := qr_score r; b_totalQuestions := qr_totalQuestions r;
     b_percentage := rowPercentage r; b_completedAt := qr_completedAt r |}.

(** The attempts of a profile at one quiz, in the order of the scan. *)
Definition attempts (pid qid : string) (d : Db) : list QuizRow :=
  List.filter (fun r => bool_decide (qr_quizId r = qid)) (Idb.quizByProfileId pid d).

(** The percentage of a row is an integer, as the data model has it. *)
Definition integerPercentage (r : QuizRow) : Prop :=
  exists z, rowPercentage r = Int z.

Definition pct (r : QuizRow) : Z :=
  match rowPercentage r with Int z => z | _ => 0 end.

(** [r] is the first row of [rs] with the greatest percentage: the rows
    before it have less, the rows after it have no more. *)
Definition isFirstMax (rs : list QuizRow) (r : QuizRow) : Prop :=
  exists before after,
    rs = (before ++ r :: after)%list /\
    (forall x, In x before -> pct x < pct r) /\
    (forall x, In x after -> pct x <= pct r).

(** The scan of [getBestQuizScores] on the rows of one quiz: the best row so
    far, replaced by a row with a strictly greater percentage. *)
Definition scanStep (acc : option QuizRow) (r : QuizRow) : option QuizRow :=
  match acc with
  | None => Some r
  | Some b => if JsNumber.gt (rowPercentage r) (rowPercentage b) then Some r else Some b
  end.

(** Three attempts at one quiz, scoring 60, 90 and 75 percent. *)
Definition threeAttempts (qid : string) : list (call * Env) :=
  [(SubmitQuizResult "ava" qid 6 10 ∅, sampleEnv);
   (SubmitQuizResult "ava" qid 9 10 ∅, sampleEnv);
   (SubmitQuizResult "ava" qid 3 4 ∅, sampleEnv)].

(** The database after [add] of a row to [quizResults]. *)
Definition appendQuiz (d : Db) (r : QuizRow) : Db :=
  {| profiles := profiles d;
     progress := progress d;
     quizResults := quizResults d ++ [Idb.withId (quizKeyGen d + 1) r];
     quizKeyGen := quizKeyGen d + 1 |}.

(** The row [submitQuizResult] hands to the store. *)
Definition submittedRow (pid qid : string) (score total : Z) (answers : gmap Z Z)
    (now : string) (percentage : rounded) : QuizRow :=
  {| qr_id := 0; qr_profileId := pid; qr_quizId := qid;
     qr_score := score; qr_totalQuestions := total;
     qr_answers := answers; qr_completedAt := now;
     qr_percentage := Some percentage |}.

(** [round(100 * score / totalQuestions)] on exact quotients, a tie going up. *)
Definition exactPercentage (score total : Z) : Z :=
  (200 * score + total) / (2 * total).

(** What [getProgressMap] reports of a row: [completed] and [completedAt]. *)
Definition recordOf (r : ProgressRow) : bool * option string :=
  (pr_completed r, JsString.or_null (pr_completedAt r)).

(** The row the importer writes for an entry of [progress]. *)
Definition importedProgress (pid : string) (p : SnapshotProgress) : ProgressRow :=
  {| pr_profileId := pid;
     pr_lessonId := sg_lessonId p;
     pr_completed := sg_completed p;
     pr_completedAt := JsString.or_null (sg_completedAt p) |}.

(** One turn of the importer's loop over [progress], on the store. *)
Definition putImported (pid : string) (m : gmap (string * string) ProgressRow)
    (p : SnapshotProgress) : gmap (string * string) ProgressRow :=
  if JsString.truthy (sg_lessonId p)
  then <[(pid, sg_lessonId p) := importedProgress pid p]> m
  else m.

(** The snapshot [exportProfileData] returns for a stored profile. *)
Definition snapshotOf (env : Env) (p : Profile) (pid : string) (d : Db) : Snapshot :=
  {| version := 1;
     exportedAt := clock env 0;
     sn_profile := Some (exportProfile p);
     sn_progress := Some (map exportProgressRow (map snd (Idb.progressByProfileId pid d)));
     sn_quizResults := Some (map exportQuizRow (Idb.quizByProfileId pid d)) |}.

(** A second world, with another identifier to hand out. *)
Definition sampleEnv2 : Env :=
  {| clock := fun k => "2026-02-01T00:00:0" ++ String (ascii_of_nat (48 + k)) ".000Z";
     uuid := "7f3c1a52-0000-4000-8000-000000000002";
     entropy := fun k => 41 * Z.of_nat k + 7;
     subtle := true;
     fails := fun _ => false |}.

(** A stored profile with one completed lesson and one quiz attempt. *)
Definition sampleDb : Db :=
  replay [(CreateProfile "Ava" None, sampleEnv);
          (MarkLessonComplete (uuid sampleEnv) "arrays-linked-lists", sampleEnv);
          (SubmitQuizResult (uuid sampleEnv) "q1" 9 10 ∅, sampleEnv)] emptyDb.

(** The same profile with a lesson marked complete under the empty
    identifier. *)
Definition sampleDbEmptyLesson : Db :=
  replay [(CreateProfile "Ava" None, sampleEnv);
          (MarkLessonComplete (uuid sampleEnv) "", sampleEnv)] emptyDb.

(** A snapshot with one progress entry and one quiz result. *)
Definition sampleSnapshot : Snapshot :=
  {| version := 1;
     exportedAt := "2026-01-15T12:00:00.000Z";
     sn_profile := Some {| sp_profileId := "7f3c1a52-0000-4000-8000-000000000001";
                           sp_name := "Ava";
                           sp_createdAt := "2026-01-01T00:00:00.000Z";
                           sp_updatedAt := "2026-01-01T00:00:00.000Z" |};
     sn_progress := Some [{| sg_lessonId := "arrays-linked-lists";
                             sg_completed := true;
                             sg_completedAt := Some "2026-01-02T00:00:00.000Z" |}];
     sn_quizResults := Some [{| sq_quizId := "q1"; sq_score := 9;
                                sq_totalQuestions := 10; sq_answers := None;
                                sq_completedAt := Some "2026-01-03T00:00:00.000Z" |}] |}.

(** The machine's double for a Number of the model. *)
Definition toDouble (x : JsNumber.num) : PrimFloat.float :=
  match x with
  | JsNumber.Finite m e =>
      let f := PrimFloat.ldshiftexp (PrimFloat.of_uint63 (Uint63.of_Z (Z.abs m)))
                                    (Uint63.of_Z (e + 2101)) in
      if m <? 0 then PrimFloat.opp f else f
  | JsNumber.Inf negative => if negative then PrimFloat.neg_infinity else PrimFloat.infinity
  | JsNumber.NotANumber => PrimFloat.nan
  end.

(** [(score / totalQuestions) * 100] on the machine's doubles. *)
Definition machineProduct (score total : Z) : PrimFloat.float :=
  PrimFloat.mul
    (PrimFloat.div (PrimFloat.of_uint63 (Uint63.of_Z score))
                   (PrimFloat.of_uint63 (Uint63.of_Z total)))
    (PrimFloat.of_uint63 (Uint63.of_Z 100)).

Definition agreesWithMachine (score total : Z) : bool :=
  PrimFloat.eqb (toDouble (JsNumber.divInt score total))
                (PrimFloat.div (PrimFloat.of_uint63 (Uint63.of_Z score))
                               (PrimFloat.of_uint63 (Uint63.of_Z total)))
  && PrimFloat.eqb (toDouble (JsNumber.mulInt (JsNumber.divInt score total) 100))
                   (machineProduct score total).

(** A string of white space only (the empty string among them). *)
Definition blank (s : string) : Prop :=
  Forall (fun c => JsString.isWhiteSpace c = true) (list_ascii_of_string s).

(** The first and the last character of a string, if any. *)
Definition firstChar (s : string) : option ascii :=
  match s with EmptyString => None | String c _ => Some c end.

Fixpoint lastChar (s : string) : option ascii :=
  match s with
  | EmptyString => None
  | String c EmptyString => Some c
  | String _ r => lastChar r
  end.

(** A string that neither starts nor ends with white space. *)
Definition trimmed (s : string) : Prop :=
  (forall c, firstChar s = Some c -> JsString.isWhiteSpace c = false) /\
  (forall c, lastChar s = Some c -> JsString.isWhiteSpace c = false).

(** What [verifyProfilePin] answers, in a world where the read succeeds. *)
Definition answer (pid attempt : string) (env : Env) (d : Db) : result bool :=
  fst (run (verifyProfilePin pid attempt) env d).

(** A world like [env] in which [crypto.subtle] is missing. *)
Definition withoutWebCrypto (env : Env) : Env :=
  {| clock := clock env; uuid := uuid env; entropy := entropy env;
     subtle := false; fails := fails env |}.

(** The profile "Ava" created with the PIN "1234". *)
Definition sampleDbPin : Db :=
  replay [(CreateProfile "Ava" (Some "1234"), sampleEnv)] emptyDb.

(** Every profile sits under the key its key path [profileId] gives. *)
Definition profilesKeyed (d : Db) : Prop :=
  forall k p, profiles d !! k = Some p -> profileId p = k.

(** The keys of [quizResults] increase along the store, and none is above
    the last key the generator handed out. *)
Definition idsOrdered (d : Db) : Prop :=
  StronglySorted Z.lt (map qr_id (quizResults d)) /\
  Forall (fun r => qr_id r <= quizKeyGen d) (quizResults d).

(** The [percentage] of a quiz row is the one computed from its [score] and
    [totalQuestions], or [undefined] for a row imported without questions. *)
Definition computedRow (r : QuizRow) : Prop :=
  qr_percentage r = Some (percentageOf (qr_score r) (qr_totalQuestions r))
  \/ (qr_percentage r = None /\ qr_totalQuestions r = 0).

Definition percentagesComputed (d : Db) : Prop := Forall computedRow (quizResults d).

(** What the engine and the storage modules keep true of the database. *)
Definition wellFormed (d : Db) : Prop :=
  keyed d /\ profilesKeyed d /\ idsOrdered d /\ percentagesComputed d.


(** What [getBestQuizScores] computes from the rows of a profile. *)
Definition bestScoresOf (pid : string) (d : Db) : gmap string Best :=
  fold_left bestStep (Idb.quizByProfileId pid d) ∅.

(** A percentage that no number exceeds in the comparison of the scan. *)
Definition unbeatable (p : rounded) : Prop := p = NaN \/ p = Infinity false.

(** An attempt at a quiz without questions, then one with 9 of 10. *)
Definition emptyQuizFirst : list (call * Env) :=
  [(SubmitQuizResult "ava" "q1" 0 0 ∅, sampleEnv);
   (SubmitQuizResult "ava" "q1" 9 10 ∅, sampleEnv2)].

(** The table [getProgressMap] builds from the rows of a profile. *)
Definition progressMapOf (pid : string) (d : Db) : ProgressMap :=
  fold_left
    (fun map r => assign map (pr_lessonId r)
                    (pr_completed r, JsString.or_null (pr_completedAt r)))
    (map snd (Idb.progressByProfileId pid d)) emptyObject.

(** A consistent comparator of strings: swapping the arguments swaps the
    sign, and "not greater" is transitive. *)
Definition consistent (compare : string -> string -> Z) : Prop :=
  (forall a b, Z.sgn (compare b a) = - Z.sgn (compare a b)) /\
  (forall a b c, compare a b <= 0 -> compare b c <= 0 -> compare a c <= 0).

(** [a] is not older than [b] in the collation. *)
Definition notOlder (localeCompare : string -> string -> Z) (a b : string) : Prop :=
  localeCompare b a <= 0.

(** The row the importer adds for an entry of [quizResults], before the
    engine gives it a key; [now] is the time it falls back on. *)
Definition importedQuiz (pid now : string) (q : SnapshotQuiz) : QuizRow :=
  {| qr_id := 0; qr_profileId := pid; qr_quizId := sq_quizId q;
     qr_score := sq_score q; qr_totalQuestions := sq_totalQuestions q;
     qr_answers := default ∅ (sq_answers q);
     qr_completedAt := if JsString.truthy_opt (sq_completedAt q)
                       then default "" (sq_completedAt q) else now;
     qr_percentage := if sq_totalQuestions q =? 0 then None
                      else Some (percentageOf (sq_score q) (sq_totalQuestions q)) |}.

(** The entries of a snapshot the importer does not skip. *)
Definition keptProgress (data : Snapshot) : list SnapshotProgress :=
  List.filter (fun p => JsString.truthy (sg_lessonId p)) (default [] (sn_progress data)).

Definition keptQuizzes (data : Snapshot) : list SnapshotQuiz :=
  List.filter (fun q => JsString.truthy (sq_quizId q)) (default [] (sn_quizResults data)).

(** The last entry of a snapshot for a lesson, among those not skipped. *)
Definition lastEntry (data : Snapshot) (lid : string) : option SnapshotProgress :=
  List.find (fun p => bool_decide (sg_lessonId p = lid)) (rev (keptProgress data)).

(** [r] is the row added for the entry [q], under some key. *)
Definition addedFor (pid : string) (q : SnapshotQuiz) (r : QuizRow) : Prop :=
  exists now i, r = Idb.withId i (importedQuiz pid now q).

(** Two rows that [getBestQuizScores] cannot tell apart. *)
Definition sameAttempt (r0 r : QuizRow) : Prop :=
  qr_quizId r = qr_quizId r0 /\ bestOf r = bestOf r0.

(** A string of [k] characters U+0000. *)
Definition nuls (k : nat) : string := string_of_list_ascii (repeat "000"%char k).

(** The lessons of a phase, and of the course, in the order of the page,
    each with its module and phase. *)
Definition lessonsOfPhase (phase : Phase) : list (Phase * CourseModule * Lesson) :=
  flat_map (fun module => map (fun lesson => (phase, module, lesson)) (module_lessons module))
           (phase_modules phase).

Definition courseOrder (structure : list Phase) : list (Phase * CourseModule * Lesson) :=
  flat_map lessonsOfPhase structure.

Definition keyOf (place : Phase * CourseModule * Lesson) : string :=
  lessonKey (phase_id (fst (fst place))) (module_id (snd (fst place))) (lesson_id (snd place)).

Definition finished (progress : ProgressMap) (place : Phase * CourseModule * Lesson) : bool :=
  completedIn progress (keyOf place).

(* ===================================================================== *)
(** * Properties *)
(* ===================================================================== *)

(** ** Known answers *)

(** FIPS 180-4, the one-block message "abc". *)
Example sha256_abc :
  Sha256.hash (JsString.textEncode "abc")
  = [186; 120; 22; 191; 143; 1; 207; 234; 65; 65; 64; 222; 93; 174; 34; 35;
     176; 3; 97; 163; 150; 23; 122; 156; 180; 16; 255; 97; 242; 0; 21; 173].
Proof. vm_compute. reflexivity. Qed.

(** RFC 4231, test case 1: key of twenty bytes 0x0b, data "Hi There". *)
Example hmac_rfc4231_1 :
  WebCrypto.hmac (repeat 11 20) (JsString.textEncode "Hi There")
  = [176; 52; 76; 97; 216; 219; 56; 83; 92; 168; 175; 206; 175; 11; 241; 43;
     136; 29; 194; 0; 201; 131; 61; 167; 38; 233; 55; 108; 46; 50; 207; 247].
Proof. vm_compute. reflexivity. Qed.

(** PBKDF2-HMAC-SHA-256 of "password" with salt "salt", two iterations. *)
Example pbkdf2_password_salt_2 :
  WebCrypto.pbkdf2 (JsString.textEncode "password") (JsString.textEncode "salt") 2 32
  = [174; 77; 12; 149; 175; 107; 70; 211; 45; 10; 223; 249; 40; 240; 109; 208;
     42; 48; 63; 142; 243; 194; 81; 223; 214; 226; 216; 90; 149; 71; 76; 67].
Proof. vm_compute. reflexivity. Qed.

(** [btoa] and [atob] on the example of RFC 4648. *)
Example base64_foobar :
  Base64.btoa "foobar" = "Zm9vYmFy" /\ Base64.btoa "fooba" = "Zm9vYmE=" /\
  Base64.atob "Zm9vYg==" = Some "foob" /\ Base64.atob "Zm9vYg=" = None.
Proof. repeat split; vm_compute; reflexivity. Qed.

(** The model of the quotient and of the product is the machine's, for
    every score from 0 to 2n+1 out of n questions, n from 1 to 60, and on
    some large operands. *)
Example number_model_agrees_with_machine :
  forallb (fun t => forallb (fun s => agreesWithMachine s t) (range (2 * Z.to_nat t + 2)))
          (map (Z.add 1) (range 60)) = true /\
  forallb (fun st => agreesWithMachine (fst st) (snd st))
          [(1, 3); (2, 3); (123456789012345, 3); (1, 9007199254740991);
           (9007199254740991, 7); (4503599627370497, 4503599627370496);
           (9007199254740991, 9007199254740990); (1, 4611686018427387903)] = true.
Proof. split; vm_compute; reflexivity. Qed.

Lemma truthy_length s : JsString.truthy s = true <-> (0 < String.length s)%nat.
Proof. destruct s; simpl; split; intros; try lia; try discriminate; auto. Qed.

Lemma or_null_idem o : JsString.or_null (JsString.or_null o) = JsString.or_null o.
Proof. unfold JsString.or_null. destruct (JsString.truthy_opt o) eqn:E; [now rewrite E | reflexivity]. Qed.

(** ** Base64 *)

Lemma list_ind3 {A} (P : list A -> Prop) :
  P [] -> (forall a, P [a]) -> (forall a b, P [a; b]) ->
  (forall a b c r, P r -> P (a :: b :: c :: r)) ->
  forall l, P l.
Proof.
  intros H0 H1 H2 H3.
  fix IH 1. intros [|a [|b [|c r]]];
    [apply H0 | apply H1 | apply H2 | apply H3, IH].
Qed.

Lemma in_range n z : 0 <= z < Z.of_nat n -> In z (range n).
Proof.
  intros H. unfold range. apply in_map_iff. exists (Z.to_nat z). split; [lia|].
  apply in_seq. lia.
Qed.

Lemma value_digit n : isSextet n -> Base64.value (Base64.digit n) = Some n.
Proof.
  intros H.
  assert (forallb (fun n => bool_decide (Base64.value (Base64.digit n) = Some n)) (range 64) = true)
    as Hall by (vm_compute; reflexivity).
  rewrite forallb_forall in Hall. eapply bool_decide_eq_true_1, Hall, in_range.
  unfold isSextet in H. simpl. lia.
Qed.

Lemma digit_plain n :
  isSextet n ->
  Base64.isAsciiWhitespace (Base64.digit n) = false /\ Ascii.eqb (Base64.digit n) "=" = false.
Proof.
  intros H.
  assert (forallb (fun n => negb (Base64.isAsciiWhitespace (Base64.digit n))
                            && negb (Ascii.eqb (Base64.digit n) "=")) (range 64) = true)
    as Hall by (vm_compute; reflexivity).
  rewrite forallb_forall in Hall.
  specialize (Hall n (in_range 64 n ltac:(unfold isSextet in H; simpl; lia))).
  apply andb_true_iff in Hall as [H1 H2].
  now rewrite negb_true_iff in H1, H2.
Qed.

Lemma sextetFacts_all a b : isByte a -> isByte b -> sextetFacts a b = true.
Proof.
  intros Ha Hb.
  assert (forallb (fun a => forallb (sextetFacts a) (range 256)) (range 256) = true)
    as Hall by (vm_compute; reflexivity).
  rewrite forallb_forall in Hall.
  specialize (Hall a (in_range 256 a ltac:(unfold isByte in Ha; simpl; lia))).
  rewrite forallb_forall in Hall.
  apply Hall, in_range. unfold isByte in Hb. simpl. lia.
Qed.

Ltac sextet_facts a b Ha Hb :=
  let F := fresh "F" in
  pose proof (sextetFacts_all a b Ha Hb) as F;
  unfold sextetFacts in F; cbv zeta in F; simpl forallb in F;
  repeat match goal with
         | H : (_ && _) = true |- _ => apply andb_true_iff in H as [? ?]
         end;
  repeat match goal with
         | H : (_ =? _) = true |- _ => apply Z.eqb_eq in H
         | H : (_ <=? _) = true |- _ => apply Z.leb_le in H
         | H : (_ <? _) = true |- _ => apply Z.ltb_lt in H
         end.

Lemma sextets_range bs : Forall isByte bs -> Forall isSextet (Base64.sextets bs).
Proof.
  induction bs as [|a|a b|a b c r IH] using list_ind3; intros H.
  - constructor.
  - inversion_clear H as [|? ? Ha _].
    sextet_facts a a Ha Ha. simpl.
    repeat (constructor; [unfold isSextet; lia|]). constructor.
  - inversion_clear H as [|? ? Ha H']. inversion_clear H' as [|? ? Hb _].
    sextet_facts a b Ha Hb. sextet_facts b b Hb Hb. simpl.
    repeat (constructor; [unfold isSextet; lia|]). constructor.
  - inversion_clear H as [|? ? Ha H']. inversion_clear H' as [|? ? Hb H''].
    inversion_clear H'' as [|? ? Hc Hr].
    sextet_facts a b Ha Hb. sextet_facts b c Hb Hc.
    change (Base64.sextets (a :: b :: c :: r)) with
      (Z.shiftr a 2
       :: Z.lor (Z.shiftl (Z.land a 3) 4) (Z.shiftr b 4)
       :: Z.lor (Z.shiftl (Z.land b 15) 2) (Z.shiftr c 6)
       :: Z.land c 63 :: Base64.sextets r).
    repeat (constructor; [unfold isSextet; lia|]). apply IH, Hr.
Qed.

Lemma decode_sextets bs : Forall isByte bs -> Base64.decode (Base64.sextets bs) = bs.
Proof.
  induction bs as [|a|a b|a b c r IH] using list_ind3; intros H.
  - reflexivity.
  - inversion_clear H as [|? ? Ha _].
    sextet_facts a a Ha Ha. simpl. congruence.
  - inversion_clear H as [|? ? Ha H']. inversion_clear H' as [|? ? Hb _].
    sextet_facts a b Ha Hb. simpl. congruence.
  - inversion_clear H as [|? ? Ha H']. inversion_clear H' as [|? ? Hb H''].
    inversion_clear H'' as [|? ? Hc Hr].
    sextet_facts a b Ha Hb. sextet_facts b c Hb Hc.
    change (Base64.sextets (a :: b :: c :: r)) with
      (Z.shiftr a 2
       :: Z.lor (Z.shiftl (Z.land a 3) 4) (Z.shiftr b 4)
       :: Z.lor (Z.shiftl (Z.land b 15) 2) (Z.shiftr c 6)
       :: Z.land c 63 :: Base64.sextets r).
    change (Base64.decode (?s1 :: ?s2 :: ?s3 :: ?s4 :: ?t)) with
      (Z.lor (Z.shiftl s1 2) (Z.shiftr s2 4)
       :: Z.lor (Z.shiftl (Z.land s2 15) 4) (Z.shiftr s3 2)
       :: Z.lor (Z.shiftl (Z.land s3 3) 6) s4
       :: Base64.decode t).
    rewrite IH by exact Hr. congruence.
Qed.

Lemma encode_length bs :
  exists k j, (length (Base64.sextets bs) = 4 * k + j)%nat /\
    (j = 0 \/ j = 2 \/ j = 3)%nat /\
    Base64.padding (length bs) = repeat "="%char ((4 - j) mod 4)%nat.
Proof.
  induction bs as [|a|a b|a b c r IH] using list_ind3.
  - exists 0%nat, 0%nat. auto.
  - exists 0%nat, 2%nat. auto.
  - exists 0%nat, 3%nat. auto.
  - destruct IH as (k & j & Hl & Hj & Hp). exists (S k), j.
    split; [|split; [exact Hj|]].
    + change (length (Base64.sextets (a :: b :: c :: r)))
        with (4 + length (Base64.sextets r))%nat. lia.
    + rewrite <- Hp. unfold Base64.padding.
      change (length (a :: b :: c :: r)) with (3 + length r)%nat.
      replace (3 + length r)%nat with (length r + 1 * 3)%nat by lia.
      now rewrite Nat.Div0.mod_add.
Qed.

Lemma mod4 k j : (j < 4)%nat -> ((4 * k + j) mod 4 = j)%nat.
Proof.
  intros H. replace (4 * k + j)%nat with (j + k * 4)%nat by lia.
  rewrite Nat.Div0.mod_add. now apply Nat.mod_small.
Qed.

Lemma stripPadding_padded xs k :
  Forall (fun c => Ascii.eqb c "=" = false) xs -> (k <= 2)%nat ->
  (length (xs ++ repeat "="%char k) mod 4 = 0)%nat ->
  Base64.stripPadding (xs ++ repeat "="%char k) = xs.
Proof.
  intros Hxs Hk Hlen. unfold Base64.stripPadding. rewrite Hlen. simpl Nat.eqb. cbv iota.
  rewrite rev_app_distr.
  assert (Hrev : forall c r, rev xs = c :: r -> Ascii.eqb c "=" = false).
  { intros c r E. rewrite Forall_forall in Hxs. apply Hxs.
    apply list_elem_of_In, in_rev. rewrite E. now left. }
  destruct k as [|[|[|k]]]; [| | |lia]; simpl.
  - rewrite app_nil_r. destruct (rev xs) as [|c1 r1] eqn:E.
    + reflexivity.
    + now rewrite (Hrev _ _ eq_refl).
  - destruct (rev xs) as [|c2 r2] eqn:E.
    + apply (f_equal (@rev _)) in E. rewrite rev_involutive in E. now rewrite E.
    + rewrite (Hrev _ _ eq_refl). rewrite <- E. apply rev_involutive.
  - apply rev_involutive.
Qed.

Lemma values_digits sx :
  Forall isSextet sx -> Base64.values (map Base64.digit sx) = Some sx.
Proof.
  induction 1 as [|s sx Hs _ IH]; simpl; [reflexivity|].
  now rewrite value_digit, IH.
Qed.

Lemma filter_all {A} (f : A -> bool) (l : list A) :
  Forall (fun x => f x = true) l -> List.filter f l = l.
Proof.
  induction 1 as [|x l Hx _ IH]; simpl; [reflexivity|]. now rewrite Hx, IH.
Qed.

(** Decoding what [encode] produced gives the bytes back. *)
Lemma decode_encode bs :
  Forall isByte bs ->
  let cs := Base64.stripPadding
              (List.filter (fun c => negb (Base64.isAsciiWhitespace c)) (Base64.encode bs)) in
  (length cs mod 4 =? 1)%nat = false /\
  Base64.values cs = Some (Base64.sextets bs).
Proof.
  intros Hb.
  pose proof (sextets_range bs Hb) as Hsx.
  destruct (encode_length bs) as (k & j & Hl & Hj & Hp).
  assert (Hplain : Forall (fun c => Ascii.eqb c "=" = false) (map Base64.digit (Base64.sextets bs))).
  { apply Forall_map. eapply Forall_impl; [exact Hsx|]. intros s Hs. apply digit_plain, Hs. }
  assert (Hfilter : List.filter (fun c => negb (Base64.isAsciiWhitespace c)) (Base64.encode bs)
                    = Base64.encode bs).
  { apply filter_all. unfold Base64.encode. apply Forall_app. split.
    - apply Forall_map. eapply Forall_impl; [exact Hsx|]. intros s Hs. simpl.
      now rewrite (proj1 (digit_plain s Hs)).
    - unfold Base64.padding. apply Forall_forall. intros c Hc.
      apply list_elem_of_In, repeat_spec in Hc. now subst c. }
  intros cs. subst cs. rewrite Hfilter. unfold Base64.encode. rewrite Hp.
  rewrite stripPadding_padded.
  - split; [|apply values_digits, Hsx].
    rewrite length_map, Hl, mod4 by lia.
    destruct Hj as [->|[->| ->]]; reflexivity.
  - exact Hplain.
  - destruct Hj as [->|[->| ->]]; simpl; lia.
  - rewrite length_app, length_map, repeat_length, Hl.
    destruct Hj as [->|[->| ->]].
    + change ((4 - 0) mod 4)%nat with 0%nat.
      replace (4 * k + 0 + 0)%nat with (4 * k + 0)%nat by lia. apply mod4. lia.
    + change ((4 - 2) mod 4)%nat with 2%nat.
      replace (4 * k + 2 + 2)%nat with (4 * (S k) + 0)%nat by lia. apply mod4. lia.
    + change ((4 - 3) mod 4)%nat with 1%nat.
      replace (4 * k + 3 + 1)%nat with (4 * (S k) + 0)%nat by lia. apply mod4. lia.
Qed.

Lemma charCodes_isByte s : Forall isByte (JsString.charCodes s).
Proof.
  unfold JsString.charCodes. apply Forall_map, Forall_forall. intros c _. simpl.
  pose proof (N_ascii_bounded c). unfold isByte. lia.
Qed.

Lemma fromCharCodes_charCodes s : JsString.fromCharCodes (JsString.charCodes s) = s.
Proof.
  unfold JsString.fromCharCodes, JsString.charCodes. rewrite map_map.
  rewrite (map_ext _ (fun c => c)), map_id.
  - apply string_of_list_ascii_of_string.
  - intros c. now rewrite N2Z.id, ascii_N_embedding.
Qed.

Lemma charCodes_fromCharCodes bs :
  Forall isByte bs -> JsString.charCodes (JsString.fromCharCodes bs) = bs.
Proof.
  intros H. unfold JsString.fromCharCodes, JsString.charCodes.
  rewrite list_ascii_of_string_of_list_ascii, map_map.
  induction H as [|b bs Hb _ IH]; simpl; [reflexivity|]. rewrite IH. f_equal.
  rewrite N_ascii_embedding, Z2N.id; unfold isByte in Hb; lia.
Qed.

Lemma atob_btoa binary : Base64.atob (Base64.btoa binary) = Some binary.
Proof.
  unfold Base64.atob, Base64.btoa. rewrite list_ascii_of_string_of_list_ascii.
  destruct (decode_encode _ (charCodes_isByte binary)) as [H1 H2].
  cbv zeta in H1, H2. rewrite H1, H2.
  rewrite decode_sextets by apply charCodes_isByte.
  now rewrite fromCharCodes_charCodes.
Qed.

Lemma fromBase64_toBase64 bytes env st :
  Forall isByte bytes -> fromBase64 (toBase64 bytes) env st = (Ok bytes, st).
Proof.
  intros H. unfold fromBase64, toBase64. rewrite atob_btoa.
  now rewrite charCodes_fromCharCodes.
Qed.

Lemma btoa_truthy binary : JsString.truthy binary = true -> JsString.truthy (Base64.btoa binary) = true.
Proof.
  destruct binary as [|c [|c2 [|c3 r]]]; intros H; try discriminate; reflexivity.
Qed.

Lemma toBase64_truthy bytes : bytes <> [] -> JsString.truthy (toBase64 bytes) = true.
Proof.
  intros H. apply btoa_truthy. destruct bytes; [congruence|reflexivity].
Qed.

(** ** Lengths of digests *)

Lemma zipAdd_length xs : forall ys,
  length xs = length ys -> length (Sha256.zipAdd xs ys) = length xs.
Proof.
  induction xs as [|x xs IH]; intros [|y ys] H; simpl in *; try lia.
  rewrite IH; lia.
Qed.

Lemma round_length st kw : length st = 8%nat -> length (Sha256.round st kw) = 8%nat.
Proof.
  destruct st as [|a [|b [|c [|d [|e [|f [|g [|h [|i r]]]]]]]]]; simpl; intros H; try lia.
Qed.

Lemma rounds_length kws : forall st,
  length st = 8%nat -> length (fold_left Sha256.round kws st) = 8%nat.
Proof.
  induction kws as [|kw kws IH]; intros st H; simpl; [exact H|].
  apply IH, round_length, H.
Qed.

Lemma compress_length h block : length h = 8%nat -> length (Sha256.compress h block) = 8%nat.
Proof.
  intros H. unfold Sha256.compress. rewrite zipAdd_length; [exact H|].
  now rewrite rounds_length.
Qed.

Lemma digest_words_length msg : length (Sha256.digest_words msg) = 8%nat.
Proof.
  unfold Sha256.digest_words.
  generalize (Sha256.chunks (length (Sha256.pad msg)) 64 (Sha256.pad msg)).
  assert (length Sha256.H0 = 8%nat) as H by reflexivity. revert H.
  generalize Sha256.H0. intros h H l. revert h H.
  induction l as [|b l IH]; intros h H; simpl; [exact H|].
  apply IH, compress_length, H.
Qed.

Lemma hash_length msg : length (Sha256.hash msg) = 32%nat.
Proof.
  unfold Sha256.hash. pose proof (digest_words_length msg) as H.
  destruct (Sha256.digest_words msg) as [|a [|b [|c [|d [|e [|f [|g [|h [|i r]]]]]]]]];
    simpl in H; try lia. reflexivity.
Qed.

Lemma xorBytes_length xs : forall ys,
  length xs = length ys -> length (WebCrypto.xorBytes xs ys) = length xs.
Proof.
  induction xs as [|x xs IH]; intros [|y ys] H; simpl in *; try lia.
  rewrite IH; lia.
Qed.

Lemma pbkdf2Block_length kb salt iterations i :
  length (WebCrypto.pbkdf2Block kb salt iterations i) = 32%nat.
Proof.
  unfold WebCrypto.pbkdf2Block.
  set (u1 := WebCrypto.hmacBlock kb _).
  assert (length (fst (u1, u1)) = 32%nat /\ length (snd (u1, u1)) = 32%nat) as H
    by (split; apply hash_length).
  revert H. generalize (u1, u1). intros ut H.
  apply (N.iter_invariant (iterations - 1) _ (WebCrypto.pbkdf2Step kb)
           (fun ut => length (fst ut) = 32%nat /\ length (snd ut) = 32%nat)); [|exact H].
  intros [u t] [_ Ht]. simpl in *. split.
  - apply hash_length.
  - rewrite xorBytes_length; [exact Ht|]. rewrite Ht. symmetry. apply hash_length.
Qed.

Lemma pbkdf2_length password salt iterations :
  length (WebCrypto.pbkdf2 password salt iterations 32) = 32%nat.
Proof.
  unfold WebCrypto.pbkdf2, WebCrypto.pbkdf2From.
  change ((32 + 31) / 32)%nat with 1%nat. simpl seq. simpl flat_map.
  rewrite app_nil_r, firstn_all2; rewrite pbkdf2Block_length; lia.
Qed.

(** Two passwords with the same HMAC key block derive the same bits. *)
Lemma pbkdf2_keyBlock p q salt iterations dkLen :
  WebCrypto.keyBlock p = WebCrypto.keyBlock q ->
  WebCrypto.pbkdf2 p salt iterations dkLen = WebCrypto.pbkdf2 q salt iterations dkLen.
Proof. unfold WebCrypto.pbkdf2. now intros ->. Qed.

Lemma roundHalfEven_le n d K :
  0 < d -> n <= K * d -> JsNumber.roundHalfEven n d <= K.
Proof.
  intros Hd Hn. unfold JsNumber.roundHalfEven.
  pose proof (Z.div_mod n d ltac:(lia)) as Hdm.
  pose proof (Z.mod_pos_bound n d Hd) as Hr.
  set (q := n / d) in *. set (r := n mod d) in *.
  assert (Hq : q <= K) by nia.
  destruct (2 * r <? d) eqn:E1; [exact Hq|].
  apply Z.ltb_ge in E1.
  assert (q < K) by nia.
  destruct (d <? 2 * r); [lia|]. destruct (Z.even q); lia.
Qed.

Lemma roundHalfEven_nonneg n d :
  0 <= n -> 0 < d -> 0 <= JsNumber.roundHalfEven n d.
Proof.
  intros Hn Hd. unfold JsNumber.roundHalfEven.
  assert (0 <= n / d) by (apply Z.div_pos; lia).
  destruct (2 * (n mod d) <? d); [lia|].
  destruct (d <? 2 * (n mod d)); [lia|]. destruct (Z.even (n / d)); lia.
Qed.

Lemma floorLog2_le n d k :
  0 < n -> 0 < d -> n <= d * 2 ^ k -> 0 <= k -> JsNumber.floorLog2 n d <= k.
Proof.
  intros Hn Hd Hle Hk. unfold JsNumber.floorLog2.
  assert (Z.log2 n <= Z.log2 d + k).
  { etransitivity; [apply Z.log2_le_mono, Hle|].
    rewrite <- Z.shiftl_mul_pow2 by lia.
    rewrite Z.log2_shiftl by lia. lia. }
  destruct (_ <? _); lia.
Qed.

(** A quotient that is at most [K] (an integer) is rounded to a double that
    is at most [K], provided [K] is below [2^53]: no overflow, and the
    significand stays under [K] times the unit in the last place. *)
Lemma nearest_le n d k K :
  0 <= n -> 0 < d -> 0 < K -> K <= 2 ^ k -> 0 <= k <= 52 -> n <= K * d ->
  exists m e, JsNumber.nearest n d = JsNumber.Finite m e /\
              e <= 0 /\ 0 <= m <= K * 2 ^ (- e).
Proof.
  intros Hn Hd HK HKk Hk Hle. unfold JsNumber.nearest.
  destruct (n =? 0) eqn:E0.
  - exists 0, 0. split; [reflexivity|]. simpl. lia.
  - apply Z.eqb_neq in E0.
    assert (Hfl : JsNumber.floorLog2 n d <= k).
    { apply floorLog2_le; try lia.
      assert (K * d <= 2 ^ k * d) by (apply Z.mul_le_mono_nonneg_r; lia). lia. }
    set (ex := Z.max (JsNumber.floorLog2 n d - 52) (-1074)).
    assert (Hex : ex <= 0) by lia.
    rewrite (Z.max_l 0 ex) by lia. rewrite (Z.max_r 0 (- ex)) by lia.
    rewrite Z.pow_0_r, Z.mul_1_r.
    set (m := JsNumber.roundHalfEven (n * 2 ^ (- ex)) d).
    assert (Hp : 0 < 2 ^ (- ex)) by (apply Z.pow_pos_nonneg; lia).
    assert (Hm : 0 <= m <= K * 2 ^ (- ex)).
    { split.
      - apply roundHalfEven_nonneg; nia.
      - apply roundHalfEven_le; [lia|nia]. }
    destruct ((0 <=? ex) && (2 ^ 1024 <=? m * 2 ^ ex)) eqn:Eo.
    + apply andb_true_iff in Eo as [E1 E2].
      apply Z.leb_le in E1, E2. assert (ex = 0) as Hz by lia.
      rewrite Hz in *. simpl in Hm, E2.
      assert (2 ^ k <= 2 ^ 52) by (apply Z.pow_le_mono_r; lia).
      assert (2 ^ 52 < 2 ^ 1024) by (apply Z.pow_lt_mono_r; lia).
      lia.
    + exists m, ex. auto.
Qed.

Lemma percentageOf_range score totalQuestions :
  0 <= score <= totalQuestions -> 0 < totalQuestions ->
  exists p, percentageOf score totalQuestions = Int p /\ 0 <= p <= 100.
Proof.
  intros Hs Ht. unfold percentageOf, JsNumber.divInt.
  rewrite (proj2 (Z.eqb_neq totalQuestions 0)) by lia.
  unfold JsNumber.ofRatio at 1.
  rewrite (proj2 (Z.ltb_ge score 0)), (proj2 (Z.ltb_ge totalQuestions 0)) by lia.
  simpl xorb. cbv iota. rewrite !Z.abs_eq by lia.
  destruct (nearest_le score totalQuestions 0 1) as (m & e & -> & He & Hm); try lia.
  unfold JsNumber.mulInt.
  assert (Hpe : 0 < 2 ^ (- e)) by (apply Z.pow_pos_nonneg; lia).
  assert (exists m' e', (if 0 <=? e then JsNumber.ofRatio (m * 100 * 2 ^ e) 1
                         else JsNumber.ofRatio (m * 100) (2 ^ (- e)))
                        = JsNumber.Finite m' e' /\ e' <= 0 /\ 0 <= m' <= 100 * 2 ^ (- e'))
    as (m' & e' & -> & He' & Hm').
  { destruct (0 <=? e) eqn:Ee.
    - apply Z.leb_le in Ee. assert (e = 0) as -> by lia. simpl in Hm.
      unfold JsNumber.ofRatio.
      rewrite (proj2 (Z.ltb_ge (m * 100 * 2 ^ 0) 0)) by (simpl; lia).
      simpl xorb. cbv iota. rewrite !Z.abs_eq by (simpl; lia).
      apply (nearest_le _ _ 7); simpl; lia.
    - unfold JsNumber.ofRatio.
      rewrite (proj2 (Z.ltb_ge (m * 100) 0)), (proj2 (Z.ltb_ge (2 ^ (- e)) 0)) by lia.
      simpl xorb. cbv iota. rewrite !Z.abs_eq by lia.
      apply (nearest_le _ _ 7); simpl; lia. }
  unfold JsNumber.round.
  assert (Hpe' : 0 < 2 ^ (- e')) by (apply Z.pow_pos_nonneg; lia).
  destruct (0 <=? e') eqn:Ee.
  - apply Z.leb_le in Ee. assert (e' = 0) as -> by lia. simpl in *.
    exists (m' * 1). split; [reflexivity|lia].
  - eexists. split; [reflexivity|].
    replace (1 - e') with (1 + - e') by lia.
    rewrite Z.pow_add_r by lia. change (2 ^ 1) with 2.
    split.
    + apply Z.div_pos; lia.
    + assert ((2 * m' + 2 ^ (- e')) / (2 * 2 ^ (- e')) < 101)
        by (apply Z.div_lt_upper_bound; lia).
      lia.
Qed.




(** ** Running computations *)

Section Running.
Context {A B : Type}.

Lemma bind_ok (m : M A) (k : A -> M B) env st b st' :
  bind m k env st = (Ok b, st') ->
  exists a st1, m env st = (Ok a, st1) /\ k a env st1 = (Ok b, st').
Proof.
  unfold bind. destruct (m env st) as [[a|e] st1]; intros H.
  - eauto.
  - discriminate.
Qed.

Lemma bind_run (m : M A) (k : A -> M B) env st a st1 :
  m env st = (Ok a, st1) -> bind m k env st = k a env st1.
Proof. unfold bind. now intros ->. Qed.

Lemma bind_throw (m : M A) (k : A -> M B) env st e st1 :
  m env st = (Throw e, st1) -> bind m k env st = (Throw e, st1).
Proof. unfold bind. now intros ->. Qed.

End Running.

Lemma request_ok {A} (f : Db -> A * Db) env st a st' :
  Idb.request f env st = (Ok a, st') ->
  fails env (requests st) = false /\ a = fst (f (db st)) /\
  st' = {| db := snd (f (db st)); requests := S (requests st); ticks := ticks st |}.
Proof.
  unfold Idb.request. destruct (fails env (requests st)); [discriminate|].
  destruct (f (db st)) as [a0 d0]. intros H. injection H as <- <-. auto.
Qed.

Lemma request_run {A} (f : Db -> A * Db) env st :
  fails env (requests st) = false ->
  Idb.request f env st =
  (Ok (fst (f (db st))),
   {| db := snd (f (db st)); requests := S (requests st); ticks := ticks st |}).
Proof.
  unfold Idb.request. intros ->. now destruct (f (db st)).
Qed.

Lemma objectStore_all tx s env st :
  s ∈ tx -> Idb.objectStore tx s env st = (Ok tt, st).
Proof. unfold Idb.objectStore. intros H. now rewrite decide_True. Qed.

Lemma transaction_throw {A} ss (body : Idb.Tx -> M A) env st e st' :
  Idb.transaction ss body env st = (Throw e, st') -> db st' = db st.
Proof.
  unfold Idb.transaction.
  destruct (bind _ _ env st) as [[a|e0] st1]; intros H; [discriminate|].
  now injection H as _ <-.
Qed.

Lemma transaction_ok {A} ss (body : Idb.Tx -> M A) env st a st' :
  Idb.transaction ss body env st = (Ok a, st') ->
  exists st1, body ss env st = (Ok a, st1) /\ db st' = db st1.
Proof.
  unfold Idb.transaction.
  destruct (bind _ _ env st) as [[a0|e0] st1] eqn:E; intros H; [|discriminate].
  injection H as -> ->.
  apply bind_ok in E as (a1 & st2 & Hb & E).
  apply bind_ok in E as ([] & st3 & Hc & E).
  apply request_ok in Hc as (_ & _ & ->).
  injection E as -> <-. eauto.
Qed.

Lemma transaction_run {A} ss (body : Idb.Tx -> M A) env st a st1 :
  body ss env st = (Ok a, st1) -> fails env (requests st1) = false ->
  Idb.transaction ss body env st =
  (Ok a, {| db := db st1; requests := S (requests st1); ticks := ticks st1 |}).
Proof.
  intros Hb Hf. unfold Idb.transaction.
  rewrite (bind_run _ _ _ _ _ _ Hb).
  rewrite (bind_run _ _ _ _ _ _ (request_run _ _ _ Hf)). reflexivity.
Qed.

(** ** Cascading delete *)

Lemma progressCursorLoop_ok keys : forall env st st',
  progressCursorLoop keys env st = (Ok tt, st') ->
  db st' = withProgress (db st) (deleteKeys keys (progress (db st))).
Proof.
  induction keys as [|k rest IH]; intros env st st' H; simpl in H.
  - injection H as <-. now destruct (db st).
  - apply bind_ok in H as ([] & st1 & H1 & H).
    apply bind_ok in H as ([] & st2 & H2 & H).
    apply request_ok in H1 as (_ & _ & ->).
    apply request_ok in H2 as (_ & _ & ->).
    apply IH in H. simpl in H. exact H.
Qed.

Lemma quizCursorLoop_ok ids : forall env st st',
  quizCursorLoop ids env st = (Ok tt, st') ->
  db st' = withQuizResults (db st) (deleteIds ids (quizResults (db st))).
Proof.
  induction ids as [|i rest IH]; intros env st st' H; simpl in H.
  - injection H as <-. now destruct (db st).
  - apply bind_ok in H as ([] & st1 & H1 & H).
    apply bind_ok in H as ([] & st2 & H2 & H).
    apply request_ok in H1 as (_ & _ & ->).
    apply request_ok in H2 as (_ & _ & ->).
    apply IH in H. simpl in H. exact H.
Qed.

Lemma progressCursorLoop_run env keys : noFail env -> forall st,
  exists st', progressCursorLoop keys env st = (Ok tt, st').
Proof.
  intros Hnf. induction keys as [|k rest IH]; intros st; simpl.
  - eexists. reflexivity.
  - unfold Idb.progressDeleteKey, Idb.cursorContinue.
    erewrite bind_run by (apply request_run, Hnf).
    erewrite bind_run by (apply request_run, Hnf).
    apply IH.
Qed.

Lemma quizCursorLoop_run env ids : noFail env -> forall st,
  exists st', quizCursorLoop ids env st = (Ok tt, st').
Proof.
  intros Hnf. induction ids as [|k rest IH]; intros st; simpl.
  - eexists. reflexivity.
  - unfold Idb.quizDeleteKey, Idb.cursorContinue.
    erewrite bind_run by (apply request_run, Hnf).
    erewrite bind_run by (apply request_run, Hnf).
    apply IH.
Qed.

Lemma allStores_all s : s ∈ allStores.
Proof. destruct s; unfold allStores; set_solver. Qed.

Lemma deleteBody_ok pid env st st' :
  (Idb.profilesDelete allStores pid ;;;
   cursor <- Idb.progressOpenCursor allStores pid ;;
   progressCursorLoop cursor ;;;
   cursor <- Idb.quizOpenCursor allStores pid ;;
   quizCursorLoop cursor) env st = (Ok tt, st') ->
  db st' = cascade pid (db st).
Proof.
  intros H.
  apply bind_ok in H as ([] & st1 & H1 & H).
  apply bind_ok in H as (c1 & st2 & H2 & H).
  apply bind_ok in H as ([] & st3 & H3 & H).
  apply bind_ok in H as (c2 & st4 & H4 & H).
  unfold Idb.profilesDelete in H1. rewrite (bind_run _ _ _ _ _ _ (objectStore_all _ _ _ _ (allStores_all _))) in H1.
  apply request_ok in H1 as (_ & _ & ->).
  unfold Idb.progressOpenCursor in H2. rewrite (bind_run _ _ _ _ _ _ (objectStore_all _ _ _ _ (allStores_all _))) in H2.
  apply request_ok in H2 as (_ & -> & ->).
  apply progressCursorLoop_ok in H3.
  unfold Idb.quizOpenCursor in H4. rewrite (bind_run _ _ _ _ _ _ (objectStore_all _ _ _ _ (allStores_all _))) in H4.
  apply request_ok in H4 as (_ & -> & ->).
  apply quizCursorLoop_ok in H. rewrite H. simpl. rewrite H3. simpl.
  reflexivity.
Qed.

Lemma filter_none {A} (f : A -> bool) (l : list A) :
  (forall x, In x l -> f x = false) -> List.filter f l = [].
Proof.
  induction l as [|x l IH]; intros H; simpl; [reflexivity|].
  rewrite (H x) by (now left). apply IH. intros y Hy. apply H. now right.
Qed.

Lemma lookup_deleteKeys keys : forall (m : gmap (string * string) ProgressRow) k,
  deleteKeys keys m !! k = if decide (k ∈ keys) then None else m !! k.
Proof.
  induction keys as [|k0 rest IH]; intros m k.
  - destruct (decide (k ∈ [])) as [Hin|_]; [set_solver | reflexivity].
  - change (deleteKeys (k0 :: rest) m) with (deleteKeys rest (delete k0 m)).
    rewrite IH.
    destruct (decide (k ∈ rest)) as [Hin|Hout].
    + rewrite decide_True by set_solver. reflexivity.
    + destruct (decide (k = k0)) as [->|Hne].
      * rewrite decide_True by set_solver. apply lookup_delete_eq.
      * rewrite decide_False by (rewrite elem_of_cons; tauto). now apply lookup_delete_ne.
Qed.

Lemma In_deleteIds ids : forall (l : list QuizRow) r,
  In r (deleteIds ids l) <-> In r l /\ ~ In (qr_id r) ids.
Proof.
  induction ids as [|i rest IH]; intros l r.
  - simpl. tauto.
  - change (deleteIds (i :: rest) l)
      with (deleteIds rest (List.filter (fun r => negb (bool_decide (qr_id r = i))) l)).
    rewrite IH, filter_In, negb_true_iff, bool_decide_eq_false.
    simpl. intuition congruence.
Qed.

Lemma cascade_profile pid d : profiles (cascade pid d) !! pid = None.
Proof. simpl. apply lookup_delete_eq. Qed.

Lemma cascade_progress pid d : Idb.progressByProfileId pid (cascade pid d) = [].
Proof.
  unfold Idb.progressByProfileId. apply filter_none.
  intros [k r] Hin. simpl. apply bool_decide_eq_false. intros Hpid.
  apply list_elem_of_In, elem_of_map_to_list in Hin. simpl in Hin.
  rewrite lookup_deleteKeys in Hin.
  destruct (decide _) as [|Hout]; [discriminate|].
  apply Hout, list_elem_of_In, in_map_iff. exists (k, r). split; [reflexivity|].
  unfold Idb.progressByProfileId. apply filter_In. split.
  - now apply list_elem_of_In, elem_of_map_to_list.
  - simpl. now apply bool_decide_eq_true.
Qed.

Lemma cascade_quizResults pid d : Idb.quizByProfileId pid (cascade pid d) = [].
Proof.
  unfold Idb.quizByProfileId. apply filter_none.
  intros r Hin. simpl in Hin. apply bool_decide_eq_false. intros Hpid.
  apply In_deleteIds in Hin as [Hin Hout].
  apply Hout, in_map. unfold Idb.quizByProfileId. apply filter_In. split; [exact Hin|].
  now apply bool_decide_eq_true.
Qed.


Lemma deleteProfile_run env pid st :
  noFail env -> exists st', deleteProfile pid env st = (Ok tt, st').
Proof.
  intros Hnf. unfold deleteProfile.
  assert (exists st1,
    (Idb.profilesDelete allStores pid ;;;
     cursor <- Idb.progressOpenCursor allStores pid ;;
     progressCursorLoop cursor ;;;
     cursor <- Idb.quizOpenCursor allStores pid ;;
     quizCursorLoop cursor) env st = (Ok tt, st1)) as [st1 Hb].
  { unfold Idb.profilesDelete, Idb.progressOpenCursor, Idb.quizOpenCursor.
    repeat (erewrite bind_run by
      first [ apply objectStore_all, allStores_all | apply request_run, Hnf ]).
    match goal with |- context [bind (progressCursorLoop ?c) _ env ?s] =>
      destruct (progressCursorLoop_run env c Hnf s) as [st2 H2] end.
    erewrite bind_run by exact H2.
    repeat (erewrite bind_run by
      first [ apply objectStore_all, allStores_all | apply request_run, Hnf ]).
    apply quizCursorLoop_run, Hnf. }
  eexists. apply transaction_run; [exact Hb | apply Hnf].
Qed.

Lemma getProfile_run env pid d :
  fails env 0%nat = false -> run (getProfile pid) env d = (Ok (profiles d !! pid), d).
Proof.
  intros Hf. unfold run, getProfile, Idb.get, Idb.profilesGet.
  erewrite bind_run by (apply objectStore_all; set_solver).
  rewrite request_run by exact Hf. reflexivity.
Qed.

(** C1. A call of [deleteProfile] either completes, and then the profile is
    not found any more and no row of [progress] or [quizResults] carries its
    [profileId], or it fails, and then the database is the one before the
    call: the three deletions are one transaction over the three stores.
    When the engine fails no request the call completes. *)
Theorem deleteProfile_atomic env d pid :
  (noFail env -> fst (run (deleteProfile pid) env d) = Ok tt) /\
  match run (deleteProfile pid) env d with
  | (Ok _, d') =>
      profiles d' !! pid = None /\
      (forall env', fails env' 0%nat = false ->
                    run (getProfile pid) env' d' = (Ok None, d')) /\
      Idb.progressByProfileId pid d' = [] /\
      Idb.quizByProfileId pid d' = []
  | (Throw _, d') => d' = d
  end.
Proof.
  unfold run at 1 2.
  destruct (deleteProfile pid env _) as [r st'] eqn:E. cbn [fst].
  split.
  - intros Hnf. destruct (deleteProfile_run env pid {| db := d; requests := 0; ticks := 0 |} Hnf)
      as [st2 H2]. rewrite H2 in E. injection E as <- _. reflexivity.
  - destruct r as [[]|e].
    + unfold deleteProfile in E. apply transaction_ok in E as (st1 & Hb & ->).
      apply deleteBody_ok in Hb. rewrite Hb. simpl db.
      split; [apply cascade_profile|]. split; [|split].
      * intros env' Hf. rewrite getProfile_run by exact Hf.
        now rewrite cascade_profile.
      * apply cascade_progress.
      * apply cascade_quizResults.
    + apply transaction_throw in E. exact E.
Qed.

#[local] Opaque WebCrypto.pbkdf2.

Lemma saltOf_isByte env : Forall isByte (saltOf env).
Proof.
  unfold saltOf. apply Forall_map, Forall_forall. intros k _. simpl.
  unfold isByte. apply Z.mod_pos_bound. lia.
Qed.

Lemma pinHashFor_truthy pin salt : JsString.truthy (pinHashFor pin salt) = true.
Proof.
  apply toBase64_truthy. intros H. pose proof (pbkdf2_length (JsString.textEncode pin) salt defaultIterations) as L.
  rewrite H in L. discriminate.
Qed.

Lemma saltOf_truthy env : JsString.truthy (toBase64 (saltOf env)) = true.
Proof. apply toBase64_truthy. discriminate. Qed.

Lemma derivePinHashBase64_run pin salt env st :
  subtle env = true -> Forall isByte salt ->
  derivePinHashBase64 pin (toBase64 salt) defaultIterations env st
  = (Ok (pinHashFor pin salt), st).
Proof.
  intros Hs Hb. unfold derivePinHashBase64.
  rewrite (bind_run hasSubtle _ env st true st) by (unfold hasSubtle; now rewrite Hs).
  cbn [negb].
  rewrite (bind_run _ _ _ _ _ _ (fromBase64_toBase64 salt env st Hb)).
  reflexivity.
Qed.

Lemma generateSaltBase64_run env st :
  generateSaltBase64 defaultSaltLength env st = (Ok (toBase64 (saltOf env)), st).
Proof. reflexivity. Qed.

Lemma putProfile_run p env st :
  fails env (requests st) = false -> fails env (S (requests st)) = false ->
  Idb.putProfile p env st
  = (Ok tt, {| db := withProfiles (db st) (<[profileId p := p]> (profiles (db st)));
               requests := S (S (requests st)); ticks := ticks st |}).
Proof.
  intros H0 H1. unfold Idb.putProfile.
  rewrite (transaction_run _ _ env st tt
             {| db := withProfiles (db st) (<[profileId p := p]> (profiles (db st)));
                requests := S (requests st); ticks := ticks st |}).
  - reflexivity.
  - unfold Idb.profilesPut.
    erewrite bind_run by (apply objectStore_all; set_solver).
    rewrite request_run by exact H0. reflexivity.
  - exact H1.
Qed.

Lemma get_run pid env st :
  fails env (requests st) = false ->
  Idb.get pid env st
  = (Ok (profiles (db st) !! pid),
     {| db := db st; requests := S (requests st); ticks := ticks st |}).
Proof.
  intros H. unfold Idb.get, Idb.profilesGet.
  erewrite bind_run by (apply objectStore_all; set_solver).
  rewrite request_run by exact H. now destruct (db st).
Qed.

Lemma createProfile_run name pin env d :
  nameMissing name = false ->
  (JsString.truthy_opt pin = true -> subtle env = true) ->
  fails env 0%nat = false -> fails env 1%nat = false ->
  run (createProfile name pin) env d
  = (Ok (createdProfile env name pin),
     withProfiles d (<[uuid env := createdProfile env name pin]> (profiles d))).
Proof.
  intros Hn Hs H0 H1. unfold run, createProfile. rewrite Hn.
  erewrite (bind_run newId) by reflexivity.
  erewrite (bind_run nowIso) by reflexivity.
  unfold createdProfile.
  destruct pin as [p|]; [destruct (JsString.truthy p) eqn:Ep|].
  - simpl JsString.truthy_opt. rewrite Ep. simpl default.
    erewrite bind_run.
    2:{ erewrite bind_run by apply generateSaltBase64_run.
        erewrite bind_run by (apply derivePinHashBase64_run;
                              [apply Hs; simpl; exact Ep | apply saltOf_isByte]).
        reflexivity. }
    cbn [fst snd].
    erewrite bind_run by (apply putProfile_run; [exact H0 | exact H1]).
    reflexivity.
  - simpl JsString.truthy_opt. rewrite Ep.
    erewrite bind_run by reflexivity.
    cbn [fst snd].
    erewrite bind_run by (apply putProfile_run; [exact H0 | exact H1]).
    reflexivity.
  - simpl JsString.truthy_opt. cbv iota.
    erewrite bind_run by reflexivity.
    cbn [fst snd].
    erewrite bind_run by (apply putProfile_run; [exact H0 | exact H1]).
    reflexivity.
Qed.

Lemma verifyProfilePin_run pid attempt env d :
  fails env 0%nat = false ->
  run (verifyProfilePin pid attempt) env d
  = match profiles d !! pid with
    | None => (Ok false, d)
    | Some p =>
        match pinHash p, pinSalt p with
        | Some h, Some s =>
            if negb (JsString.truthy h) || negb (JsString.truthy s) then (Ok true, d)
            else run (hash <- derivePinHashBase64 attempt s defaultIterations ;;
                      ret (bool_decide (hash = h))) env d
        | _, _ => (Ok true, d)
        end
    end.
Proof.
  intros H. unfold run, verifyProfilePin, getProfile.
  erewrite bind_run by (apply get_run; exact H). cbn [db requests ticks].
  destruct (profiles d !! pid) as [p|]; [|reflexivity].
  destruct (pinHash p) as [h|]; [|reflexivity].
  destruct (pinSalt p) as [s|]; [|reflexivity].
  destruct (negb (JsString.truthy h) || negb (JsString.truthy s)); [reflexivity|].
  unfold derivePinHashBase64, hasSubtle, fromBase64, bind, ret, throw.
  destruct (subtle env); cbn [negb]; [|reflexivity].
  destruct (Base64.atob s); reflexivity.
Qed.

(** What [verifyProfilePin] answers on the profile [createProfile] has just
    stored with a non-empty PIN. *)
Lemma verifyProfilePin_created name pin env d env' attempt :
  nameMissing name = false -> JsString.truthy pin = true ->
  subtle env = true -> fails env 0%nat = false -> fails env 1%nat = false ->
  subtle env' = true -> fails env' 0%nat = false ->
  exists p d1,
    run (createProfile name (Some pin)) env d = (Ok p, d1) /\
    profiles d1 !! profileId p = Some p /\
    pinSalt p = Some (toBase64 (saltOf env)) /\
    pinHash p = Some (pinHashFor pin (saltOf env)) /\
    run (verifyProfilePin (profileId p) attempt) env' d1
    = (Ok (bool_decide (pinHashFor attempt (saltOf env) = pinHashFor pin (saltOf env))), d1).
Proof.
  intros Hn Hp Hs H0 H1 Hs' H0'.
  eexists _, _. split; [apply createProfile_run; auto|].
  unfold createdProfile. simpl JsString.truthy_opt. rewrite Hp. simpl default.
  cbn [profileId pinSalt pinHash]. split; [apply lookup_insert_eq|].
  split; [reflexivity|]. split; [reflexivity|].
  rewrite verifyProfilePin_run by exact H0'.
  cbn [profiles withProfiles]. rewrite lookup_insert_eq. cbn [pinHash pinSalt].
  rewrite pinHashFor_truthy, saltOf_truthy. simpl orb. cbv iota.
  unfold run.
  rewrite (bind_run _ _ _ _ _ _ (derivePinHashBase64_run attempt _ env' _ Hs' (saltOf_isByte env))).
  reflexivity.
Qed.

Lemma get_any pid env st :
  Idb.get pid env st
  = if fails env (requests st)
    then (Throw (DOMException "AbortError"),
          {| db := db st; requests := S (requests st); ticks := ticks st |})
    else (Ok (profiles (db st) !! pid),
          {| db := db st; requests := S (requests st); ticks := ticks st |}).
Proof.
  unfold Idb.get, Idb.profilesGet.
  erewrite bind_run by (apply objectStore_all; set_solver).
  unfold Idb.request. destruct (fails env (requests st)); [reflexivity|].
  now destruct (db st).
Qed.

(** C10. For a [profileId] that is not in [profiles], [verifyProfilePin]
    answers [false] whatever the attempt; it changes nothing, and the only
    way it can throw is the engine failing the read: it never reports that
    the profile was not found. *)
Theorem verifyProfilePin_unknown_profile pid attempt env d :
  profiles d !! pid = None ->
  (fails env 0%nat = false -> run (verifyProfilePin pid attempt) env d = (Ok false, d)) /\
  (forall e, fst (run (verifyProfilePin pid attempt) env d) = Throw e ->
             e = DOMException "AbortError") /\
  snd (run (verifyProfilePin pid attempt) env d) = d.
Proof.
  intros Hnone. split; [|split].
  - intros Hf. rewrite verifyProfilePin_run by exact Hf. now rewrite Hnone.
  - intros e. unfold run, verifyProfilePin, getProfile, bind. rewrite get_any.
    cbn [requests db]. destruct (fails env 0%nat); cbn [fst].
    + congruence.
    + rewrite Hnone. discriminate.
  - unfold run, verifyProfilePin, getProfile, bind. rewrite get_any.
    cbn [requests db]. destruct (fails env 0%nat); [reflexivity|].
    now rewrite Hnone.
Qed.

Lemma verifyProfilePin_unknown_profile_witness :
  profiles emptyDb !! "nobody" = None /\
  run (verifyProfilePin "nobody" "1234") sampleEnv emptyDb = (Ok false, emptyDb).
Proof.
  split; [reflexivity|].
  apply (verifyProfilePin_unknown_profile "nobody" "1234" sampleEnv emptyDb); reflexivity.
Defined.

(** C2, as amended. A profile created with a valid name and a PIN of at
    least four characters is stored; [verifyProfilePin] with the same PIN
    answers [true]; with any attempt it answers whether the hash derived from
    the attempt and the stored salt is the stored hash, so a wrong PIN is
    refused exactly when its hash differs; and on a profile without a PIN it
    answers [true] for every attempt. *)
Theorem verifyProfilePin_after_create name pin env d env' attempt :
  nameMissing name = false -> (4 <= String.length pin)%nat ->
  subtle env = true -> noFail env -> subtle env' = true -> noFail env' ->
  exists p d1,
    run (createProfile name (Some pin)) env d = (Ok p, d1) /\
    profiles d1 !! profileId p = Some p /\
    run (verifyProfilePin (profileId p) pin) env' d1 = (Ok true, d1) /\
    run (verifyProfilePin (profileId p) attempt) env' d1
    = (Ok (bool_decide (pinHashFor attempt (saltOf env) = pinHashFor pin (saltOf env))), d1) /\
    (forall pid q, profiles d1 !! pid = Some q -> pinHash q = None ->
                   run (verifyProfilePin pid attempt) env' d1 = (Ok true, d1)).
Proof.
  intros Hn Hlen Hs Hnf Hs' Hnf'.
  assert (Hp : JsString.truthy pin = true) by (apply truthy_length; lia).
  destruct (verifyProfilePin_created name pin env d env' attempt Hn Hp Hs
              (Hnf 0%nat) (Hnf 1%nat) Hs' (Hnf' 0%nat))
    as (p & d1 & Hc & Hin & _ & _ & Hv).
  destruct (verifyProfilePin_created name pin env d env' pin Hn Hp Hs
              (Hnf 0%nat) (Hnf 1%nat) Hs' (Hnf' 0%nat))
    as (p' & d1' & Hc' & _ & _ & _ & Hv').
  rewrite Hc in Hc'. injection Hc' as <- <-.
  exists p, d1. repeat split; try assumption.
  - rewrite Hv'. now rewrite bool_decide_eq_true_2.
  - intros pid q Hq Hh. rewrite verifyProfilePin_run by apply Hnf'.
    now rewrite Hq, Hh.
Qed.

Lemma sampleEnv_noFail : noFail sampleEnv.
Proof. intros k. reflexivity. Qed.

Lemma verifyProfilePin_after_create_witness :
  nameMissing "Ava" = false /\ (4 <= String.length "1234")%nat /\
  exists p d1,
    run (createProfile "Ava" (Some "1234")) sampleEnv emptyDb = (Ok p, d1) /\
    profiles d1 !! profileId p = Some p /\
    run (verifyProfilePin (profileId p) "1234") sampleEnv d1 = (Ok true, d1) /\
    run (verifyProfilePin (profileId p) "0000") sampleEnv d1
    = (Ok (bool_decide (pinHashFor "0000" (saltOf sampleEnv)
                        = pinHashFor "1234" (saltOf sampleEnv))), d1) /\
    (forall pid q, profiles d1 !! pid = Some q -> pinHash q = None ->
                   run (verifyProfilePin pid "0000") sampleEnv d1 = (Ok true, d1)).
Proof.
  split; [reflexivity|]. split; [simpl; lia|].
  apply (verifyProfilePin_after_create "Ava" "1234" sampleEnv emptyDb sampleEnv "0000").
  - reflexivity.
  - simpl; lia.
  - reflexivity.
  - exact sampleEnv_noFail.
  - reflexivity.
  - exact sampleEnv_noFail.
Defined.

(** C2 as it was stated fails. HMAC fills a key shorter than its block with
    zero bytes, so a PIN and the same PIN followed by U+0000 have one key
    block and one PBKDF2 output: the profile created with "1234" is unlocked
    by the five-character attempt "1234\0". *)
Lemma verifyProfilePin_accepts_padded_pin :
  exists p d1,
    run (createProfile "Ava" (Some "1234")) sampleEnv emptyDb = (Ok p, d1) /\
    paddedPin <> "1234" /\
    run (verifyProfilePin (profileId p) paddedPin) sampleEnv d1 = (Ok true, d1).
Proof.
  destruct (verifyProfilePin_created "Ava" "1234" sampleEnv emptyDb sampleEnv paddedPin)
    as (p & d1 & Hc & _ & _ & _ & Hv); try reflexivity.
  exists p, d1. split; [exact Hc|]. split; [discriminate|].
  rewrite Hv. rewrite bool_decide_eq_true_2; [reflexivity|].
  unfold pinHashFor. apply (f_equal toBase64), pbkdf2_keyBlock.
  vm_compute. reflexivity.
Qed.

(** C3 fails on the code. [createProfile] takes any non-empty PIN: with
    "12" it derives a salt and a hash and stores the profile, where
    [setProfilePin] refuses the same PIN. *)
Theorem createProfile_stores_short_pin :
  exists p d1,
    run (createProfile "Ava" (Some "12")) sampleEnv emptyDb = (Ok p, d1) /\
    profiles d1 !! profileId p = Some p /\
    pinSalt p = Some (toBase64 (saltOf sampleEnv)) /\
    pinHash p = Some (pinHashFor "12" (saltOf sampleEnv)) /\
    run (setProfilePin (profileId p) "12") sampleEnv d1
    = (Throw (Error "PIN must be at least 4 characters"), d1).
Proof.
  destruct (verifyProfilePin_created "Ava" "12" sampleEnv emptyDb sampleEnv "12")
    as (p & d1 & Hc & Hin & Hsalt & Hhash & _); try reflexivity.
  exists p, d1. repeat split; assumption || reflexivity.
Qed.

Lemma putProgress_run r env st :
  fails env (requests st) = false -> fails env (S (requests st)) = false ->
  Idb.putProgress r env st
  = (Ok tt, {| db := withProgress (db st) (<[Idb.progressKey r := r]> (progress (db st)));
               requests := S (S (requests st)); ticks := ticks st |}).
Proof.
  intros H0 H1. unfold Idb.putProgress.
  rewrite (transaction_run _ _ env st tt
             {| db := withProgress (db st) (<[Idb.progressKey r := r]> (progress (db st)));
                requests := S (requests st); ticks := ticks st |}).
  - reflexivity.
  - unfold Idb.progressPut.
    erewrite bind_run by (apply objectStore_all; set_solver).
    rewrite request_run by exact H0. reflexivity.
  - exact H1.
Qed.

Lemma mark_run completed pid lid env d :
  noFail env ->
  run (mark completed pid lid) env d
  = (Ok tt, withProgress d (<[(pid, lid) := markedRow completed env pid lid]> (progress d))).
Proof.
  intros Hnf. unfold run, mark. destruct completed.
  - unfold markLessonComplete. erewrite (bind_run nowIso) by reflexivity.
    rewrite putProgress_run by apply Hnf. reflexivity.
  - unfold markLessonIncomplete. rewrite putProgress_run by apply Hnf. reflexivity.
Qed.

Lemma keyed_insert d r :
  keyed d -> keyed (withProgress d (<[Idb.progressKey r := r]> (progress d))).
Proof.
  intros Hk k r'. cbn [progress withProgress]. rewrite lookup_insert.
  destruct (decide (Idb.progressKey r = k)) as [<-|Hne].
  - intros [= <-]. reflexivity.
  - apply Hk.
Qed.

Lemma filter_unique {A} (f : A -> bool) (x : A) (l : list A) :
  NoDup l -> x ∈ l -> (forall y, y ∈ l -> f y = true <-> y = x) ->
  List.filter f l = [x].
Proof.
  induction l as [|a l IH]; intros Hnd Hin Hf.
  - inversion Hin.
  - apply NoDup_cons in Hnd as [Ha Hnd]. simpl.
    destruct (f a) eqn:Efa.
    + assert (a = x) as -> by (apply Hf; [left|exact Efa]).
      f_equal. apply filter_none. intros y Hy.
      destruct (f y) eqn:Efy; [|reflexivity].
      assert (y = x) as -> by (apply Hf; [right; now apply list_elem_of_In|exact Efy]).
      exfalso. apply Ha. now apply list_elem_of_In.
    + apply elem_of_cons in Hin as [->|Hin].
      * assert (f a = true) by (apply Hf; [left|reflexivity]). congruence.
      * apply IH; [exact Hnd|exact Hin|]. intros y Hy. apply Hf. now right.
Qed.

Lemma filter_map_comm {A B} (g : A -> B) (f : B -> bool) (l : list A) :
  List.filter f (map g l) = map g (List.filter (fun a => f (g a)) l).
Proof.
  induction l as [|a l IH]; simpl; [reflexivity|].
  destruct (f (g a)); simpl; now rewrite IH.
Qed.

Lemma progressRowsAt_lookup d pid lid r :
  keyed d -> progress d !! (pid, lid) = Some r -> progressRowsAt d pid lid = [r].
Proof.
  intros Hk Hr. unfold progressRowsAt. rewrite filter_map_comm.
  rewrite (filter_unique _ ((pid, lid), r)); [reflexivity| | |].
  - apply NoDup_map_to_list.
  - now apply elem_of_map_to_list.
  - intros [k r'] Hin. apply elem_of_map_to_list in Hin. simpl.
    rewrite bool_decide_eq_true. split.
    + intros Hkey. rewrite (Hk _ _ Hin) in Hkey. subst k. congruence.
    + intros [= -> ->]. now apply Hk.
Qed.

(** C9. Two calls of [markLessonComplete] or [markLessonIncomplete] for one
    pair [(profileId, lessonId)], in any combination, both complete when the
    engine fails no request, and after each of them exactly one row of
    [progress] carries that pair: the row the latest call wrote. The second
    call adds no row, and the rows under the other keys stay as they were. *)
Theorem mark_upsert_idempotent b1 b2 pid lid env1 env2 d :
  keyed d -> noFail env1 -> noFail env2 ->
  exists d1 d2,
    run (mark b1 pid lid) env1 d = (Ok tt, d1) /\
    run (mark b2 pid lid) env2 d1 = (Ok tt, d2) /\
    progressRowsAt d1 pid lid = [markedRow b1 env1 pid lid] /\
    progressRowsAt d2 pid lid = [markedRow b2 env2 pid lid] /\
    size (progress d2) = size (progress d1) /\
    keyed d2 /\
    (forall k, k <> (pid, lid) -> progress d2 !! k = progress d !! k).
Proof.
  intros Hk Hnf1 Hnf2.
  eexists _, _. split; [apply mark_run, Hnf1|]. split; [apply mark_run, Hnf2|].
  set (r1 := markedRow b1 env1 pid lid). set (r2 := markedRow b2 env2 pid lid).
  assert (Hk1 : keyed (withProgress d (<[(pid, lid) := r1]> (progress d))))
    by exact (keyed_insert d r1 Hk).
  assert (Hk2 : keyed (withProgress (withProgress d (<[(pid, lid) := r1]> (progress d)))
                         (<[(pid, lid) := r2]> (<[(pid, lid) := r1]> (progress d)))))
    by exact (keyed_insert (withProgress d (<[(pid, lid) := r1]> (progress d))) r2 Hk1).
  split; [|split; [|split; [|split]]].
  - apply progressRowsAt_lookup; [exact Hk1|]. apply lookup_insert_eq.
  - apply progressRowsAt_lookup; [exact Hk2|]. apply lookup_insert_eq.
  - cbn [progress withProgress].
    apply map_size_insert_Some. rewrite lookup_insert_eq. eauto.
  - exact Hk2.
  - intros k Hne. cbn [progress withProgress].
    rewrite !lookup_insert_ne by congruence. reflexivity.
Qed.

Lemma emptyDb_keyed : keyed emptyDb.
Proof. intros k r H. cbn in H. rewrite lookup_empty in H. discriminate. Qed.

Lemma mark_upsert_idempotent_witness :
  exists d1 d2,
    run (mark true "ava" "arrays-linked-lists") sampleEnv emptyDb = (Ok tt, d1) /\
    run (mark true "ava" "arrays-linked-lists") sampleEnv d1 = (Ok tt, d2) /\
    progressRowsAt d1 "ava" "arrays-linked-lists"
    = [markedRow true sampleEnv "ava" "arrays-linked-lists"] /\
    progressRowsAt d2 "ava" "arrays-linked-lists"
    = [markedRow true sampleEnv "ava" "arrays-linked-lists"] /\
    size (progress d2) = size (progress d1) /\
    keyed d2 /\
    (forall k, k <> ("ava", "arrays-linked-lists") -> progress d2 !! k = progress emptyDb !! k).
Proof.
  apply (mark_upsert_idempotent true true "ava" "arrays-linked-lists"
           sampleEnv sampleEnv emptyDb).
  - exact emptyDb_keyed.
  - exact sampleEnv_noFail.
  - exact sampleEnv_noFail.
Defined.

Section Keeps.
Context (I : Db -> Prop).

Lemma keeps_ret {A} (a : A) (Q : A -> Prop) : Q a -> keeps I (ret a) Q.
Proof. intros HQ env st HI. split; [exact HI|]. now intros a' [= <-]. Qed.

Lemma keeps_throw {A} e (Q : A -> Prop) : keeps I (throw e) Q.
Proof. intros env st HI. split; [exact HI|]. discriminate. Qed.

Lemma keeps_bind {A B} (m : M A) (k : A -> M B) (P : A -> Prop) (Q : B -> Prop) :
keeps I m P -> (forall a, P a -> keeps I (k a) Q) -> keeps I (bind m k) Q.
Proof.
intros Hm Hk env st HI. destruct (Hm env st HI) as [HI1 HP].
unfold bind. destruct (m env st) as [[a|e] st1]; simpl in *.
- apply (Hk a (HP a eq_refl) env st1 HI1).
- split; [exact HI1|discriminate].
Qed.

Lemma keeps_weaken {A} (m : M A) (P Q : A -> Prop) :
keeps I m P -> (forall a, P a -> Q a) -> keeps I m Q.
Proof.
intros Hm HPQ env st HI. destruct (Hm env st HI) as [HI1 HP].
split; [exact HI1|]. intros a Ha. apply HPQ, HP, Ha.
Qed.

Lemma keeps_request {A} (f : Db -> A * Db) (Q : A -> Prop) :
(forall d, I d -> I (snd (f d)) /\ Q (fst (f d))) -> keeps I (Idb.request f) Q.
Proof.
intros Hf env st HI. unfold Idb.request.
destruct (fails env (requests st)); simpl.
- split; [exact HI|discriminate].
- destruct (Hf (db st) HI) as [HI1 HQ]. destruct (f (db st)) as [a d1]. simpl in *.
  split; [exact HI1|]. now intros a' [= <-].
Qed.

Lemma keeps_read {A} (f : Env -> St -> A) (g : St -> St) :
(forall st, db (g st) = db st) ->
keeps I (fun env st => (Ok (f env st), g st)) (fun _ => True).
Proof. intros Hg env st HI. simpl. rewrite Hg. auto. Qed.

Lemma keeps_objectStore tx s : keeps I (Idb.objectStore tx s) (fun _ => True).
Proof.
unfold Idb.objectStore. destruct (decide (s ∈ tx)).
- now apply keeps_ret.
- apply keeps_throw.
Qed.

Lemma keeps_transaction {A} ss (body : Idb.Tx -> M A) (Q : A -> Prop) :
keeps I (body ss) Q -> keeps I (Idb.transaction ss body) Q.
Proof.
intros Hb env st HI. unfold Idb.transaction.
assert (Hc : keeps I (a <- body ss ;; Idb.request (fun d => (tt, d)) ;;; ret a) Q).
{ eapply keeps_bind; [exact Hb|]. intros a Ha.
  eapply keeps_bind; [apply (keeps_request _ (fun _ => True)); auto|].
  intros _ _. now apply keeps_ret. }
destruct (Hc env st HI) as [HI1 HQ].
destruct ((a <- body ss ;; Idb.request (fun d => (tt, d)) ;;; ret a) env st)
  as [[a|e] st1]; simpl in *.
- split; [exact HI1|exact HQ].
- split; [exact HI|discriminate].
Qed.

Lemma keeps_forEach {A} (xs : list A) (body : A -> M unit) :
(forall x, keeps I (body x) (fun _ => True)) ->
keeps I (forEach xs body) (fun _ => True).
Proof.
intros Hb. induction xs as [|x xs IH]; simpl.
- now apply keeps_ret.
- eapply keeps_bind; [apply Hb|]. intros _ _. exact IH.
Qed.

Lemma keeps_run {A} (m : M A) (Q : A -> Prop) env d :
keeps I m Q -> I d -> I (snd (run m env d)).
Proof.
intros Hm HI. unfold run.
destruct (Hm env {| db := d; requests := 0; ticks := 0 |} HI) as [HI1 _].
now destruct (m env _).
Qed.

End Keeps.

Lemma keeps_get pid :
  keeps pinPaired (Idb.get pid) (fun o => forall p, o = Some p -> paired p).
Proof.
  unfold Idb.get, Idb.profilesGet.
  eapply keeps_bind; [apply keeps_objectStore|]. intros _ _.
  apply keeps_request. intros d HI. simpl. split; [exact HI|].
  intros p Hp. exact (HI pid p Hp).
Qed.

Lemma keeps_profilesPut tx p :
  paired p -> keeps pinPaired (Idb.profilesPut tx p) (fun _ => True).
Proof.
  intros Hp. unfold Idb.profilesPut.
  eapply keeps_bind; [apply keeps_objectStore|]. intros _ _.
  apply keeps_request. intros d HI. simpl. split; [|exact Logic.I].
  intros pid q. cbn [profiles]. rewrite lookup_insert.
  destruct (decide (profileId p = pid)).
  - now intros [= <-].
  - apply HI.
Qed.

Lemma keeps_putProfile p :
  paired p -> keeps pinPaired (Idb.putProfile p) (fun _ => True).
Proof. intros Hp. apply keeps_transaction, keeps_profilesPut, Hp. Qed.

(** A request that leaves [profiles] alone keeps the pairing. *)
Lemma keeps_other_store {A} (f : Db -> A * Db) :
  (forall d, profiles (snd (f d)) = profiles d) ->
  keeps pinPaired (Idb.request f) (fun _ => True).
Proof.
  intros Hf. apply keeps_request. intros d HI. split; [|exact Logic.I].
  intros pid p. rewrite Hf. apply HI.
Qed.

Lemma paired_setName p newName now : paired p -> paired (setName p newName now).
Proof. intros H. exact H. Qed.

Lemma keeps_derive pin salt iterations :
  keeps pinPaired (derivePinHashBase64 pin salt iterations) (fun _ => True).
Proof.
  unfold derivePinHashBase64.
  eapply keeps_bind; [apply (keeps_read _ (fun env _ => subtle env) (fun st => st)); auto|].
  intros ok _. destruct (negb ok); [apply keeps_throw|].
  eapply keeps_bind with (P := fun _ => True).
  - unfold fromBase64. destruct (Base64.atob salt); [now apply keeps_ret|apply keeps_throw].
  - intros bytes _. now apply keeps_ret.
Qed.

Lemma keeps_generateSalt n :
  keeps pinPaired (generateSaltBase64 n) (fun _ => True).
Proof.
  unfold generateSaltBase64.
  eapply keeps_bind with (P := fun _ => True).
  - apply (keeps_read _ (fun env _ => map (fun k => entropy env k mod 256) (seq 0 n))
             (fun st => st)); auto.
  - intros salt _. now apply keeps_ret.
Qed.

Lemma keeps_nowIso : keeps pinPaired nowIso (fun _ => True).
Proof.
  apply (keeps_read _ (fun env st => clock env (ticks st))
           (fun st => {| db := db st; requests := requests st; ticks := S (ticks st) |})).
  reflexivity.
Qed.

Lemma keeps_newId : keeps pinPaired newId (fun _ => True).
Proof. apply (keeps_read _ (fun env _ => uuid env) (fun st => st)). reflexivity. Qed.

Lemma keeps_createProfile name pin :
  keeps pinPaired (createProfile name pin) (fun _ => True).
Proof.
  unfold createProfile. destruct (nameMissing name); [apply keeps_throw|].
  eapply keeps_bind; [apply keeps_newId|]. intros pid _.
  eapply keeps_bind; [apply keeps_nowIso|]. intros now _.
  eapply keeps_bind with
    (P := fun pp : option string * option string => fst pp = None <-> snd pp = None).
  - destruct pin as [p|]; [destruct (JsString.truthy p)|].
    + eapply keeps_bind; [apply keeps_generateSalt|]. intros salt _.
      eapply keeps_bind; [apply keeps_derive|]. intros hash _.
      apply keeps_ret. simpl. split; discriminate.
    + now apply keeps_ret.
    + now apply keeps_ret.
  - intros pp Hpp.
    eapply keeps_bind; [apply keeps_putProfile; exact Hpp|].
    intros _ _. now apply keeps_ret.
Qed.

Lemma keeps_renameProfile pid name :
  keeps pinPaired (renameProfile pid name) (fun _ => True).
Proof.
  unfold renameProfile. destruct (nameMissing name); [apply keeps_throw|].
  eapply keeps_bind; [apply keeps_get|]. intros [p|] Hp; [|apply keeps_throw].
  eapply keeps_bind; [apply keeps_nowIso|]. intros now _.
  eapply keeps_bind; [apply keeps_putProfile, paired_setName, Hp; reflexivity|].
  intros _ _. now apply keeps_ret.
Qed.

Lemma keeps_setProfilePin pid pin :
  keeps pinPaired (setProfilePin pid pin) (fun _ => True).
Proof.
  unfold setProfilePin. destruct (pinTooShort pin); [apply keeps_throw|].
  eapply keeps_bind; [apply keeps_get|]. intros [p|] Hp; [|apply keeps_throw].
  eapply keeps_bind; [apply keeps_generateSalt|]. intros salt _.
  eapply keeps_bind; [apply keeps_derive|]. intros hash _.
  eapply keeps_bind; [apply keeps_nowIso|]. intros now _.
  eapply keeps_bind; [apply keeps_putProfile; split; discriminate|].
  intros _ _. now apply keeps_ret.
Qed.

Lemma keeps_clearProfilePin pid :
  keeps pinPaired (clearProfilePin pid) (fun _ => True).
Proof.
  unfold clearProfilePin.
  eapply keeps_bind; [apply keeps_get|]. intros [p|] Hp; [|apply keeps_throw].
  eapply keeps_bind; [apply keeps_nowIso|]. intros now _.
  eapply keeps_bind; [apply keeps_putProfile; split; reflexivity|].
  intros _ _. now apply keeps_ret.
Qed.

Lemma keeps_importBatch data name pid tx :
  keeps pinPaired (importBatch data name pid tx) (fun _ => True).
Proof.
  unfold importBatch.
  eapply keeps_bind with (P := fun o => forall p, o = Some p -> paired p).
  { unfold Idb.profilesGet.
    eapply keeps_bind; [apply keeps_objectStore|]. intros _ _.
    apply keeps_request. intros d HI. simpl. split; [exact HI|].
    intros p Hp. exact (HI pid p Hp). }
  intros found Hfound.
  eapply keeps_bind with (P := fun _ => True).
  { destruct found as [p|]; [|now apply keeps_ret].
    eapply keeps_bind; [apply keeps_nowIso|]. intros now _.
    apply keeps_profilesPut, paired_setName, Hfound. reflexivity. }
  intros _ _.
  eapply keeps_bind; [|intros _ _]; apply keeps_forEach.
  - intros p. unfold importProgressRow.
    destruct (negb (JsString.truthy (sg_lessonId p))); [now apply keeps_ret|].
    unfold Idb.progressPut.
    eapply keeps_bind; [apply keeps_objectStore|]. intros _ _.
    now apply keeps_other_store.
  - intros q. unfold importQuizRow.
    destruct (negb (JsString.truthy (sq_quizId q))); [now apply keeps_ret|].
    eapply keeps_bind with (P := fun _ => True).
    { destruct (JsString.truthy_opt (sq_completedAt q));
        [now apply keeps_ret|apply keeps_nowIso]. }
    intros completedAt _.
    eapply keeps_bind with (P := fun _ => True); [|intros; now apply keeps_ret].
    unfold Idb.quizAdd.
    eapply keeps_bind; [apply keeps_objectStore|]. intros _ _.
    eapply keeps_weaken; [apply (keeps_request _ _ (fun _ => True))|auto].
    intros d HI. split; [|exact Logic.I]. exact HI.
Qed.

Lemma keeps_importProfileData data target :
  keeps pinPaired (importProfileData data target) (fun _ => True).
Proof.
  unfold importProfileData.
  destruct (negb (version data =? 1)); [apply keeps_throw|].
  destruct (negb (JsString.truthy _)); [apply keeps_throw|].
  eapply keeps_bind with (P := fun _ => True).
  { unfold importTarget. destruct (JsString.truthy_opt target).
    - eapply keeps_bind; [apply keeps_get|].
      intros [p|] _; [now apply keeps_ret|apply keeps_throw].
    - eapply keeps_bind; [apply keeps_createProfile|].
      intros created _. now apply keeps_ret. }
  intros pid _.
  eapply keeps_bind; [apply keeps_transaction, keeps_importBatch|].
  intros _ _. now apply keeps_ret.
Qed.

Lemma keeps_deleteProfile pid :
  keeps pinPaired (deleteProfile pid) (fun _ => True).
Proof.
  unfold deleteProfile. apply keeps_transaction.
  eapply keeps_bind with (P := fun _ => True).
  { unfold Idb.profilesDelete.
    eapply keeps_bind; [apply keeps_objectStore|]. intros _ _.
    apply keeps_request. intros d HI. split; [|exact Logic.I].
    intros q p. cbn [profiles snd]. rewrite lookup_delete.
    destruct (decide (pid = q)); [discriminate|apply HI]. }
  intros _ _.
  eapply keeps_bind with (P := fun _ => True).
  { unfold Idb.progressOpenCursor.
    eapply keeps_bind; [apply keeps_objectStore|]. intros _ _.
    eapply keeps_weaken; [apply (keeps_other_store (fun d => (_, d)))|]; auto. }
  intros c1 _.
  eapply keeps_bind with (P := fun _ => True).
  { induction c1 as [|k rest IH]; simpl; [now apply keeps_ret|].
    eapply keeps_bind; [now apply keeps_other_store|]. intros _ _.
    eapply keeps_bind; [now apply keeps_other_store|]. intros _ _. exact IH. }
  intros _ _.
  eapply keeps_bind with (P := fun _ => True).
  { unfold Idb.quizOpenCursor.
    eapply keeps_bind; [apply keeps_objectStore|]. intros _ _.
    eapply keeps_weaken; [apply (keeps_other_store (fun d => (_, d)))|]; auto. }
  intros c2 _.
  induction c2 as [|k rest IH]; simpl; [now apply keeps_ret|].
  eapply keeps_bind; [now apply keeps_other_store|]. intros _ _.
  eapply keeps_bind; [now apply keeps_other_store|]. intros _ _. exact IH.
Qed.

Lemma keeps_putProgress r : keeps pinPaired (Idb.putProgress r) (fun _ => True).
Proof.
  unfold Idb.putProgress. apply keeps_transaction. unfold Idb.progressPut.
  eapply keeps_bind; [apply keeps_objectStore|]. intros _ _.
  now apply keeps_other_store.
Qed.

Lemma keeps_submitQuizResult pid qid score total answers :
  keeps pinPaired (submitQuizResult pid qid score total answers) (fun _ => True).
Proof.
  unfold submitQuizResult.
  eapply keeps_bind; [apply keeps_nowIso|]. intros now _.
  eapply keeps_bind with (P := fun _ => True); [|intros; now apply keeps_ret].
  unfold Idb.addQuiz. apply keeps_transaction. unfold Idb.quizAdd.
  eapply keeps_bind; [apply keeps_objectStore|]. intros _ _.
  eapply keeps_weaken; [apply (keeps_request _ _ (fun _ => True))|auto].
  intros d HI. split; [exact HI|exact Logic.I].
Qed.

Lemma perform_pinPaired c env d : pinPaired d -> pinPaired (perform c env d).
Proof.
  intros HI. destruct c; simpl; eapply keeps_run; try exact HI.
  - apply keeps_createProfile.
  - apply keeps_renameProfile.
  - apply keeps_setProfilePin.
  - apply keeps_clearProfilePin.
  - apply keeps_deleteProfile.
  - apply keeps_importProfileData.
  - unfold markLessonComplete.
    eapply keeps_bind; [apply keeps_nowIso|]. intros now _. apply keeps_putProgress.
  - apply keeps_putProgress.
  - apply keeps_submitQuizResult.
Qed.

(** C6. Starting from the empty database, whatever calls are made, in
    whatever worlds (the engine failing any request, WebCrypto there or not),
    every stored profile has [pinSalt] and [pinHash] both [null] or both set;
    and every single call, [createProfile], [renameProfile], [setProfilePin],
    [clearProfilePin] and [importProfileData] among them, keeps that true of
    any database of which it was true. *)
Theorem pin_fields_paired (history : list (call * Env)) :
  pinPaired (replay history emptyDb) /\
  (forall c env d, pinPaired d -> pinPaired (perform c env d)) /\
  (forall pid p, profiles (replay history emptyDb) !! pid = Some p ->
     (pinSalt p = None /\ pinHash p = None) \/ (is_Some (pinSalt p) /\ is_Some (pinHash p))).
Proof.
  assert (Hall : forall h d, pinPaired d -> pinPaired (replay h d)).
  { induction h as [|[c env] h IH]; intros d HI; simpl; [exact HI|].
    apply IH, perform_pinPaired, HI. }
  assert (H0 : pinPaired emptyDb).
  { intros pid p H. cbn in H. rewrite lookup_empty in H. discriminate. }
  split; [apply Hall, H0|]. split; [intros c env d; apply perform_pinPaired|].
  intros pid p Hp. pose proof (Hall history emptyDb H0 pid p Hp) as [H1 H2].
  destruct (pinSalt p) as [s|], (pinHash p) as [h|].
  - right. eauto.
  - specialize (H2 eq_refl). discriminate.
  - specialize (H1 eq_refl). discriminate.
  - left. auto.
Qed.

Lemma bestStep_other m r q :
  qr_quizId r <> q -> bestStep m r !! q = m !! q.
Proof.
  intros Hne. unfold bestStep.
  destruct (JsObject.get m (qr_quizId r)) as [prev| |].
  - destruct (JsNumber.gt _ _); [now apply lookup_insert_ne|reflexivity].
  - reflexivity.
  - now apply lookup_insert_ne.
Qed.

Lemma bestStep_same m r acc :
  qr_quizId r ∉ JsObject.inheritedNames ->
  m !! qr_quizId r = bestOf <$> acc ->
  bestStep m r !! qr_quizId r = bestOf <$> scanStep acc r.
Proof.
  intros Hq Hm. unfold bestStep, JsObject.get. rewrite Hm.
  destruct acc as [b|]; simpl.
  - destruct (JsNumber.gt (rowPercentage r) (rowPercentage b)).
    + apply lookup_insert_eq.
    + exact Hm.
  - rewrite bool_decide_eq_false_2 by exact Hq. apply lookup_insert_eq.
Qed.

Lemma fold_bestStep q rows : forall m acc,
  q ∉ JsObject.inheritedNames ->
  m !! q = bestOf <$> acc ->
  fold_left bestStep rows m !! q
  = bestOf <$> fold_left scanStep
                 (List.filter (fun r => bool_decide (qr_quizId r = q)) rows) acc.
Proof.
  induction rows as [|r rows IH]; intros m acc Hq Hm; simpl; [exact Hm|].
  destruct (bool_decide (qr_quizId r = q)) eqn:E.
  - apply bool_decide_eq_true in E. subst q. simpl. apply IH; [exact Hq|].
    now apply bestStep_same.
  - apply bool_decide_eq_false in E. apply IH; [exact Hq|].
    now rewrite bestStep_other.
Qed.

Lemma gt_integer r b :
  integerPercentage r -> integerPercentage b ->
  JsNumber.gt (rowPercentage r) (rowPercentage b) = (pct b <? pct r).
Proof. intros [x Hx] [y Hy]. unfold pct. now rewrite Hx, Hy. Qed.

Lemma scan_firstMax rs : forall prefix b,
  Forall integerPercentage (b :: rs) ->
  isFirstMax prefix b ->
  exists r, fold_left scanStep rs (Some b) = Some r /\ isFirstMax (prefix ++ rs)%list r.
Proof.
  induction rs as [|x rs IH]; intros prefix b Hint Hb.
  - exists b. split; [reflexivity|]. now rewrite app_nil_r.
  - inversion_clear Hint as [|? ? Hib Hrest]. inversion_clear Hrest as [|? ? Hix Hrs].
    simpl. rewrite gt_integer by assumption.
    replace (prefix ++ x :: rs)%list with ((prefix ++ [x]) ++ rs)%list by now rewrite <- app_assoc.
    destruct (pct b <? pct x) eqn:E.
    + apply Z.ltb_lt in E. apply IH; [now constructor|].
      destruct Hb as (before & after & -> & Hbefore & Hafter).
      exists (before ++ b :: after)%list, []. split; [reflexivity|]. split.
      * intros y Hy. apply in_app_or in Hy as [Hy|[<-|Hy]].
        -- specialize (Hbefore y Hy). lia.
        -- exact E.
        -- specialize (Hafter y Hy). lia.
      * intros y [].
    + apply Z.ltb_ge in E. apply IH; [now constructor|].
      destruct Hb as (before & after & -> & Hbefore & Hafter).
      exists before, (after ++ [x])%list. split; [now rewrite <- app_assoc|]. split.
      * exact Hbefore.
      * intros y Hy. apply in_app_or in Hy as [Hy|[<-|[]]]; [now apply Hafter|exact E].
Qed.

Lemma getAllQuizFromIndex_run pid env d :
  fails env 0%nat = false ->
  run (rows <- Idb.getAllQuizFromIndex pid ;; ret (fold_left bestStep rows ∅)) env d
  = (Ok (fold_left bestStep (Idb.quizByProfileId pid d) ∅), d).
Proof.
  intros Hf. unfold run, Idb.getAllQuizFromIndex.
  erewrite bind_run by (apply request_run; exact Hf). reflexivity.
Qed.

(** Best scores, for a quiz whose identifier is not the name of a property
    every object inherits: when the percentages of the profile's attempts at
    the quiz are integers, [getBestQuizScores] reports nothing for a quiz
    never attempted and otherwise the score, total, percentage and date of
    the first attempt that has the greatest percentage. *)
Theorem getBestQuizScores_first_max pid qid env d :
  qid ∉ JsObject.inheritedNames ->
  Forall integerPercentage (attempts pid qid d) ->
  fails env 0%nat = false ->
  exists best,
    run (getBestQuizScores pid) env d = (Ok best, d) /\
    match attempts pid qid d with
    | [] => best !! qid = None
    | _ :: _ => exists r, isFirstMax (attempts pid qid d) r /\ best !! qid = Some (bestOf r)
    end.
Proof.
  intros Hq Hint Hf. eexists. split; [apply getAllQuizFromIndex_run, Hf|].
  rewrite (fold_bestStep qid _ ∅ None Hq) by apply lookup_empty.
  fold (attempts pid qid d).
  destruct (attempts pid qid d) as [|b rs]; [reflexivity|].
  destruct (scan_firstMax rs [b] b Hint) as (r & Hr & Hmax).
  - exists [], []. split; [reflexivity|]. split; intros y [].
  - exists r. split; [exact Hmax|]. simpl. now rewrite Hr.
Qed.

Lemma getBestQuizScores_first_max_witness :
  exists best,
    run (getBestQuizScores "ava") sampleEnv (replay (threeAttempts "q1") emptyDb)
    = (Ok best, replay (threeAttempts "q1") emptyDb) /\
    match attempts "ava" "q1" (replay (threeAttempts "q1") emptyDb) with
    | [] => best !! "q1" = None
    | _ :: _ =>
        exists r, isFirstMax (attempts "ava" "q1" (replay (threeAttempts "q1") emptyDb)) r /\
                  best !! "q1" = Some (bestOf r)
    end.
Proof.
  apply (getBestQuizScores_first_max "ava" "q1" sampleEnv
           (replay (threeAttempts "q1") emptyDb)).
  - vm_compute. intros H. repeat (apply elem_of_cons in H as [H|H]; [discriminate|]).
    inversion H.
  - match goal with
    | |- Forall _ ?t =>
        let l := eval vm_compute in t in
        replace t with l by (vm_compute; reflexivity)
    end.
    repeat constructor; eexists; reflexivity.
  - reflexivity.
Defined.

(** Percentages 60, 90 and 75 on a quiz: 90 is reported. *)
Example getBestQuizScores_60_90_75 :
  map qr_percentage (quizResults (replay (threeAttempts "q1") emptyDb))
  = [Some (Int 60); Some (Int 90); Some (Int 75)] /\
  (b_percentage <$>
     (default ∅ (match fst (run (getBestQuizScores "ava") sampleEnv
                                (replay (threeAttempts "q1") emptyDb)) with
                 | Ok best => Some best
                 | Throw _ => None
                 end) !! "q1"))
  = Some (Int 90).
Proof. split; vm_compute; reflexivity. Qed.

(** C8 fails on the code for a quiz named like a property every object
    inherits. The three attempts at the quiz "constructor" are stored with
    60, 90 and 75 percent, and [getBestQuizScores] returns an object with no
    entry at all: [bestScores["constructor"]] is the inherited function, so
    [prev] is never missing and no percentage is greater than its
    [percentage], which is [undefined]. *)
Theorem getBestQuizScores_inherited_name :
  map qr_quizId (quizResults (replay (threeAttempts "constructor") emptyDb))
  = ["constructor"; "constructor"; "constructor"] /\
  map qr_percentage (quizResults (replay (threeAttempts "constructor") emptyDb))
  = [Some (Int 60); Some (Int 90); Some (Int 75)] /\
  run (getBestQuizScores "ava") sampleEnv (replay (threeAttempts "constructor") emptyDb)
  = (Ok ∅, replay (threeAttempts "constructor") emptyDb).
Proof. repeat split; vm_compute; reflexivity. Qed.

Lemma addQuiz_run r env st :
  fails env (requests st) = false -> fails env (S (requests st)) = false ->
  Idb.addQuiz r env st
  = (Ok (quizKeyGen (db st) + 1),
     {| db := appendQuiz (db st) r; requests := S (S (requests st)); ticks := ticks st |}).
Proof.
  intros H0 H1. unfold Idb.addQuiz.
  rewrite (transaction_run _ _ env st (quizKeyGen (db st) + 1)
             {| db := appendQuiz (db st) r; requests := S (requests st); ticks := ticks st |}).
  - reflexivity.
  - unfold Idb.quizAdd.
    erewrite bind_run by (apply objectStore_all; set_solver).
    rewrite request_run by exact H0. reflexivity.
  - exact H1.
Qed.

Lemma submitQuizResult_run pid qid score total answers env d :
  noFail env ->
  run (submitQuizResult pid qid score total answers) env d
  = (Ok {| sub_id := quizKeyGen d + 1; sub_completedAt := clock env 0;
           sub_percentage := percentageOf score total |},
     appendQuiz d (submittedRow pid qid score total answers (clock env 0)
                     (percentageOf score total))).
Proof.
  intros Hnf. unfold run, submitQuizResult.
  erewrite (bind_run nowIso) by reflexivity.
  erewrite bind_run by (apply addQuiz_run; apply Hnf).
  reflexivity.
Qed.




(** The percentage is rounded from the double [(score / totalQuestions) * 100],
    not from the exact quotient: 23 out of 40 is exactly 57.5, the double
    product is just below it, and 57 is stored where rounding the exact
    value gives 58. *)
Example percentageOf_tie :
  percentageOf 23 40 = Int 57 /\ exactPercentage 23 40 = 58.
Proof. split; vm_compute; reflexivity. Qed.

Lemma exportProfileData_run pid p env d :
  noFail env -> profiles d !! pid = Some p ->
  run (exportProfileData pid) env d = (Ok (snapshotOf env p pid d), d).
Proof.
  intros Hnf Hp. unfold run, exportProfileData.
  erewrite bind_run by (apply get_run; apply Hnf). cbn [db]. rewrite Hp.
  unfold Idb.getAllProgressFromIndex, Idb.getAllQuizFromIndex.
  erewrite bind_run by (apply request_run; apply Hnf).
  erewrite bind_run by (apply request_run; apply Hnf).
  erewrite (bind_run nowIso) by reflexivity.
  reflexivity.
Qed.

Lemma progressPut_run r env st :
  fails env (requests st) = false ->
  Idb.progressPut allStores r env st
  = (Ok tt, {| db := withProgress (db st) (<[Idb.progressKey r := r]> (progress (db st)));
               requests := S (requests st); ticks := ticks st |}).
Proof.
  intros H. unfold Idb.progressPut.
  erewrite bind_run by (apply objectStore_all, allStores_all).
  rewrite request_run by exact H. reflexivity.
Qed.

Lemma forEach_importProgress env pid ps : noFail env -> forall st,
  exists st',
    forEach ps (importProgressRow allStores pid) env st = (Ok tt, st') /\
    db st' = withProgress (db st) (fold_left (putImported pid) ps (progress (db st))) /\
    ticks st' = ticks st.
Proof.
  intros Hnf. induction ps as [|p ps IH]; intros st.
  - exists st. simpl. split; [reflexivity|]. split; [now destruct (db st)|reflexivity].
  - simpl forEach. unfold importProgressRow at 1.
    change (fold_left (putImported pid) (p :: ps) (progress (db st)))
      with (fold_left (putImported pid) ps (putImported pid (progress (db st)) p)).
    assert (Hput : putImported pid (progress (db st)) p
                   = if JsString.truthy (sg_lessonId p)
                     then <[(pid, sg_lessonId p) := importedProgress pid p]> (progress (db st))
                     else progress (db st)) by reflexivity.
    rewrite Hput. clear Hput.
    destruct (JsString.truthy (sg_lessonId p)); cbn [negb].
    + erewrite bind_run by (apply progressPut_run; apply Hnf).
      destruct (IH {| db := withProgress (db st)
                              (<[(pid, sg_lessonId p) := importedProgress pid p]> (progress (db st)));
                      requests := S (requests st); ticks := ticks st |})
        as (st' & Hrun & Hdb & Ht).
      exists st'. split; [exact Hrun|]. split; [exact Hdb|exact Ht].
    + erewrite bind_run by reflexivity.
      destruct (IH st) as (st' & Hrun & Hdb & Ht). exists st'. auto.
Qed.

Lemma quizAdd_run r env st :
  fails env (requests st) = false ->
  Idb.quizAdd allStores r env st
  = (Ok (quizKeyGen (db st) + 1),
     {| db := appendQuiz (db st) r; requests := S (requests st); ticks := ticks st |}).
Proof.
  intros H. unfold Idb.quizAdd.
  erewrite bind_run by (apply objectStore_all, allStores_all).
  rewrite request_run by exact H. reflexivity.
Qed.

Lemma forEach_importQuiz env pid qs : noFail env -> forall st,
  exists st' added,
    forEach qs (importQuizRow allStores pid) env st = (Ok tt, st') /\
    profiles (db st') = profiles (db st) /\
    progress (db st') = progress (db st) /\
    quizResults (db st') = (quizResults (db st) ++ added)%list /\
    Forall (fun r => qr_profileId r = pid) added /\
    length added = length (List.filter (fun q => JsString.truthy (sq_quizId q)) qs).
Proof.
  intros Hnf. induction qs as [|q qs IH]; intros st.
  - exists st, []. simpl. rewrite app_nil_r.
    repeat (split; [reflexivity || constructor|]). reflexivity.
  - simpl forEach. unfold importQuizRow at 1. simpl List.filter.
    destruct (JsString.truthy (sq_quizId q)); cbn [negb].
    + assert (exists now st1,
                (if JsString.truthy_opt (sq_completedAt q)
                 then ret (default "" (sq_completedAt q)) else nowIso) env st = (Ok now, st1)
                /\ db st1 = db st) as (now & st1 & Hnow & Hdb1).
      { destruct (JsString.truthy_opt (sq_completedAt q)); eexists _, _; split; reflexivity. }
      erewrite bind_run.
      2:{ erewrite bind_run by exact Hnow.
          erewrite bind_run by (apply quizAdd_run; apply Hnf). reflexivity. }
      match goal with |- context [forEach qs _ env ?s] =>
        destruct (IH s) as (st' & added & Hrun & Hp & Hg & Hq & Hall & Hlen) end.
      cbn [db appendQuiz profiles progress quizResults] in Hp, Hg, Hq.
      eexists st', (_ :: added). split; [exact Hrun|].
      rewrite Hdb1 in Hp, Hg, Hq.
      split; [exact Hp|]. split; [exact Hg|]. split.
      * rewrite Hq, <- app_assoc. reflexivity.
      * split; [constructor; [reflexivity|exact Hall]|]. simpl. now rewrite Hlen.
    + erewrite bind_run by reflexivity. apply IH.
Qed.

Lemma createProfile_noPin_run name env d :
  nameMissing name = false ->
  fails env 0%nat = false -> fails env 1%nat = false ->
  createProfile name None env {| db := d; requests := 0; ticks := 0 |}
  = (Ok (createdProfile env name None),
     {| db := withProfiles d (<[uuid env := createdProfile env name None]> (profiles d));
        requests := 2; ticks := 1 |}).
Proof.
  intros Hn H0 H1. unfold createProfile. rewrite Hn.
  erewrite (bind_run newId) by reflexivity.
  erewrite (bind_run nowIso) by reflexivity.
  erewrite bind_run by reflexivity.
  cbn [fst snd].
  erewrite bind_run by (apply putProfile_run; [exact H0|exact H1]).
  reflexivity.
Qed.

Lemma nameMissing_truthy name : nameMissing name = false -> JsString.truthy name = true.
Proof.
  unfold nameMissing. intros H. apply orb_false_iff in H as [H _].
  now apply negb_false_iff in H.
Qed.

(** Importing a well-formed snapshot as a new profile, the engine failing
    no request. *)
Lemma importProfileData_new_run data sp env d :
  version data = 1 -> sn_profile data = Some sp -> nameMissing (sp_name sp) = false ->
  noFail env ->
  exists d2 added,
    run (importProfileData data None) env d = (Ok (uuid env), d2) /\
    profiles d2
    = <[uuid env := setName (createdProfile env (sp_name sp) None) (sp_name sp) (clock env 1)]>
        (<[uuid env := createdProfile env (sp_name sp) None]> (profiles d)) /\
    progress d2
    = fold_left (putImported (uuid env)) (default [] (sn_progress data)) (progress d) /\
    quizResults d2 = (quizResults d ++ added)%list /\
    Forall (fun r => qr_profileId r = uuid env) added /\
    length added
    = length (List.filter (fun q => JsString.truthy (sq_quizId q))
                          (default [] (sn_quizResults data))).
Proof.
  intros Hv Hsp Hn Hnf. unfold run, importProfileData.
  rewrite Hv, Hsp. cbn [Z.eqb Pos.eqb negb]. rewrite (nameMissing_truthy _ Hn). cbn [negb].
  unfold importTarget. cbn [JsString.truthy_opt].
  erewrite bind_run.
  2:{ erewrite bind_run by (apply createProfile_noPin_run; [exact Hn|apply Hnf|apply Hnf]).
      reflexivity. }
  cbn [profileId createdProfile].
  set (created := createdProfile env (sp_name sp) None).
  set (d1 := withProfiles d (<[uuid env := created]> (profiles d))).
  set (renamed := setName created (sp_name sp) (clock env 1)).
  set (d1' := withProfiles d1 (<[uuid env := renamed]> (profiles d1))).
  destruct (forEach_importProgress env (uuid env) (default [] (sn_progress data)) Hnf
              {| db := d1'; requests := 4; ticks := 2 |})
    as (st3 & Hrun3 & Hdb3 & Ht3).
  destruct (forEach_importQuiz env (uuid env) (default [] (sn_quizResults data)) Hnf st3)
    as (st4 & added & Hrun4 & Hp4 & Hg4 & Hq4 & Hall & Hlen).
  assert (Hbody : importBatch data (sp_name sp) (uuid env) allStores env
                    {| db := d1; requests := 2; ticks := 1 |} = (Ok tt, st4)).
  { unfold importBatch, Idb.profilesGet, Idb.profilesPut.
    erewrite bind_run.
    2:{ erewrite bind_run by (apply objectStore_all, allStores_all).
        apply request_run, Hnf. }
    cbn [fst snd db profiles d1 withProfiles]. rewrite lookup_insert_eq.
    erewrite bind_run.
    2:{ erewrite (bind_run nowIso) by reflexivity.
        erewrite bind_run by (apply objectStore_all, allStores_all).
        apply request_run, Hnf. }
    erewrite bind_run by exact Hrun3. exact Hrun4. }
  erewrite bind_run by (apply transaction_run; [exact Hbody|apply Hnf]).
  exists (db st4), added. split; [reflexivity|].
  rewrite Hp4, Hg4, Hq4, Hdb3. cbn [profiles progress quizResults withProgress d1' d1 withProfiles].
  repeat split; assumption || reflexivity.
Qed.

Lemma find_app_first {A} (f : A -> bool) (l1 l2 : list A) :
  List.find f (l1 ++ l2)
  = match List.find f l1 with Some x => Some x | None => List.find f l2 end.
Proof.
  induction l1 as [|a l1 IH]; simpl; [reflexivity|]. now destruct (f a).
Qed.

Lemma lookup_fold_putImported pid lid ps : forall m,
  fold_left (putImported pid) ps m !! (pid, lid)
  = match List.find (fun p => bool_decide (sg_lessonId p = lid)
                              && JsString.truthy (sg_lessonId p)) (rev ps) with
    | Some p => Some (importedProgress pid p)
    | None => m !! (pid, lid)
    end.
Proof.
  induction ps as [|p ps IH]; intros m; [reflexivity|].
  change (fold_left (putImported pid) (p :: ps) m)
    with (fold_left (putImported pid) ps (putImported pid m p)).
  rewrite IH. simpl rev. rewrite find_app_first.
  destruct (List.find _ (rev ps)); [reflexivity|]. simpl List.find.
  unfold putImported.
  destruct (JsString.truthy (sg_lessonId p)); rewrite ?andb_true_r, ?andb_false_r.
  - destruct (bool_decide (sg_lessonId p = lid)) eqn:E.
    + apply bool_decide_eq_true in E. subst lid. apply lookup_insert_eq.
    + apply bool_decide_eq_false in E. apply lookup_insert_ne. congruence.
  - reflexivity.
Qed.

Lemma recordOf_imported pid r :
  recordOf (importedProgress pid (exportProgressRow r)) = recordOf r.
Proof.
  unfold recordOf, importedProgress, exportProgressRow. cbn.
  now rewrite !or_null_idem.
Qed.

Lemma in_progressByProfileId pid d k r :
  In (k, r) (Idb.progressByProfileId pid d) <->
  progress d !! k = Some r /\ pr_profileId r = pid.
Proof.
  unfold Idb.progressByProfileId. rewrite filter_In, <- list_elem_of_In, elem_of_map_to_list.
  simpl. now rewrite bool_decide_eq_true.
Qed.

(** C5, as amended. Let [P] be a stored profile with a valid name whose
    progress rows all have a non-empty [lessonId] and whose quiz rows all have
    a non-empty [quizId]. Exporting it and importing the snapshot as a new
    profile, under an identifier no row refers to yet and with the engine
    failing no request, both complete; the new profile has, lesson by lesson,
    the same [completed] and [completedAt] as [P], as many quiz rows as [P],
    and the name of [P]. *)
Theorem export_import_round_trip pid p env1 env2 d :
  keyed d ->
  profiles d !! pid = Some p -> nameMissing (name p) = false ->
  noFail env1 -> noFail env2 ->
  (forall lid, progress d !! (uuid env2, lid) = None) ->
  Idb.quizByProfileId (uuid env2) d = [] ->
  (forall kr, In kr (Idb.progressByProfileId pid d) ->
              JsString.truthy (pr_lessonId (snd kr)) = true) ->
  (forall r, In r (Idb.quizByProfileId pid d) -> JsString.truthy (qr_quizId r) = true) ->
  exists snap d2,
    run (exportProfileData pid) env1 d = (Ok snap, d) /\
    run (importProfileData snap None) env2 d = (Ok (uuid env2), d2) /\
    (forall lid, recordOf <$> progress d2 !! (uuid env2, lid)
                 = recordOf <$> progress d !! (pid, lid)) /\
    length (Idb.quizByProfileId (uuid env2) d2) = length (Idb.quizByProfileId pid d) /\
    name <$> profiles d2 !! uuid env2 = Some (name p).
Proof.
  intros Hk Hp Hname Hnf1 Hnf2 Hfresh Hfreshq Hlessons Hquizzes.
  exists (snapshotOf env1 p pid d).
  destruct (importProfileData_new_run (snapshotOf env1 p pid d) (exportProfile p) env2 d)
    as (d2 & added & Hrun & Hprofiles & Hprogress & Hquiz & Hall & Hlen);
    [reflexivity|reflexivity|exact Hname|exact Hnf2|].
  exists d2. split; [now apply exportProfileData_run|]. split; [exact Hrun|].
  split; [|split].
  - intros lid. rewrite Hprogress. cbn [snapshotOf sn_progress default from_option id].
    rewrite lookup_fold_putImported.
    destruct (List.find _ _) as [sp|] eqn:Efind.
    + apply find_some in Efind as [Hin Hsp].
      apply andb_true_iff in Hsp as [Hlid _]. apply bool_decide_eq_true in Hlid.
      apply in_rev, in_map_iff in Hin as (r & <- & Hin).
      apply in_map_iff in Hin as ([k r'] & Hr' & Hin). simpl in Hr'. subst r'.
      apply in_progressByProfileId in Hin as [Hkr Hpid].
      pose proof (Hk _ _ Hkr) as Hkey. unfold Idb.progressKey in Hkey.
      cbn [exportProgressRow sg_lessonId] in Hlid.
      rewrite Hpid, Hlid in Hkey. subst k. rewrite Hkr. cbn [fmap option_fmap option_map].
      now rewrite recordOf_imported.
    + rewrite Hfresh. destruct (progress d !! (pid, lid)) as [r|] eqn:Hr; [|reflexivity].
      exfalso.
      pose proof (Hk _ _ Hr) as Hkey. unfold Idb.progressKey in Hkey.
      injection Hkey as Hpid Hlid.
      assert (Hin : In ((pid, lid), r) (Idb.progressByProfileId pid d))
        by now apply in_progressByProfileId.
      assert (Hin' : In (exportProgressRow r)
                (rev (map exportProgressRow (map snd (Idb.progressByProfileId pid d))))).
      { apply in_rev. rewrite rev_involutive. apply in_map, in_map_iff.
        exists ((pid, lid), r). split; [reflexivity|exact Hin]. }
      pose proof (find_none _ _ Efind _ Hin') as Hf.
      cbn [exportProgressRow sg_lessonId] in Hf. rewrite Hlid in Hf.
      rewrite bool_decide_eq_true_2 in Hf by reflexivity.
      specialize (Hlessons _ Hin). simpl in Hlessons. rewrite Hlid in Hlessons.
      rewrite Hlessons in Hf. discriminate.
  - unfold Idb.quizByProfileId at 1. rewrite Hquiz, List.filter_app.
    fold (Idb.quizByProfileId (uuid env2) d). rewrite Hfreshq. simpl app.
    rewrite filter_all.
    + rewrite Hlen. cbn [snapshotOf sn_quizResults default from_option id].
      rewrite filter_all; [now rewrite length_map|].
      apply Forall_map, Forall_forall. intros r Hr.
      apply Hquizzes. now apply list_elem_of_In.
    + eapply Forall_impl; [exact Hall|]. intros r Hr. now apply bool_decide_eq_true.
  - rewrite Hprofiles, lookup_insert_eq. reflexivity.
Qed.

Lemma sampleEnv2_noFail : noFail sampleEnv2.
Proof. intros k. reflexivity. Qed.

Lemma sampleDb_progress :
  progress sampleDb
  = <[(uuid sampleEnv, "arrays-linked-lists")
      := markedRow true sampleEnv (uuid sampleEnv) "arrays-linked-lists"]> ∅.
Proof.
  unfold sampleDb, replay. cbn [fold_left fst snd perform].
  rewrite createProfile_run by (reflexivity || discriminate).
  change (markLessonComplete ?a ?b) with (mark true a b).
  rewrite mark_run by exact sampleEnv_noFail.
  rewrite submitQuizResult_run by exact sampleEnv_noFail.
  reflexivity.
Qed.

Lemma export_import_round_trip_witness :
  exists snap d2,
    run (exportProfileData (uuid sampleEnv)) sampleEnv sampleDb = (Ok snap, sampleDb) /\
    run (importProfileData snap None) sampleEnv2 sampleDb = (Ok (uuid sampleEnv2), d2) /\
    (forall lid, recordOf <$> progress d2 !! (uuid sampleEnv2, lid)
                 = recordOf <$> progress sampleDb !! (uuid sampleEnv, lid)) /\
    length (Idb.quizByProfileId (uuid sampleEnv2) d2)
    = length (Idb.quizByProfileId (uuid sampleEnv) sampleDb) /\
    name <$> profiles d2 !! uuid sampleEnv2
    = Some (name (createdProfile sampleEnv "Ava" None)).
Proof.
  apply (export_import_round_trip (uuid sampleEnv) (createdProfile sampleEnv "Ava" None)
           sampleEnv sampleEnv2 sampleDb).
  - intros k r. rewrite sampleDb_progress, lookup_insert.
    destruct (decide _) as [<-|]; [|rewrite lookup_empty; discriminate].
    intros [= <-]. reflexivity.
  - vm_compute. reflexivity.
  - reflexivity.
  - exact sampleEnv_noFail.
  - exact sampleEnv2_noFail.
  - intros lid. rewrite sampleDb_progress, lookup_insert_ne; [apply lookup_empty|].
    intros Heq. apply (f_equal fst) in Heq. discriminate Heq.
  - vm_compute. reflexivity.
  - assert (Idb.progressByProfileId (uuid sampleEnv) sampleDb
            = [((uuid sampleEnv, "arrays-linked-lists"),
                markedRow true sampleEnv (uuid sampleEnv) "arrays-linked-lists")]) as ->
      by (vm_compute; reflexivity).
    intros kr [<-|[]]. reflexivity.
  - match goal with
    | |- forall r, In r ?t -> _ =>
        let l := eval vm_compute in t in replace t with l by (vm_compute; reflexivity)
    end.
    intros r [<-|[]]. reflexivity.
Defined.

(** C5 as it was stated fails: the importer skips an entry whose [lessonId]
    is empty. A profile with one progress row, written by
    [markLessonComplete] for the lesson "", is exported and imported; both
    calls complete, and the new profile has no progress row. *)
Lemma export_import_drops_empty_lessonId :
  exists snap d2,
    run (exportProfileData (uuid sampleEnv)) sampleEnv sampleDbEmptyLesson
    = (Ok snap, sampleDbEmptyLesson) /\
    run (importProfileData snap None) sampleEnv2 sampleDbEmptyLesson
    = (Ok (uuid sampleEnv2), d2) /\
    map snd (Idb.progressByProfileId (uuid sampleEnv) sampleDbEmptyLesson)
    = [markedRow true sampleEnv (uuid sampleEnv) ""] /\
    Idb.progressByProfileId (uuid sampleEnv2) d2 = [].
Proof.
  assert (Hp : profiles sampleDbEmptyLesson !! uuid sampleEnv
               = Some (createdProfile sampleEnv "Ava" None)) by (vm_compute; reflexivity).
  exists (snapshotOf sampleEnv (createdProfile sampleEnv "Ava" None)
            (uuid sampleEnv) sampleDbEmptyLesson).
  destruct (importProfileData_new_run
              (snapshotOf sampleEnv (createdProfile sampleEnv "Ava" None)
                 (uuid sampleEnv) sampleDbEmptyLesson)
              (exportProfile (createdProfile sampleEnv "Ava" None))
              sampleEnv2 sampleDbEmptyLesson)
    as (d2 & added & Hrun & _ & Hprogress & _); try reflexivity;
    [exact sampleEnv2_noFail|].
  exists d2. split; [apply exportProfileData_run; [exact sampleEnv_noFail|exact Hp]|].
  split; [exact Hrun|]. split; [vm_compute; reflexivity|].
  unfold Idb.progressByProfileId. rewrite Hprogress. vm_compute. reflexivity.
Qed.

(** C4 fails on the code when the import creates a profile. The profile is
    stored by [createProfile] before the transaction of the batch is opened:
    with the engine failing the sixth request, the [add] of the quiz row, the
    call throws, the batch is undone, and the database is not the empty one
    it started from but the one [createProfile] alone leaves, with the new
    profile "Ava" in it. *)
Theorem importProfileData_leaves_created_profile :
  fst (run (importProfileData sampleSnapshot None) (failingAt 5 sampleEnv2) emptyDb)
  = Throw (DOMException "AbortError") /\
  snd (run (importProfileData sampleSnapshot None) (failingAt 5 sampleEnv2) emptyDb)
  = snd (run (createProfile "Ava" None) sampleEnv2 emptyDb) /\
  profiles emptyDb !! uuid sampleEnv2 = None /\
  name <$> profiles (snd (run (importProfileData sampleSnapshot None)
                            (failingAt 5 sampleEnv2) emptyDb)) !! uuid sampleEnv2
  = Some "Ava".
Proof. repeat split; vm_compute; reflexivity. Qed.

(** A snapshot of another version, or without a profile name, is refused
    before anything is read or written. *)
Theorem importProfileData_rejects data target env d :
  version data <> 1 \/ sn_profile data = None
  \/ (exists sp, sn_profile data = Some sp /\ sp_name sp = "") ->
  exists message,
    run (importProfileData data target) env d = (Throw (Error message), d) /\
    (version data <> 1 -> message = "Unsupported import version") /\
    (version data = 1 -> message = "Import is missing profile name").
Proof.
  intros H. unfold run, importProfileData.
  destruct (version data =? 1) eqn:Ev.
  - apply Z.eqb_eq in Ev. cbn [negb].
    assert (JsString.truthy (match sn_profile data with
                             | Some p => sp_name p | None => "" end) = false) as ->.
    { destruct H as [H|[->|(sp & -> & ->)]]; [congruence|reflexivity|reflexivity]. }
    cbn [negb]. eexists. split; [reflexivity|]. split; [congruence|reflexivity].
  - apply Z.eqb_neq in Ev. cbn [negb]. eexists. split; [reflexivity|].
    split; [reflexivity|congruence].
Qed.

Lemma importProfileData_rejects_witness :
  exists message,
    run (importProfileData
           {| version := 2; exportedAt := ""; sn_profile := None;
              sn_progress := None; sn_quizResults := None |} None) sampleEnv sampleDb
    = (Throw (Error message), sampleDb) /\
    (2 <> 1 -> message = "Unsupported import version") /\
    (2 = 1 -> message = "Import is missing profile name").
Proof.
  apply (importProfileData_rejects
           {| version := 2; exportedAt := ""; sn_profile := None;
              sn_progress := None; sn_quizResults := None |} None sampleEnv sampleDb).
  left. discriminate.
Defined.

(** Importing over an existing profile is all or nothing: when the call
    throws, whatever request failed, the database is the one before it. *)
Theorem importProfileData_overwrite_atomic data target env d e d' :
  JsString.truthy target = true ->
  run (importProfileData data (Some target)) env d = (Throw e, d') ->
  d' = d.
Proof.
  intros Ht. unfold run, importProfileData.
  destruct (negb (version data =? 1)); [now intros [= _ <-]|].
  destruct (negb (JsString.truthy _)); [now intros [= _ <-]|].
  unfold importTarget. cbn [JsString.truthy_opt default from_option id]. rewrite Ht.
  unfold getProfile, bind at 1 2. rewrite get_any. cbn [requests db].
  destruct (fails env 0%nat); [now intros [= _ <-]|].
  destruct (profiles d !! target) as [p|]; [|now intros [= _ <-]].
  cbn [ret]. unfold bind.
  match goal with |- context [Idb.transaction ?ss ?b env ?s] =>
    pose proof (transaction_throw ss b env s) as Hth;
    destruct (Idb.transaction ss b env s) as [[[]|e0] st1] end.
  - cbn [ret]. discriminate.
  - intros [= _ <-]. exact (Hth e0 st1 eq_refl).
Qed.

Lemma importProfileData_overwrite_atomic_witness :
  snd (run (importProfileData sampleSnapshot (Some (uuid sampleEnv)))
           (failingAt 3 sampleEnv2) sampleDb) = sampleDb.
Proof.
  apply (importProfileData_overwrite_atomic sampleSnapshot (uuid sampleEnv)
           (failingAt 3 sampleEnv2) sampleDb (DOMException "AbortError")).
  - reflexivity.
  - vm_compute. reflexivity.
Defined.

(* ===================================================================== *)
(** ** The rest of the storage modules and their callers *)
(* ===================================================================== *)

Lemma trimStart_blank s : blank s -> JsString.trimStart s = "".
Proof.
  unfold blank. induction s as [|c r IH]; [reflexivity|].
  simpl. intros H. inversion H as [|? ? Hc Hr]; subst. rewrite Hc. auto.
Qed.

Lemma trimStart_first s c :
  firstChar (JsString.trimStart s) = Some c -> JsString.isWhiteSpace c = false.
Proof.
  induction s as [|a r IH]; [discriminate|].
  simpl. destruct (JsString.isWhiteSpace a) eqn:E; [exact IH|].
  simpl. now intros [= <-].
Qed.

Lemma trimEnd_first s c :
  firstChar (JsString.trimEnd s) = Some c -> firstChar s = Some c.
Proof.
  destruct s as [|a r]; [discriminate|].
  simpl. destruct (JsString.trimEnd r); [destruct (JsString.isWhiteSpace a)|]; simpl; auto; discriminate.
Qed.

Lemma trimEnd_last s c :
  lastChar (JsString.trimEnd s) = Some c -> JsString.isWhiteSpace c = false.
Proof.
  induction s as [|a r IH]; [discriminate|].
  simpl. destruct (JsString.trimEnd r) as [|b r'] eqn:E.
  - destruct (JsString.isWhiteSpace a) eqn:Ea; [discriminate|]. simpl. now intros [= <-].
  - simpl. exact IH.
Qed.

Lemma trim_trimmed s : trimmed (JsString.trim s).
Proof.
  unfold JsString.trim. split; intros c H.
  - apply trimEnd_first in H. now apply trimStart_first in H.
  - now apply trimEnd_last in H.
Qed.

Lemma nameMissing_blank s : blank s -> nameMissing s = true.
Proof.
  intros H. unfold nameMissing, JsString.trim. rewrite trimStart_blank by exact H.
  simpl. apply orb_true_r.
Qed.

(** A name that is empty or made of white space only is refused by
    [createProfile] and by [renameProfile], whatever the PIN, the profile and
    the world: the call throws before anything is read or written. *)
Theorem blank_name_refused name pin pid env d :
  blank name ->
  run (createProfile name pin) env d = (Throw (Error "Profile name is required"), d) /\
  run (renameProfile pid name) env d = (Throw (Error "Profile name is required"), d).
Proof.
  intros H. unfold run, createProfile, renameProfile.
  rewrite (nameMissing_blank name H). split; reflexivity.
Qed.

Lemma blank_name_refused_witness :
  run (createProfile ("  " ++ String "009" "") (Some "1234")) sampleEnv sampleDb
  = (Throw (Error "Profile name is required"), sampleDb) /\
  run (renameProfile (uuid sampleEnv) ("  " ++ String "009" "")) sampleEnv sampleDb
  = (Throw (Error "Profile name is required"), sampleDb).
Proof.
  apply (blank_name_refused ("  " ++ String "009" "") (Some "1234") (uuid sampleEnv)
           sampleEnv sampleDb).
  repeat constructor.
Defined.

Lemma trimStart_not_blank s :
  ~ blank s -> exists c r, JsString.trimStart s = String c r /\ JsString.isWhiteSpace c = false.
Proof.
  unfold blank. induction s as [|a r IH]; intros H.
  - exfalso. apply H. constructor.
  - simpl. destruct (JsString.isWhiteSpace a) eqn:E.
    + apply IH. intros Hr. apply H. simpl. constructor; assumption.
    + eauto.
Qed.

Lemma trimEnd_keeps_first c r :
  JsString.isWhiteSpace c = false -> JsString.truthy (JsString.trimEnd (String c r)) = true.
Proof.
  intros Hc. simpl. destruct (JsString.trimEnd r); [rewrite Hc|]; reflexivity.
Qed.

Lemma nameMissing_not_blank s : ~ blank s -> nameMissing s = false.
Proof.
  intros H. destruct (trimStart_not_blank s H) as (c & r & E & Hc).
  unfold nameMissing, JsString.trim. rewrite E, trimEnd_keeps_first by exact Hc.
  destruct s; [exfalso; apply H; constructor|reflexivity].
Qed.

Lemma not_blank s :
  forallb JsString.isWhiteSpace (list_ascii_of_string s) = false -> ~ blank s.
Proof.
  intros H Hb. unfold blank in Hb. rewrite Forall_forall in Hb.
  rewrite (proj2 (forallb_forall _ _)) in H; [discriminate|].
  intros c Hc. apply Hb, list_elem_of_In, Hc.
Qed.

(** [createProfile] with a name that is not blank and no PIN ([null], absent
    or the empty string): the profile is stored under the new identifier with
    the name trimmed, equal creation and update times and no PIN fields,
    [getProfile] returns it, and nothing else in the database changes. *)
Theorem createProfile_getProfile rawName pin env d env' :
  ~ blank rawName -> JsString.truthy_opt pin = false ->
  fails env 0%nat = false -> fails env 1%nat = false -> fails env' 0%nat = false ->
  exists p d1,
    run (createProfile rawName pin) env d = (Ok p, d1) /\
    run (getProfile (profileId p)) env' d1 = (Ok (Some p), d1) /\
    profileId p = uuid env /\
    name p = JsString.trim rawName /\ trimmed (name p) /\
    JsString.truthy (name p) = true /\
    createdAt p = clock env 0 /\ updatedAt p = clock env 0 /\
    pinSalt p = None /\ pinHash p = None /\
    (forall q, q <> profileId p -> profiles d1 !! q = profiles d !! q) /\
    progress d1 = progress d /\ quizResults d1 = quizResults d.
Proof.
  intros Hn Hp H0 H1 H0'.
  pose proof (nameMissing_not_blank rawName Hn) as Hm.
  eexists _, _. split.
  { apply createProfile_run; [exact Hm | rewrite Hp; discriminate | exact H0 | exact H1]. }
  unfold createdProfile. rewrite Hp. cbn [profileId name createdAt updatedAt pinSalt pinHash].
  split.
  { rewrite getProfile_run by exact H0'. cbn [profiles withProfiles].
    now rewrite lookup_insert_eq. }
  split; [reflexivity|]. split; [reflexivity|]. split; [apply trim_trimmed|].
  split.
  { unfold nameMissing in Hm. apply orb_false_iff in Hm as [_ Hm].
    now apply negb_false_iff in Hm. }
  repeat (split; [reflexivity|]).
  split; [|split; reflexivity].
  intros q Hq. cbn [profiles withProfiles]. now apply lookup_insert_ne.
Qed.

Lemma createProfile_getProfile_witness :
  exists p d1,
    run (createProfile "  Ava " (Some "")) sampleEnv emptyDb = (Ok p, d1) /\
    run (getProfile (profileId p)) sampleEnv d1 = (Ok (Some p), d1) /\
    profileId p = uuid sampleEnv /\
    name p = JsString.trim "  Ava " /\ trimmed (name p) /\
    JsString.truthy (name p) = true /\
    createdAt p = clock sampleEnv 0 /\ updatedAt p = clock sampleEnv 0 /\
    pinSalt p = None /\ pinHash p = None /\
    (forall q, q <> profileId p -> profiles d1 !! q = profiles emptyDb !! q) /\
    progress d1 = progress emptyDb /\ quizResults d1 = quizResults emptyDb.
Proof.
  apply (createProfile_getProfile "  Ava " (Some "") sampleEnv emptyDb sampleEnv);
    try reflexivity.
  apply not_blank. reflexivity.
Defined.

Lemma get_found pid p env st :
  fails env (requests st) = false -> profiles (db st) !! pid = Some p ->
  Idb.get pid env st
  = (Ok (Some p), {| db := db st; requests := S (requests st); ticks := ticks st |}).
Proof. intros Hf Hp. rewrite get_run by exact Hf. now rewrite Hp. Qed.

Lemma renameProfile_run pid p rawName env d :
  profiles d !! pid = Some p -> nameMissing rawName = false -> noFail env ->
  run (renameProfile pid rawName) env d
  = (Ok (setName p (JsString.trim rawName) (clock env 0)),
     withProfiles d (<[profileId p := setName p (JsString.trim rawName) (clock env 0)]>
                       (profiles d))).
Proof.
  intros Hp Hn Hnf. unfold run, renameProfile. rewrite Hn.
  erewrite bind_run by (apply get_found; [apply Hnf | exact Hp]).
  cbv beta iota.
  erewrite (bind_run nowIso) by reflexivity.
  erewrite bind_run by (apply putProfile_run; apply Hnf).
  reflexivity.
Qed.

Lemma setProfilePin_run pid p pin env d :
  profiles d !! pid = Some p -> pinTooShort pin = false -> subtle env = true ->
  noFail env ->
  run (setProfilePin pid pin) env d
  = (Ok (setPin p (Some (toBase64 (saltOf env))) (Some (pinHashFor pin (saltOf env)))
           (clock env 0)),
     withProfiles d
       (<[profileId p := setPin p (Some (toBase64 (saltOf env)))
                           (Some (pinHashFor pin (saltOf env))) (clock env 0)]>
          (profiles d))).
Proof.
  intros Hp Hn Hs Hnf. unfold run, setProfilePin. rewrite Hn.
  erewrite bind_run by (apply get_found; [apply Hnf | exact Hp]).
  cbv beta iota.
  erewrite bind_run by apply generateSaltBase64_run.
  erewrite bind_run by (apply derivePinHashBase64_run; [exact Hs | apply saltOf_isByte]).
  erewrite (bind_run nowIso) by reflexivity.
  erewrite bind_run by (apply putProfile_run; apply Hnf).
  reflexivity.
Qed.


Lemma pinTooShort_length pin : (4 <= String.length pin)%nat -> pinTooShort pin = false.
Proof.
  intros H. unfold pinTooShort. destruct pin; [simpl in H; lia|].
  simpl JsString.truthy. cbn [negb orb]. apply Nat.ltb_ge. exact H.
Qed.

Lemma verifyProfilePin_same_profile pid attempt env d d1 :
  fails env 0%nat = false ->
  (pinSalt <$> profiles d1 !! pid) = (pinSalt <$> profiles d !! pid) ->
  (pinHash <$> profiles d1 !! pid) = (pinHash <$> profiles d !! pid) ->
  answer pid attempt env d1 = answer pid attempt env d.
Proof.
  intros Hf Hs Hh. unfold answer. rewrite !verifyProfilePin_run by exact Hf.
  destruct (profiles d1 !! pid) as [p1|], (profiles d !! pid) as [p|];
    try discriminate; [|reflexivity].
  injection Hs as Hs. injection Hh as Hh. rewrite Hs, Hh.
  destruct (pinHash p) as [h|]; [|reflexivity].
  destruct (pinSalt p) as [s|]; [|reflexivity].
  destruct (negb _ || negb _); [reflexivity|].
  unfold run, derivePinHashBase64, hasSubtle, fromBase64, bind, ret, throw.
  destruct (subtle env); cbn [negb]; [|reflexivity].
  destruct (Base64.atob s); reflexivity.
Qed.

(** [renameProfile] of a stored profile with a name that is not blank: the
    name becomes the trimmed name and [updatedAt] the time of the call; the
    identifier, [createdAt] and the PIN fields stay, so [verifyProfilePin]
    answers every attempt as before; no other profile and no row changes. *)
Theorem renameProfile_keeps_pin pid p rawName env d env' attempt :
  profiles d !! pid = Some p -> profileId p = pid -> ~ blank rawName ->
  noFail env -> fails env' 0%nat = false ->
  exists p' d1,
    run (renameProfile pid rawName) env d = (Ok p', d1) /\
    run (getProfile pid) env' d1 = (Ok (Some p'), d1) /\
    name p' = JsString.trim rawName /\ updatedAt p' = clock env 0 /\
    profileId p' = pid /\ createdAt p' = createdAt p /\
    pinSalt p' = pinSalt p /\ pinHash p' = pinHash p /\
    answer pid attempt env' d1 = answer pid attempt env' d /\
    (forall q, q <> pid -> profiles d1 !! q = profiles d !! q) /\
    progress d1 = progress d /\ quizResults d1 = quizResults d.
Proof.
  intros Hp Hid Hn Hnf Hf'.
  eexists _, _. split.
  { apply (renameProfile_run pid p); [exact Hp | apply nameMissing_not_blank, Hn | exact Hnf]. }
  rewrite Hid. cbn [profiles withProfiles].
  split; [rewrite getProfile_run by exact Hf'; cbn [profiles withProfiles];
          now rewrite lookup_insert_eq|].
  repeat (split; [first [reflexivity | exact Hid]|]).
  split.
  { apply verifyProfilePin_same_profile; [exact Hf'| |];
      cbn [profiles withProfiles]; now rewrite lookup_insert_eq, Hp. }
  split; [|split; reflexivity].
  intros q Hq. cbn [profiles withProfiles]. now apply lookup_insert_ne.
Qed.

Lemma renameProfile_keeps_pin_witness :
  exists p' d1,
    run (renameProfile (uuid sampleEnv) " Eve ") sampleEnv2 sampleDb = (Ok p', d1) /\
    run (getProfile (uuid sampleEnv)) sampleEnv d1 = (Ok (Some p'), d1) /\
    name p' = JsString.trim " Eve " /\ updatedAt p' = clock sampleEnv2 0 /\
    profileId p' = uuid sampleEnv /\
    createdAt p' = createdAt (createdProfile sampleEnv "Ava" None) /\
    pinSalt p' = pinSalt (createdProfile sampleEnv "Ava" None) /\
    pinHash p' = pinHash (createdProfile sampleEnv "Ava" None) /\
    answer (uuid sampleEnv) "0000" sampleEnv d1 = answer (uuid sampleEnv) "0000" sampleEnv sampleDb /\
    (forall q, q <> uuid sampleEnv -> profiles d1 !! q = profiles sampleDb !! q) /\
    progress d1 = progress sampleDb /\ quizResults d1 = quizResults sampleDb.
Proof.
  apply (renameProfile_keeps_pin (uuid sampleEnv) (createdProfile sampleEnv "Ava" None)
           " Eve " sampleEnv2 sampleDb sampleEnv "0000"); try reflexivity.
  - apply not_blank. reflexivity.
  - exact sampleEnv2_noFail.
Defined.

(** [setProfilePin] on a stored profile with a PIN of at least four
    characters, WebCrypto available: a fresh salt and the hash of the PIN are
    stored together, [verifyProfilePin] then accepts that PIN, every other
    attempt is accepted exactly when it derives the same hash, and the name,
    the creation time, the other profiles and all rows stay. *)
Theorem setProfilePin_then_verify pid p pin env d env' attempt :
  profiles d !! pid = Some p -> profileId p = pid ->
  (4 <= String.length pin)%nat -> subtle env = true -> noFail env ->
  subtle env' = true -> fails env' 0%nat = false ->
  exists p' d1,
    run (setProfilePin pid pin) env d = (Ok p', d1) /\
    run (getProfile pid) env' d1 = (Ok (Some p'), d1) /\
    pinSalt p' = Some (toBase64 (saltOf env)) /\
    pinHash p' = Some (pinHashFor pin (saltOf env)) /\
    run (verifyProfilePin pid pin) env' d1 = (Ok true, d1) /\
    run (verifyProfilePin pid attempt) env' d1
    = (Ok (bool_decide (pinHashFor attempt (saltOf env) = pinHashFor pin (saltOf env))), d1) /\
    name p' = name p /\ createdAt p' = createdAt p /\ updatedAt p' = clock env 0 /\
    (forall q, q <> pid -> profiles d1 !! q = profiles d !! q) /\
    progress d1 = progress d /\ quizResults d1 = quizResults d.
Proof.
  intros Hp Hid Hlen Hs Hnf Hs' Hf'.
  assert (Hv : forall a,
    run (verifyProfilePin pid a) env'
        (withProfiles d
           (<[pid := setPin p (Some (toBase64 (saltOf env)))
                       (Some (pinHashFor pin (saltOf env))) (clock env 0)]> (profiles d)))
    = (Ok (bool_decide (pinHashFor a (saltOf env) = pinHashFor pin (saltOf env))),
       withProfiles d
           (<[pid := setPin p (Some (toBase64 (saltOf env)))
                       (Some (pinHashFor pin (saltOf env))) (clock env 0)]> (profiles d)))).
  { intros a. rewrite verifyProfilePin_run by exact Hf'.
    cbn [profiles withProfiles]. rewrite lookup_insert_eq. cbn [pinHash pinSalt setPin].
    rewrite pinHashFor_truthy, saltOf_truthy. cbn [negb orb].
    unfold run.
    rewrite (bind_run _ _ _ _ _ _
               (derivePinHashBase64_run a _ env' _ Hs' (saltOf_isByte env))).
    reflexivity. }
  eexists _, _. split.
  { apply (setProfilePin_run pid p);
      [exact Hp | apply pinTooShort_length, Hlen | exact Hs | exact Hnf]. }
  rewrite Hid.
  split; [rewrite getProfile_run by exact Hf'; cbn [profiles withProfiles];
          now rewrite lookup_insert_eq|].
  split; [reflexivity|]. split; [reflexivity|].
  split; [rewrite Hv; now rewrite bool_decide_eq_true_2|].
  split; [apply Hv|].
  repeat (split; [reflexivity|]).
  split; [|split; reflexivity].
  intros q Hq. cbn [profiles withProfiles]. now apply lookup_insert_ne.
Qed.

Lemma setProfilePin_then_verify_witness :
  exists p' d1,
    run (setProfilePin (uuid sampleEnv) "2468") sampleEnv2 sampleDb = (Ok p', d1) /\
    run (getProfile (uuid sampleEnv)) sampleEnv d1 = (Ok (Some p'), d1) /\
    pinSalt p' = Some (toBase64 (saltOf sampleEnv2)) /\
    pinHash p' = Some (pinHashFor "2468" (saltOf sampleEnv2)) /\
    run (verifyProfilePin (uuid sampleEnv) "2468") sampleEnv d1 = (Ok true, d1) /\
    run (verifyProfilePin (uuid sampleEnv) "0000") sampleEnv d1
    = (Ok (bool_decide (pinHashFor "0000" (saltOf sampleEnv2)
                        = pinHashFor "2468" (saltOf sampleEnv2))), d1) /\
    name p' = name (createdProfile sampleEnv "Ava" None) /\
    createdAt p' = createdAt (createdProfile sampleEnv "Ava" None) /\
    updatedAt p' = clock sampleEnv2 0 /\
    (forall q, q <> uuid sampleEnv -> profiles d1 !! q = profiles sampleDb !! q) /\
    progress d1 = progress sampleDb /\ quizResults d1 = quizResults sampleDb.
Proof.
  apply (setProfilePin_then_verify (uuid sampleEnv) (createdProfile sampleEnv "Ava" None)
           "2468" sampleEnv2 sampleDb sampleEnv "0000"); try reflexivity.
  exact sampleEnv2_noFail.
Defined.



(** Without WebCrypto ([crypto.subtle] missing) nothing that needs a hash
    goes through: [createProfile] with a PIN and [setProfilePin] throw and
    store nothing, and [verifyProfilePin] on a profile that has a PIN throws
    instead of answering; a profile without a PIN is still created. *)
Theorem pin_needs_webcrypto pid p rawName pin attempt env d :
  subtle env = false -> noFail env -> ~ blank rawName -> (4 <= String.length pin)%nat ->
  profiles d !! pid = Some p ->
  run (createProfile rawName (Some pin)) env d
  = (Throw (Error "WebCrypto is not available in this browser"), d) /\
  run (setProfilePin pid pin) env d
  = (Throw (Error "WebCrypto is not available in this browser"), d) /\
  (JsString.truthy_opt (pinHash p) = true -> JsString.truthy_opt (pinSalt p) = true ->
   run (verifyProfilePin pid attempt) env d
   = (Throw (Error "WebCrypto is not available in this browser"), d)) /\
  fst (run (createProfile rawName None) env d) = Ok (createdProfile env rawName None).
Proof.
  intros Hs Hnf Hn Hlen Hp.
  pose proof (nameMissing_not_blank rawName Hn) as Hm.
  pose proof (pinTooShort_length pin Hlen) as Hshort.
  assert (Ht : JsString.truthy pin = true) by (destruct pin; [simpl in Hlen; lia|reflexivity]).
  split; [|split; [|split]].
  - unfold run, createProfile. rewrite Hm, Ht.
    erewrite (bind_run newId) by reflexivity.
    erewrite (bind_run nowIso) by reflexivity.
    unfold bind at 1. unfold generateSaltBase64, getRandomValues, bind at 1 2 3.
    cbn [ret]. unfold derivePinHashBase64, hasSubtle. unfold bind at 1. rewrite Hs.
    reflexivity.
  - unfold run, setProfilePin. rewrite Hshort.
    erewrite bind_run by (apply get_found; [apply Hnf | exact Hp]).
    cbv beta iota.
    erewrite bind_run by apply generateSaltBase64_run.
    unfold derivePinHashBase64, hasSubtle. unfold bind at 1 2. rewrite Hs. reflexivity.
  - intros Hh Hsalt. rewrite verifyProfilePin_run by apply Hnf. rewrite Hp.
    destruct (pinHash p) as [h|]; [|discriminate].
    destruct (pinSalt p) as [s|]; [|discriminate].
    simpl in Hh, Hsalt. rewrite Hh, Hsalt. cbn [negb orb].
    unfold run, derivePinHashBase64, hasSubtle. unfold bind at 1 2. rewrite Hs. reflexivity.
  - rewrite createProfile_run; [reflexivity | exact Hm | discriminate | apply Hnf | apply Hnf].
Qed.

Lemma sampleDbPin_profile :
  profiles sampleDbPin !! uuid sampleEnv = Some (createdProfile sampleEnv "Ava" (Some "1234")).
Proof.
  unfold sampleDbPin, replay. cbn [fold_left perform fst snd].
  rewrite createProfile_run by reflexivity.
  cbn [snd profiles withProfiles]. apply lookup_insert_eq.
Qed.

Lemma pin_needs_webcrypto_witness :
  run (createProfile "Eve" (Some "2468")) (withoutWebCrypto sampleEnv2) sampleDbPin
  = (Throw (Error "WebCrypto is not available in this browser"), sampleDbPin) /\
  run (setProfilePin (uuid sampleEnv) "2468") (withoutWebCrypto sampleEnv2) sampleDbPin
  = (Throw (Error "WebCrypto is not available in this browser"), sampleDbPin) /\
  (JsString.truthy_opt (pinHash (createdProfile sampleEnv "Ava" (Some "1234"))) = true ->
   JsString.truthy_opt (pinSalt (createdProfile sampleEnv "Ava" (Some "1234"))) = true ->
   run (verifyProfilePin (uuid sampleEnv) "1234") (withoutWebCrypto sampleEnv2) sampleDbPin
   = (Throw (Error "WebCrypto is not available in this browser"), sampleDbPin)) /\
  fst (run (createProfile "Eve" None) (withoutWebCrypto sampleEnv2) sampleDbPin)
  = Ok (createdProfile (withoutWebCrypto sampleEnv2) "Eve" None).
Proof.
  apply (pin_needs_webcrypto (uuid sampleEnv) (createdProfile sampleEnv "Ava" (Some "1234"))
           "Eve" "2468" "1234" (withoutWebCrypto sampleEnv2) sampleDbPin).
  - reflexivity.
  - intros k. reflexivity.
  - apply not_blank. reflexivity.
  - simpl. lia.
  - exact sampleDbPin_profile.
Defined.

(** The calls that need the profile to be there say so: for an identifier
    that is not in [profiles], [renameProfile], [setProfilePin],
    [clearProfilePin] and [exportProfileData] throw "Profile not found", and
    [importProfileData] told to overwrite it throws "Target profile not
    found"; all leave the database as it was. *)
Theorem profile_not_found pid rawName pin env d :
  profiles d !! pid = None -> fails env 0%nat = false ->
  ~ blank rawName -> (4 <= String.length pin)%nat ->
  run (renameProfile pid rawName) env d = (Throw (Error "Profile not found"), d) /\
  run (setProfilePin pid pin) env d = (Throw (Error "Profile not found"), d) /\
  run (clearProfilePin pid) env d = (Throw (Error "Profile not found"), d) /\
  run (exportProfileData pid) env d = (Throw (Error "Profile not found"), d) /\
  (forall data sp,
     version data = 1 -> sn_profile data = Some sp -> JsString.truthy (sp_name sp) = true ->
     JsString.truthy pid = true ->
     run (importProfileData data (Some pid)) env d
     = (Throw (Error "Target profile not found"), d)).
Proof.
  intros Hp Hf Hn Hlen.
  unfold run, renameProfile, setProfilePin, clearProfilePin, exportProfileData.
  rewrite (nameMissing_not_blank rawName Hn), (pinTooShort_length pin Hlen).
  repeat split; try ((erewrite bind_run by (apply get_run; exact Hf));
    cbn [db]; rewrite Hp; reflexivity).
  intros data sp Hv Hsp Hname Hpid. unfold importProfileData.
  rewrite Hv, Hsp. cbn [Z.eqb Pos.eqb negb]. rewrite Hname. cbn [negb].
  unfold importTarget. cbn [JsString.truthy_opt default from_option id]. rewrite Hpid.
  unfold getProfile.
  erewrite bind_throw.
  2:{ erewrite bind_run by (apply get_run; exact Hf). cbn [db]. rewrite Hp. reflexivity. }
  reflexivity.
Qed.

Lemma profile_not_found_witness :
  run (renameProfile "nobody" "Eve") sampleEnv sampleDb
  = (Throw (Error "Profile not found"), sampleDb) /\
  run (setProfilePin "nobody" "2468") sampleEnv sampleDb
  = (Throw (Error "Profile not found"), sampleDb) /\
  run (clearProfilePin "nobody") sampleEnv sampleDb
  = (Throw (Error "Profile not found"), sampleDb) /\
  run (exportProfileData "nobody") sampleEnv sampleDb
  = (Throw (Error "Profile not found"), sampleDb) /\
  (forall data sp,
     version data = 1 -> sn_profile data = Some sp -> JsString.truthy (sp_name sp) = true ->
     JsString.truthy "nobody" = true ->
     run (importProfileData data (Some "nobody")) sampleEnv sampleDb
     = (Throw (Error "Target profile not found"), sampleDb)).
Proof.
  apply (profile_not_found "nobody" "Eve" "2468" sampleEnv sampleDb).
  - reflexivity.
  - reflexivity.
  - apply not_blank. reflexivity.
  - simpl. lia.
Defined.

Section Writes.
Context (I : Db -> Prop).
Hypothesis I_profilesPut : forall d p,
  I d -> I (withProfiles d (<[profileId p := p]> (profiles d))).
Hypothesis I_profilesDelete : forall d k,
  I d -> I (withProfiles d (delete k (profiles d))).
Hypothesis I_progressPut : forall d r,
  I d -> I (withProgress d (<[Idb.progressKey r := r]> (progress d))).
Hypothesis I_progressDelete : forall d k,
  I d -> I (withProgress d (delete k (progress d))).
Hypothesis I_quizAdd : forall d r,
  I d -> computedRow r -> I (appendQuiz d r).
Hypothesis I_quizDelete : forall d k,
  I d -> I (withQuizResults d (List.filter (fun r => negb (bool_decide (qr_id r = k)))
                                           (quizResults d))).

Lemma writes_same {A} (a : A) : keeps I (Idb.request (fun d => (a, d))) (fun _ => True).
Proof. apply keeps_request. intros d HI. split; [exact HI|exact Logic.I]. Qed.

Lemma writes_lookup {A} (f : Db -> A) : keeps I (Idb.request (fun d => (f d, d))) (fun _ => True).
Proof. apply keeps_request. intros d HI. split; [exact HI|exact Logic.I]. Qed.

Lemma writes_pure {A} (m : M A) :
  (forall env st, db (snd (m env st)) = db st) -> keeps I m (fun _ => True).
Proof. intros H env st HI. rewrite H. auto. Qed.

Lemma writes_get pid : keeps I (Idb.get pid) (fun _ => True).
Proof.
  unfold Idb.get, Idb.profilesGet.
  eapply keeps_bind; [apply keeps_objectStore|]. intros _ _. apply writes_lookup.
Qed.

Lemma writes_profilesPut tx p : keeps I (Idb.profilesPut tx p) (fun _ => True).
Proof.
  unfold Idb.profilesPut.
  eapply keeps_bind; [apply keeps_objectStore|]. intros _ _.
  apply keeps_request. intros d HI. split; [|exact Logic.I]. apply (I_profilesPut d p HI).
Qed.

Lemma writes_progressPut tx r : keeps I (Idb.progressPut tx r) (fun _ => True).
Proof.
  unfold Idb.progressPut.
  eapply keeps_bind; [apply keeps_objectStore|]. intros _ _.
  apply keeps_request. intros d HI. split; [|exact Logic.I]. apply (I_progressPut d r HI).
Qed.

Lemma writes_quizAdd tx r : computedRow r -> keeps I (Idb.quizAdd tx r) (fun _ => True).
Proof.
  intros Hr. unfold Idb.quizAdd.
  eapply keeps_bind; [apply keeps_objectStore|]. intros _ _.
  apply keeps_request. intros d HI. split; [|exact Logic.I]. apply (I_quizAdd d r HI Hr).
Qed.

Lemma writes_nowIso : keeps I nowIso (fun _ => True).
Proof. apply writes_pure. reflexivity. Qed.

Lemma writes_derive pin salt iterations :
  keeps I (derivePinHashBase64 pin salt iterations) (fun _ => True).
Proof.
  apply writes_pure. intros env st.
  unfold derivePinHashBase64, hasSubtle, fromBase64, bind, ret, throw.
  destruct (subtle env); cbn [negb]; [|reflexivity].
  destruct (Base64.atob salt); reflexivity.
Qed.

Lemma writes_createProfile rawName pin : keeps I (createProfile rawName pin) (fun _ => True).
Proof.
  unfold createProfile. destruct (nameMissing rawName); [apply keeps_throw|].
  eapply keeps_bind; [apply (writes_pure newId); reflexivity|]. intros pid _.
  eapply keeps_bind; [apply writes_nowIso|]. intros now _.
  eapply keeps_bind with (P := fun _ => True).
  - destruct pin as [p|]; [destruct (JsString.truthy p)|]; try now apply keeps_ret.
    eapply keeps_bind; [apply (writes_pure (generateSaltBase64 _)); reflexivity|].
    intros salt _.
    eapply keeps_bind; [apply writes_derive|]. intros hash _. now apply keeps_ret.
  - intros pp _.
    eapply keeps_bind; [apply keeps_transaction, writes_profilesPut|].
    intros _ _. now apply keeps_ret.
Qed.

Lemma writes_importBatch data newName pid tx :
  keeps I (importBatch data newName pid tx) (fun _ => True).
Proof.
  unfold importBatch.
  eapply keeps_bind with (P := fun _ => True).
  { unfold Idb.profilesGet.
    eapply keeps_bind; [apply keeps_objectStore|]. intros _ _. apply writes_lookup. }
  intros found _.
  eapply keeps_bind with (P := fun _ => True).
  { destruct found as [p|]; [|now apply keeps_ret].
    eapply keeps_bind; [apply writes_nowIso|]. intros now _. apply writes_profilesPut. }
  intros _ _.
  eapply keeps_bind; [|intros _ _]; apply keeps_forEach.
  - intros p. unfold importProgressRow.
    destruct (negb (JsString.truthy (sg_lessonId p))); [now apply keeps_ret|].
    apply writes_progressPut.
  - intros q. unfold importQuizRow.
    destruct (negb (JsString.truthy (sq_quizId q))); [now apply keeps_ret|].
    eapply keeps_bind with (P := fun _ => True).
    { destruct (JsString.truthy_opt (sq_completedAt q));
        [now apply keeps_ret|apply writes_nowIso]. }
    intros completedAt _.
    eapply keeps_bind with (P := fun _ => True); [|intros; now apply keeps_ret].
    apply writes_quizAdd. unfold computedRow. cbn [qr_percentage qr_score qr_totalQuestions].
    destruct (sq_totalQuestions q =? 0) eqn:E; [right|left; reflexivity].
    split; [reflexivity|now apply Z.eqb_eq].
Qed.

Lemma writes_deleteProfile pid : keeps I (deleteProfile pid) (fun _ => True).
Proof.
  unfold deleteProfile. apply keeps_transaction.
  eapply keeps_bind with (P := fun _ => True).
  { unfold Idb.profilesDelete.
    eapply keeps_bind; [apply keeps_objectStore|]. intros _ _.
    apply keeps_request. intros d HI. split; [|exact Logic.I].
    apply (I_profilesDelete d pid HI). }
  intros _ _.
  eapply keeps_bind with (P := fun _ => True).
  { unfold Idb.progressOpenCursor.
    eapply keeps_bind; [apply keeps_objectStore|]. intros _ _. apply writes_lookup. }
  intros c1 _.
  eapply keeps_bind with (P := fun _ => True).
  { induction c1 as [|k rest IH]; simpl; [now apply keeps_ret|].
    eapply keeps_bind with (P := fun _ => True).
    { apply keeps_request. intros d HI. split; [|exact Logic.I].
      apply (I_progressDelete d k HI). }
    intros _ _.
    eapply keeps_bind; [apply writes_same|]. intros _ _. exact IH. }
  intros _ _.
  eapply keeps_bind with (P := fun _ => True).
  { unfold Idb.quizOpenCursor.
    eapply keeps_bind; [apply keeps_objectStore|]. intros _ _. apply writes_lookup. }
  intros c2 _.
  induction c2 as [|k rest IH]; simpl; [now apply keeps_ret|].
  eapply keeps_bind with (P := fun _ => True).
  { apply keeps_request. intros d HI. split; [|exact Logic.I].
    apply (I_quizDelete d k HI). }
  intros _ _.
  eapply keeps_bind; [apply writes_same|]. intros _ _. exact IH.
Qed.

(** Every call keeps an invariant that the six writes of the engine keep. *)
Lemma writes_perform c env d : I d -> I (perform c env d).
Proof.
  intros HI.
  destruct c as [rawName pin|pid rawName|pid pin|pid|pid|data target|pid lid|pid lid
                |pid qid score total answers];
    simpl; eapply (keeps_run I _ (fun _ => True)); try exact HI.
  - apply writes_createProfile.
  - unfold renameProfile. destruct (nameMissing rawName); [apply keeps_throw|].
    eapply keeps_bind; [apply writes_get|]. intros [p|] _; [|apply keeps_throw].
    eapply keeps_bind; [apply writes_nowIso|]. intros now _.
    eapply keeps_bind; [apply keeps_transaction, writes_profilesPut|].
    intros _ _. now apply keeps_ret.
  - unfold setProfilePin. destruct (pinTooShort pin); [apply keeps_throw|].
    eapply keeps_bind; [apply writes_get|]. intros [p|] _; [|apply keeps_throw].
    eapply keeps_bind; [apply (writes_pure (generateSaltBase64 _)); reflexivity|].
    intros salt _.
    eapply keeps_bind; [apply writes_derive|]. intros hash _.
    eapply keeps_bind; [apply writes_nowIso|]. intros now _.
    eapply keeps_bind; [apply keeps_transaction, writes_profilesPut|].
    intros _ _. now apply keeps_ret.
  - unfold clearProfilePin.
    eapply keeps_bind; [apply writes_get|]. intros [p|] _; [|apply keeps_throw].
    eapply keeps_bind; [apply writes_nowIso|]. intros now _.
    eapply keeps_bind; [apply keeps_transaction, writes_profilesPut|].
    intros _ _. now apply keeps_ret.
  - apply writes_deleteProfile.
  - unfold importProfileData.
    destruct (negb (version data =? 1)); [apply keeps_throw|].
    destruct (negb (JsString.truthy _)); [apply keeps_throw|].
    eapply keeps_bind with (P := fun _ => True).
    { unfold importTarget. destruct (JsString.truthy_opt target).
      - eapply keeps_bind; [apply writes_get|].
        intros [p|] _; [now apply keeps_ret|apply keeps_throw].
      - eapply keeps_bind; [apply writes_createProfile|].
        intros created _. now apply keeps_ret. }
    intros newId _.
    eapply keeps_bind; [apply keeps_transaction, writes_importBatch|].
    intros _ _. now apply keeps_ret.
  - unfold markLessonComplete.
    eapply keeps_bind; [apply writes_nowIso|]. intros now _.
    apply keeps_transaction, writes_progressPut.
  - apply keeps_transaction, writes_progressPut.
  - unfold submitQuizResult.
    eapply keeps_bind; [apply writes_nowIso|]. intros now _.
    eapply keeps_bind with (P := fun _ => True); [|intros; now apply keeps_ret].
    apply keeps_transaction, writes_quizAdd. left. reflexivity.
Qed.

Lemma writes_replay history : forall d, I d -> I (replay history d).
Proof.
  induction history as [|[c env] h IH]; intros d HI; simpl; [exact HI|].
  apply IH, writes_perform, HI.
Qed.

End Writes.

Lemma StronglySorted_map_filter {A} (R : Z -> Z -> Prop) (f : A -> Z) (p : A -> bool) l :
  StronglySorted R (map f l) -> StronglySorted R (map f (List.filter p l)).
Proof.
  induction l as [|a l IH]; simpl; intros H; [constructor|].
  apply StronglySorted_inv in H as [Hs Hall].
  destruct (p a); simpl; [|auto].
  constructor; [auto|].
  rewrite Forall_forall in Hall |- *. intros x Hx. apply Hall.
  apply list_elem_of_In, in_map_iff in Hx as (y & <- & Hy).
  apply filter_In in Hy as [Hy _]. apply list_elem_of_In, in_map, Hy.
Qed.

Lemma StronglySorted_snoc l x :
  StronglySorted Z.lt l -> Forall (fun y => y < x) l -> StronglySorted Z.lt (l ++ [x]).
Proof.
  induction l as [|a l IH]; simpl; intros Hs Hall.
  - constructor; constructor.
  - apply StronglySorted_inv in Hs as [Hs Ha]. apply Forall_cons in Hall as [Hax Hall].
    constructor; [auto|]. apply Forall_app. split; [exact Ha|]. constructor; [exact Hax|constructor].
Qed.

Lemma wellFormed_empty : wellFormed emptyDb.
Proof.
  split; [exact emptyDb_keyed|]. split; [|split].
  - intros k p H. cbn in H. rewrite lookup_empty in H. discriminate.
  - split; constructor.
  - constructor.
Qed.

Lemma wellFormed_profilesPut d p :
  wellFormed d -> wellFormed (withProfiles d (<[profileId p := p]> (profiles d))).
Proof.
  intros (Hk & Hp & Hi & Hc). split; [exact Hk|]. split; [|split; assumption].
  intros k q. cbn [profiles withProfiles]. rewrite lookup_insert.
  destruct (decide (profileId p = k)); [now intros [= <-]|apply Hp].
Qed.

Lemma wellFormed_profilesDelete d k :
  wellFormed d -> wellFormed (withProfiles d (delete k (profiles d))).
Proof.
  intros (Hk & Hp & Hi & Hc). split; [exact Hk|]. split; [|split; assumption].
  intros k' q. cbn [profiles withProfiles]. rewrite lookup_delete.
  destruct (decide (k = k')); [discriminate|apply Hp].
Qed.

Lemma wellFormed_progressPut d r :
  wellFormed d -> wellFormed (withProgress d (<[Idb.progressKey r := r]> (progress d))).
Proof.
  intros (Hk & Hp & Hi & Hc). split; [now apply keyed_insert|]. split; [|split]; assumption.
Qed.

Lemma wellFormed_progressDelete d k :
  wellFormed d -> wellFormed (withProgress d (delete k (progress d))).
Proof.
  intros (Hk & Hp & Hi & Hc). split; [|split; [|split]; assumption].
  intros k' r. cbn [progress withProgress]. rewrite lookup_delete.
  destruct (decide (k = k')); [discriminate|apply Hk].
Qed.

Lemma wellFormed_quizAdd d r :
  wellFormed d -> computedRow r -> wellFormed (appendQuiz d r).
Proof.
  intros (Hk & Hp & [Hs Hb] & Hc) Hr. split; [exact Hk|]. split; [exact Hp|]. split; [split|].
  - cbn [quizResults appendQuiz]. rewrite map_app. cbn [map qr_id Idb.withId].
    apply StronglySorted_snoc; [exact Hs|].
    rewrite Forall_map. eapply Forall_impl; [exact Hb|]. simpl. intros; lia.
  - cbn [quizResults quizKeyGen appendQuiz]. apply Forall_app. split.
    + eapply Forall_impl; [exact Hb|]. simpl. intros; lia.
    + constructor; [simpl; lia|constructor].
  - unfold percentagesComputed. cbn [quizResults appendQuiz]. apply Forall_app.
    split; [exact Hc|]. constructor; [exact Hr|constructor].
Qed.

Lemma Forall_filter_list {A} (P : A -> Prop) (f : A -> bool) l :
  Forall P l -> Forall P (List.filter f l).
Proof.
  rewrite !Forall_forall. intros H x Hx. apply H.
  apply list_elem_of_In, filter_In in Hx as [Hx _]. now apply list_elem_of_In.
Qed.

Lemma wellFormed_quizDelete d k :
  wellFormed d ->
  wellFormed (withQuizResults d (List.filter (fun r => negb (bool_decide (qr_id r = k)))
                                             (quizResults d))).
Proof.
  intros (Hk & Hp & [Hs Hb] & Hc). split; [exact Hk|]. split; [exact Hp|]. split; [split|].
  - cbn [quizResults withQuizResults]. now apply StronglySorted_map_filter.
  - cbn [quizResults quizKeyGen withQuizResults]. now apply Forall_filter_list.
  - unfold percentagesComputed. cbn [quizResults withQuizResults]. now apply Forall_filter_list.
Qed.

Lemma wellFormed_perform c env d : wellFormed d -> wellFormed (perform c env d).
Proof.
  apply writes_perform.
  - apply wellFormed_profilesPut.
  - apply wellFormed_profilesDelete.
  - apply wellFormed_progressPut.
  - apply wellFormed_progressDelete.
  - apply wellFormed_quizAdd.
  - apply wellFormed_quizDelete.
Qed.

Lemma wellFormed_replay history d : wellFormed d -> wellFormed (replay history d).
Proof.
  revert d. induction history as [|[c env] h IH]; intros d HI; simpl; [exact HI|].
  apply IH, wellFormed_perform, HI.
Qed.

Lemma keyGen_perform c env d : quizKeyGen d <= quizKeyGen (perform c env d).
Proof.
  apply (writes_perform (fun d' => quizKeyGen d <= quizKeyGen d')); try (intros; assumption).
  - intros d' r H _. cbn [quizKeyGen appendQuiz]. lia.
  - lia.
Qed.

Lemma StronglySorted_lt_NoDup l : StronglySorted Z.lt l -> NoDup l.
Proof.
  induction l as [|a l IH]; intros H; [constructor|].
  apply StronglySorted_inv in H as [Hs Ha]. constructor; [|auto].
  intros Hin. rewrite Forall_forall in Ha. specialize (Ha a Hin). lia.
Qed.

(** The invariants of the store. After any calls from the empty database, in
    any worlds, every progress row and every profile sits under the key its
    key path gives, the keys of the quiz rows increase along the store, are
    pairwise different and never exceed the key generator, and every quiz
    row carries the percentage computed from its own score and total. Every
    single call keeps all this, and never moves the key generator back, so a
    key of a deleted row is not handed out again. *)
Theorem store_wellFormed (history : list (call * Env)) :
  wellFormed (replay history emptyDb) /\
  NoDup (map qr_id (quizResults (replay history emptyDb))) /\
  (forall c env d, wellFormed d ->
     wellFormed (perform c env d) /\ quizKeyGen d <= quizKeyGen (perform c env d)).
Proof.
  pose proof (wellFormed_replay history emptyDb wellFormed_empty) as H.
  split; [exact H|]. split.
  - apply StronglySorted_lt_NoDup. apply H.
  - intros c env d Hd. split; [now apply wellFormed_perform|apply keyGen_perform].
Qed.

Lemma deleteProfile_cascade pid env d :
  noFail env -> run (deleteProfile pid) env d = (Ok tt, cascade pid d).
Proof.
  intros Hnf. unfold run.
  destruct (deleteProfile_run env pid {| db := d; requests := 0; ticks := 0 |} Hnf)
    as [st' H]. rewrite H. f_equal.
  unfold deleteProfile in H. apply transaction_ok in H as (st1 & Hb & ->).
  now apply deleteBody_ok in Hb.
Qed.







Lemma deleteKeys_nil_eq (m : gmap (string * string) ProgressRow) : deleteKeys [] m = m.
Proof. reflexivity. Qed.

Lemma cascade_idem pid d : cascade pid (cascade pid d) = cascade pid d.
Proof.
  unfold cascade at 1.
  rewrite cascade_progress, cascade_quizResults. simpl map.
  unfold deleteKeys, deleteIds. cbn [fold_left].
  cbn [profiles cascade]. rewrite delete_delete_eq. reflexivity.
Qed.

(** Deleting a profile that is not there is not an error: [deleteProfile]
    run again on the database it left completes and changes nothing. *)
Theorem deleteProfile_idempotent pid env1 env2 d :
  noFail env1 -> noFail env2 ->
  exists d1,
    run (deleteProfile pid) env1 d = (Ok tt, d1) /\
    run (deleteProfile pid) env2 d1 = (Ok tt, d1).
Proof.
  intros H1 H2. exists (cascade pid d).
  split; [apply deleteProfile_cascade, H1|].
  rewrite deleteProfile_cascade by exact H2. now rewrite cascade_idem.
Qed.




Lemma deleteProfile_idempotent_witness :
  exists d1,
    run (deleteProfile (uuid sampleEnv)) sampleEnv sampleDb = (Ok tt, d1) /\
    run (deleteProfile (uuid sampleEnv)) sampleEnv2 d1 = (Ok tt, d1).
Proof.
  apply (deleteProfile_idempotent (uuid sampleEnv) sampleEnv sampleEnv2 sampleDb).
  - exact sampleEnv_noFail.
  - exact sampleEnv2_noFail.
Defined.


Lemma quizByProfileId_append pid d r :
  Idb.quizByProfileId pid (appendQuiz d r)
  = (Idb.quizByProfileId pid d
     ++ if bool_decide (qr_profileId r = pid) then [Idb.withId (quizKeyGen d + 1) r] else [])%list.
Proof.
  unfold Idb.quizByProfileId. cbn [quizResults appendQuiz].
  rewrite List.filter_app. simpl. now destruct (bool_decide _).
Qed.

Lemma getBestQuizScores_run pid env d :
  fails env 0%nat = false ->
  run (getBestQuizScores pid) env d = (Ok (bestScoresOf pid d), d).
Proof. intros Hf. unfold getBestQuizScores. now apply getAllQuizFromIndex_run. Qed.

Lemma submitQuiz_bestScoresOf p qid score total answers env d :
  exists d1,
    run (submitQuiz (Some p) (bestScoresOf (profileId p) d) qid score total answers) env d
    = (Ok (bestScoresOf (profileId p) d1), d1).
Proof.
  unfold run, submitQuiz.
  destruct (submitQuizResult (profileId p) qid score total answers env _)
    as [[s|e] st'] eqn:E.
  - unfold submitQuizResult in E.
    rewrite (bind_run nowIso _ _ _ (clock env 0) {| db := d; requests := 0; ticks := 1 |})
      in E by reflexivity.
    apply bind_ok in E as (i & st1 & Hadd & Hret). injection Hret as <- <-.
    unfold Idb.addQuiz in Hadd. apply transaction_ok in Hadd as (st2 & Hb & ->).
    unfold Idb.quizAdd in Hb.
    erewrite bind_run in Hb by (apply objectStore_all; set_solver).
    apply request_ok in Hb as (_ & -> & ->).
    cbn [db snd fst sub_percentage sub_completedAt].
    eexists. f_equal. f_equal.
    change (bestScoresOf (profileId p) _) with
      (bestScoresOf (profileId p)
         (appendQuiz d (submittedRow (profileId p) qid score total answers (clock env 0)
                          (percentageOf score total)))) at 2.
    unfold bestScoresOf at 2. rewrite quizByProfileId_append.
    cbn [qr_profileId submittedRow]. rewrite bool_decide_eq_true_2 by reflexivity.
    rewrite fold_left_app. reflexivity.
  - unfold submitQuizResult in E.
    rewrite (bind_run nowIso _ _ _ (clock env 0) {| db := d; requests := 0; ticks := 1 |})
      in E by reflexivity.
    unfold bind in E.
    destruct (Idb.addQuiz _ env _) as [[i|e'] st1] eqn:Hadd; [discriminate|].
    injection E as _ <-. apply transaction_throw in Hadd. rewrite Hadd. eexists. reflexivity.
Qed.

(** The App's table of best scores stays the one the store gives. If
    [quizResults] is what [getBestQuizScores] returned for the profile, then
    [submitQuiz] does not throw, and whether the submission was stored or
    failed, the next [quizResults] is what [getBestQuizScores] returns on the
    database left behind. *)
Theorem submitQuiz_in_step p prev qid score total answers env0 env env' d :
  run (getBestQuizScores (profileId p)) env0 d = (Ok prev, d) ->
  fails env' 0%nat = false ->
  exists next d1,
    run (submitQuiz (Some p) prev qid score total answers) env d = (Ok next, d1) /\
    run (getBestQuizScores (profileId p)) env' d1 = (Ok next, d1).
Proof.
  intros Hprev Hf'.
  assert (prev = bestScoresOf (profileId p) d) as ->.
  { unfold run, getBestQuizScores, Idb.getAllQuizFromIndex in Hprev.
    destruct (bind _ _ env0 _) as [r st] eqn:E. injection Hprev as -> _.
    apply bind_ok in E as (rows & st1 & Hreq & Hret).
    apply request_ok in Hreq as (_ & -> & _). now injection Hret as <- _. }
  destruct (submitQuiz_bestScoresOf p qid score total answers env d) as [d1 H].
  exists (bestScoresOf (profileId p) d1), d1. split; [exact H|].
  now apply getBestQuizScores_run.
Qed.

Lemma submitQuiz_in_step_witness :
  exists next d1,
    run (submitQuiz (Some (createdProfile sampleEnv "Ava" None))
           (bestScoresOf (uuid sampleEnv) sampleDb) "q1" 10 10 ∅) sampleEnv2 sampleDb
    = (Ok next, d1) /\
    run (getBestQuizScores (profileId (createdProfile sampleEnv "Ava" None))) sampleEnv d1
    = (Ok next, d1).
Proof.
  apply (submitQuiz_in_step (createdProfile sampleEnv "Ava" None)
           (bestScoresOf (uuid sampleEnv) sampleDb) "q1" 10 10 ∅
           sampleEnv sampleEnv2 sampleEnv sampleDb).
  - apply getBestQuizScores_run. reflexivity.
  - reflexivity.
Defined.

Lemma percentageOf_zero_total score :
  percentageOf score 0 = if score =? 0 then NaN else Infinity (score <? 0).
Proof.
  unfold percentageOf, JsNumber.divInt. simpl (0 =? 0).  cbv iota.
  destruct (score =? 0); [reflexivity|]. simpl. now rewrite xorb_false_r.
Qed.

(** A quiz without questions is not refused. [submitQuizResult] with
    [totalQuestions = 0] divides by zero: the row is stored, and returned,
    with the percentage [NaN] for a score of 0 and an infinity, of the sign
    of the score, for any other score. *)
Theorem submitQuizResult_no_questions pid qid score answers env d :
  noFail env ->
  run (submitQuizResult pid qid score 0 answers) env d
  = (Ok {| sub_id := quizKeyGen d + 1; sub_completedAt := clock env 0;
           sub_percentage := if score =? 0 then NaN else Infinity (score <? 0) |},
     appendQuiz d (submittedRow pid qid score 0 answers (clock env 0)
                     (if score =? 0 then NaN else Infinity (score <? 0)))).
Proof.
  intros Hnf. rewrite submitQuizResult_run by exact Hnf.
  now rewrite percentageOf_zero_total.
Qed.

Lemma submitQuizResult_no_questions_witness :
  run (submitQuizResult "ava" "q1" 0 0 ∅) sampleEnv emptyDb
  = (Ok {| sub_id := quizKeyGen emptyDb + 1; sub_completedAt := clock sampleEnv 0;
           sub_percentage := if 0 =? 0 then NaN else Infinity (0 <? 0) |},
     appendQuiz emptyDb (submittedRow "ava" "q1" 0 0 ∅ (clock sampleEnv 0)
                           (if 0 =? 0 then NaN else Infinity (0 <? 0)))).
Proof.
  apply (submitQuizResult_no_questions "ava" "q1" 0 ∅ sampleEnv emptyDb).
  exact sampleEnv_noFail.
Defined.

Lemma gt_unbeatable p q : unbeatable q -> JsNumber.gt p q = false.
Proof. intros [->| ->]; destruct p as [z|[]|]; reflexivity. Qed.

Lemma scan_unbeatable rest : forall r0,
  unbeatable (rowPercentage r0) -> fold_left scanStep rest (Some r0) = Some r0.
Proof.
  induction rest as [|x rest IH]; intros r0 H; [reflexivity|].
  simpl. rewrite gt_unbeatable by exact H. now apply IH.
Qed.

(** A first attempt whose percentage is [NaN] or [+Infinity] stays the best
    score for good: [percentage > prev.percentage] is false for every later
    attempt, so [getBestQuizScores] reports the first attempt whatever the
    later ones scored. *)
Theorem getBestQuizScores_first_unbeatable pid qid r0 rest env d :
  qid ∉ JsObject.inheritedNames ->
  attempts pid qid d = r0 :: rest ->
  unbeatable (rowPercentage r0) ->
  fails env 0%nat = false ->
  exists best,
    run (getBestQuizScores pid) env d = (Ok best, d) /\
    best !! qid = Some (bestOf r0).
Proof.
  intros Hq Hat Hun Hf. eexists. split; [apply getAllQuizFromIndex_run, Hf|].
  rewrite (fold_bestStep qid _ ∅ None Hq) by apply lookup_empty.
  fold (attempts pid qid d). rewrite Hat. simpl.
  now rewrite scan_unbeatable.
Qed.

Lemma getBestQuizScores_first_unbeatable_witness :
  exists best,
    run (getBestQuizScores "ava") sampleEnv (replay emptyQuizFirst emptyDb)
    = (Ok best, replay emptyQuizFirst emptyDb) /\
    best !! "q1"
    = Some (bestOf {| qr_id := 1; qr_profileId := "ava"; qr_quizId := "q1";
                      qr_score := 0; qr_totalQuestions := 0; qr_answers := ∅;
                      qr_completedAt := clock sampleEnv 0;
                      qr_percentage := Some NaN |}).
Proof.
  apply (getBestQuizScores_first_unbeatable "ava" "q1" _
           [{| qr_id := 2; qr_profileId := "ava"; qr_quizId := "q1";
               qr_score := 9; qr_totalQuestions := 10; qr_answers := ∅;
               qr_completedAt := clock sampleEnv2 0;
               qr_percentage := Some (Int 90) |}] sampleEnv (replay emptyQuizFirst emptyDb)).
  - vm_compute. intros H. repeat (inversion H as [|? ? ? H']; clear H; rename H' into H).
  - vm_compute. reflexivity.
  - left. reflexivity.
  - reflexivity.
Defined.


Lemma fold_assign_own k rows : forall init,
  k <> "__proto__" ->
  pm_own (fold_left (fun map r => assign map (pr_lessonId r)
                                    (pr_completed r, JsString.or_null (pr_completedAt r)))
                    rows init) !! k
  = match List.find (fun r => bool_decide (pr_lessonId r = k)) (rev rows) with
    | Some r => Some (recordOf r)
    | None => pm_own init !! k
    end.
Proof.
  induction rows as [|r rows IH]; intros init Hk; [reflexivity|].
  cbn [fold_left]. rewrite IH by exact Hk. simpl rev. rewrite find_app_first.
  destruct (List.find _ (rev rows)); [reflexivity|]. simpl List.find.
  unfold assign. destruct (bool_decide (pr_lessonId r = "__proto__")) eqn:Ep.
  - apply bool_decide_eq_true in Ep. cbn [pm_own].
    rewrite bool_decide_eq_false_2 by congruence. reflexivity.
  - cbn [pm_own]. destruct (bool_decide (pr_lessonId r = k)) eqn:E.
    + apply bool_decide_eq_true in E. subst k. now rewrite lookup_insert_eq.
    + apply bool_decide_eq_false in E. now rewrite lookup_insert_ne.
Qed.

Lemma fold_assign_own_proto rows : forall init,
  pm_own (fold_left (fun map r => assign map (pr_lessonId r)
                                    (pr_completed r, JsString.or_null (pr_completedAt r)))
                    rows init) !! "__proto__"
  = pm_own init !! "__proto__".
Proof.
  induction rows as [|r rows IH]; intros init; [reflexivity|].
  cbn [fold_left]. rewrite IH. unfold assign.
  destruct (bool_decide (pr_lessonId r = "__proto__")) eqn:Ep; [reflexivity|].
  apply bool_decide_eq_false in Ep. cbn [pm_own]. now rewrite lookup_insert_ne.
Qed.

Lemma fold_assign_proto rows : forall init,
  pm_proto (fold_left (fun map r => assign map (pr_lessonId r)
                                      (pr_completed r, JsString.or_null (pr_completedAt r)))
                      rows init)
  = match List.find (fun r => bool_decide (pr_lessonId r = "__proto__")) (rev rows) with
    | Some r => Some (recordOf r)
    | None => pm_proto init
    end.
Proof.
  induction rows as [|r rows IH]; intros init; [reflexivity|].
  cbn [fold_left]. rewrite IH. simpl rev. rewrite find_app_first.
  destruct (List.find _ (rev rows)); [reflexivity|]. simpl List.find.
  unfold assign. destruct (bool_decide (pr_lessonId r = "__proto__")); reflexivity.
Qed.

(** The row of a profile for a lesson, found by scanning its rows. *)
Lemma find_row pid lid d :
  keyed d ->
  List.find (fun r => bool_decide (pr_lessonId r = lid))
            (rev (map snd (Idb.progressByProfileId pid d)))
  = progress d !! (pid, lid).
Proof.
  intros Hk.
  destruct (List.find _ _) as [r|] eqn:E.
  - apply find_some in E as [Hin Hl]. apply bool_decide_eq_true in Hl.
    apply in_rev, in_map_iff in Hin as ([k r'] & Hr & Hin). simpl in Hr. subst r'.
    apply in_progressByProfileId in Hin as [Hm Hp].
    pose proof (Hk k r Hm) as Hkey. unfold Idb.progressKey in Hkey.
    rewrite Hp, Hl in Hkey. subst k. now rewrite Hm.
  - destruct (progress d !! (pid, lid)) as [r|] eqn:Hm; [|reflexivity].
    exfalso. pose proof (Hk _ r Hm) as Hkey. unfold Idb.progressKey in Hkey.
    injection Hkey as Hp Hl.
    assert (Hin : In r (rev (map snd (Idb.progressByProfileId pid d)))).
    { apply in_rev. rewrite rev_involutive. apply in_map_iff. exists ((pid, lid), r).
      split; [reflexivity|]. now apply in_progressByProfileId. }
    pose proof (find_none _ _ E r Hin) as Hfalse. cbv beta in Hfalse.
    rewrite bool_decide_eq_true_2 in Hfalse by exact Hl. discriminate.
Qed.

Lemma progressMapOf_own pid lid d :
  keyed d -> lid <> "__proto__" ->
  pm_own (progressMapOf pid d) !! lid = recordOf <$> progress d !! (pid, lid).
Proof.
  intros Hk Hl. unfold progressMapOf. rewrite fold_assign_own by exact Hl.
  rewrite find_row by exact Hk. now destruct (progress d !! (pid, lid)).
Qed.

Lemma progressMapOf_own_proto pid d : pm_own (progressMapOf pid d) !! "__proto__" = None.
Proof. unfold progressMapOf. now rewrite fold_assign_own_proto. Qed.

Lemma progressMapOf_proto pid d :
  keyed d -> pm_proto (progressMapOf pid d) = recordOf <$> progress d !! (pid, "__proto__").
Proof.
  intros Hk. unfold progressMapOf. rewrite fold_assign_proto.
  rewrite find_row by exact Hk. now destruct (progress d !! (pid, "__proto__")).
Qed.

Lemma getProgressMap_run pid env d :
  fails env 0%nat = false ->
  run (getProgressMap pid) env d = (Ok (progressMapOf pid d), d).
Proof.
  intros Hf. unfold run, getProgressMap, Idb.getAllProgressFromIndex.
  erewrite bind_run by (apply request_run; exact Hf). reflexivity.
Qed.

(** [getProgressMap] returns the rows of the profile and nothing else: under
    every lesson identifier but "__proto__", the own property of the table is
    the [completed] and [completedAt] of the stored row, and there is none
    where no row is stored. A row stored under "__proto__" adds no property:
    its entry replaces the prototype of the table. The database is not
    changed. *)
Theorem getProgressMap_entries pid env d :
  keyed d -> fails env 0%nat = false ->
  exists table,
    run (getProgressMap pid) env d = (Ok table, d) /\
    (forall lid, lid <> "__proto__" ->
       pm_own table !! lid = recordOf <$> progress d !! (pid, lid)) /\
    pm_own table !! "__proto__" = None /\
    pm_proto table = recordOf <$> progress d !! (pid, "__proto__").
Proof.
  intros Hk Hf. exists (progressMapOf pid d).
  split; [now apply getProgressMap_run|].
  split; [intros lid Hl; now apply progressMapOf_own|].
  split; [apply progressMapOf_own_proto|now apply progressMapOf_proto].
Qed.

Lemma progressMap_eq (a b : ProgressMap) :
  (forall k, pm_own a !! k = pm_own b !! k) -> pm_proto a = pm_proto b -> a = b.
Proof.
  destruct a as [oa pa], b as [ob pb]. simpl. intros Ho ->. f_equal. now apply map_eq.
Qed.

Lemma progressMapOf_other pid pid' lid r d :
  keyed d -> pid' <> pid -> Idb.progressKey r = (pid, lid) ->
  progressMapOf pid' (withProgress d (<[(pid, lid) := r]> (progress d)))
  = progressMapOf pid' d.
Proof.
  intros Hk Hne Hr.
  assert (Hk1 : keyed (withProgress d (<[(pid, lid) := r]> (progress d)))).
  { rewrite <- Hr. now apply keyed_insert. }
  apply progressMap_eq.
  - intros k. destruct (decide (k = "__proto__")) as [->|Hp].
    + now rewrite !progressMapOf_own_proto.
    + rewrite !progressMapOf_own by assumption.
      cbn [progress withProgress]. rewrite lookup_insert_ne by congruence. reflexivity.
  - rewrite !progressMapOf_proto by assumption.
    cbn [progress withProgress]. rewrite lookup_insert_ne by congruence. reflexivity.
Qed.

(** A lesson marked is a lesson reported. After [markLessonComplete] or
    [markLessonIncomplete] for a lesson other than "__proto__", the table
    [getProgressMap] returns for the profile has under that lesson the entry
    just written; its other entries are the ones it had, and the table of
    every other profile is the one it was. *)
Theorem getProgressMap_after_mark b pid lid env d env' :
  keyed d -> lid <> "__proto__" -> noFail env -> fails env' 0%nat = false ->
  exists d1 before after,
    run (mark b pid lid) env d = (Ok tt, d1) /\
    run (getProgressMap pid) env' d = (Ok before, d) /\
    run (getProgressMap pid) env' d1 = (Ok after, d1) /\
    pm_own after !! lid = Some (recordOf (markedRow b env pid lid)) /\
    completedIn after lid = b /\
    (forall lid', lid' <> lid -> pm_own after !! lid' = pm_own before !! lid') /\
    pm_proto after = pm_proto before /\
    (forall pid', pid' <> pid ->
       fst (run (getProgressMap pid') env' d1) = fst (run (getProgressMap pid') env' d)).
Proof.
  intros Hk Hl Hnf Hf'.
  set (d1 := withProgress d (<[(pid, lid) := markedRow b env pid lid]> (progress d))).
  assert (Hk1 : keyed d1).
  { change (pid, lid) with (Idb.progressKey (markedRow b env pid lid)) in d1.
    now apply keyed_insert. }
  assert (Hown : pm_own (progressMapOf pid d1) !! lid = Some (recordOf (markedRow b env pid lid))).
  { rewrite progressMapOf_own by assumption. unfold d1. cbn [progress withProgress].
    now rewrite lookup_insert_eq. }
  exists d1, (progressMapOf pid d), (progressMapOf pid d1).
  split; [now apply mark_run|].
  split; [now apply getProgressMap_run|]. split; [now apply getProgressMap_run|].
  split; [exact Hown|]. split; [unfold completedIn; now rewrite Hown|].
  split; [|split].
  - intros lid' Hne. destruct (decide (lid' = "__proto__")) as [->|Hp].
    + now rewrite !progressMapOf_own_proto.
    + rewrite !progressMapOf_own by assumption. unfold d1. cbn [progress withProgress].
      rewrite lookup_insert_ne by congruence. reflexivity.
  - rewrite !progressMapOf_proto by assumption. unfold d1. cbn [progress withProgress].
    rewrite lookup_insert_ne by congruence. reflexivity.
  - intros pid' Hne. rewrite !getProgressMap_run by exact Hf'. cbn [fst]. f_equal.
    now apply progressMapOf_other.
Qed.

Lemma getProgressMap_after_mark_witness :
  exists d1 before after,
    run (mark true "ava" "phase1-dsa-hash-maps") sampleEnv emptyDb = (Ok tt, d1) /\
    run (getProgressMap "ava") sampleEnv emptyDb = (Ok before, emptyDb) /\
    run (getProgressMap "ava") sampleEnv d1 = (Ok after, d1) /\
    pm_own after !! "phase1-dsa-hash-maps"
    = Some (recordOf (markedRow true sampleEnv "ava" "phase1-dsa-hash-maps")) /\
    completedIn after "phase1-dsa-hash-maps" = true /\
    (forall lid', lid' <> "phase1-dsa-hash-maps" ->
       pm_own after !! lid' = pm_own before !! lid') /\
    pm_proto after = pm_proto before /\
    (forall pid', pid' <> "ava" ->
       fst (run (getProgressMap pid') sampleEnv d1)
       = fst (run (getProgressMap pid') sampleEnv emptyDb)).
Proof.
  apply (getProgressMap_after_mark true "ava" "phase1-dsa-hash-maps" sampleEnv emptyDb sampleEnv).
  - exact emptyDb_keyed.
  - discriminate.
  - exact sampleEnv_noFail.
  - reflexivity.
Defined.

(** Under a key other than "__proto__" only an own property counts. *)
Lemma completedIn_own progress id :
  id <> "__proto__" ->
  completedIn progress id
  = match pm_own progress !! id with Some entry => fst entry | None => false end.
Proof.
  intros Hp. unfold completedIn. destruct (pm_own progress !! id); [reflexivity|].
  now rewrite bool_decide_eq_false_2 by exact Hp.
Qed.

Lemma markLessonComplete_any pid lid env d :
  run (markLessonComplete pid lid) env d
  = (Ok tt, withProgress d (<[(pid, lid) := markedRow true env pid lid]> (progress d)))
  \/ exists e, run (markLessonComplete pid lid) env d = (Throw e, d).
Proof.
  unfold run, markLessonComplete.
  rewrite (bind_run nowIso _ _ _ (clock env 0) {| db := d; requests := 0; ticks := 1 |})
    by reflexivity.
  destruct (Idb.putProgress _ env _) as [[[]|e] st1] eqn:E.
  - left. unfold Idb.putProgress in E. apply transaction_ok in E as (st2 & Hb & ->).
    unfold Idb.progressPut in Hb.
    erewrite bind_run in Hb by (apply objectStore_all; set_solver).
    apply request_ok in Hb as (_ & _ & ->). reflexivity.
  - right. exists e. apply transaction_throw in E. now rewrite E.
Qed.

(** The App's table of progress stays in step with the store. If, under
    every key but "__proto__", its [completed] flags are those of the table
    [getProgressMap] returned, then after [markComplete] of a lesson other
    than "__proto__", which never throws, they are those of the table
    [getProgressMap] returns on the database left behind, whether the row
    was stored or the write failed. (Under "__proto__" the two can differ:
    the spread of [markComplete] does not copy a prototype.) *)
Theorem markComplete_in_step p prev before lid env0 env env' d :
  keyed d -> lid <> "__proto__" ->
  run (getProgressMap (profileId p)) env0 d = (Ok before, d) ->
  (forall id, id <> "__proto__" -> completedIn prev id = completedIn before id) ->
  fails env' 0%nat = false ->
  exists next d1 after,
    run (markComplete (Some p) prev lid) env d = (Ok next, d1) /\
    run (getProgressMap (profileId p)) env' d1 = (Ok after, d1) /\
    forall id, id <> "__proto__" -> completedIn next id = completedIn after id.
Proof.
  intros Hk Hl Hbefore Hsame Hf'.
  assert (before = progressMapOf (profileId p) d) as ->.
  { unfold run, getProgressMap, Idb.getAllProgressFromIndex in Hbefore.
    destruct (bind _ _ env0 _) as [r st] eqn:E. injection Hbefore as -> _.
    apply bind_ok in E as (rows & st1 & Hreq & Hret).
    apply request_ok in Hreq as (_ & -> & _). now injection Hret as <- _. }
  destruct (markLessonComplete_any (profileId p) lid env d) as [H|[e H]];
    unfold run in H |- *; unfold markComplete;
    destruct (markLessonComplete (profileId p) lid env _) as [r st1];
    injection H as -> Hdb.
  - eexists _, _, _. split; [reflexivity|]. cbn [db].
    rewrite Hdb.
    split; [apply getProgressMap_run, Hf'|].
    set (d1 := withProgress d _).
    assert (Hk1 : keyed d1).
    { unfold d1. change (profileId p, lid)
        with (Idb.progressKey (markedRow true env (profileId p) lid)).
      now apply keyed_insert. }
    intros id Hp. destruct (decide (id = lid)) as [->|Hne].
    + unfold completedIn. cbn [pm_own].
      rewrite lookup_insert_eq, progressMapOf_own by assumption.
      unfold d1. cbn [progress withProgress]. now rewrite lookup_insert_eq.
    + transitivity (completedIn prev id).
      { rewrite !completedIn_own by exact Hp. cbn [pm_own].
        now rewrite lookup_insert_ne by congruence. }
      rewrite Hsame by exact Hp. rewrite !completedIn_own by exact Hp.
      rewrite !progressMapOf_own by assumption. unfold d1. cbn [progress withProgress].
      rewrite lookup_insert_ne by congruence. reflexivity.
  - eexists _, _, _. split; [reflexivity|]. rewrite Hdb.
    split; [apply getProgressMap_run, Hf'|]. exact Hsame.
Qed.

Lemma markComplete_in_step_witness :
  exists next d1 after,
    run (markComplete (Some (createdProfile sampleEnv "Ava" None))
           (progressMapOf (uuid sampleEnv) sampleDb) "phase1-dsa-hash-maps") sampleEnv2 sampleDb
    = (Ok next, d1) /\
    run (getProgressMap (profileId (createdProfile sampleEnv "Ava" None))) sampleEnv d1
    = (Ok after, d1) /\
    forall id, id <> "__proto__" -> completedIn next id = completedIn after id.
Proof.
  apply (markComplete_in_step (createdProfile sampleEnv "Ava" None)
           (progressMapOf (uuid sampleEnv) sampleDb) (progressMapOf (uuid sampleEnv) sampleDb)
           "phase1-dsa-hash-maps" sampleEnv sampleEnv2 sampleEnv sampleDb).
  - apply wellFormed_replay, wellFormed_empty.
  - discriminate.
  - apply getProgressMap_run. reflexivity.
  - reflexivity.
  - reflexivity.
Defined.

Lemma getProgressMap_entries_witness :
  exists table,
    run (getProgressMap (uuid sampleEnv)) sampleEnv2 sampleDb = (Ok table, sampleDb) /\
    (forall lid, lid <> "__proto__" ->
       pm_own table !! lid = recordOf <$> progress sampleDb !! (uuid sampleEnv, lid)) /\
    pm_own table !! "__proto__" = None /\
    pm_proto table = recordOf <$> progress sampleDb !! (uuid sampleEnv, "__proto__").
Proof.
  apply (getProgressMap_entries (uuid sampleEnv) sampleEnv2 sampleDb).
  - apply wellFormed_replay, wellFormed_empty.
  - reflexivity.
Defined.

Section Sorting.
Context {A : Type} (compare : A -> A -> Z).

Lemma insertSorted_Permutation x l : insertSorted compare x l ≡ₚ x :: l.
Proof.
  induction l as [|y l IH]; simpl; [reflexivity|].
  destruct (0 <? compare x y); [|reflexivity].
  rewrite IH. apply Permutation_swap.
Qed.

Lemma sortBy_Permutation l : sortBy compare l ≡ₚ l.
Proof.
  induction l as [|x l IH]; simpl; [reflexivity|].
  rewrite insertSorted_Permutation. now rewrite IH.
Qed.

Hypothesis compare_sym : forall a b, Z.sgn (compare b a) = - Z.sgn (compare a b).
Hypothesis compare_trans : forall a b c,
  compare a b <= 0 -> compare b c <= 0 -> compare a c <= 0.

Lemma insertSorted_sorted x l :
  StronglySorted (fun a b => compare a b <= 0) l ->
  StronglySorted (fun a b => compare a b <= 0) (insertSorted compare x l).
Proof.
  induction l as [|y l IH]; simpl; intros Hs; [repeat constructor|].
  apply StronglySorted_inv in Hs as [Hs Hy].
  destruct (0 <? compare x y) eqn:E.
  - apply Z.ltb_lt in E. constructor; [auto|].
    rewrite insertSorted_Permutation. constructor; [|exact Hy].
    pose proof (compare_sym x y) as Hsym. lia.
  - apply Z.ltb_ge in E. constructor; [constructor; assumption|].
    constructor; [exact E|].
    eapply Forall_impl; [exact Hy|]. simpl. intros z Hz. now apply (compare_trans x y z).
Qed.

Lemma sortBy_sorted l : StronglySorted (fun a b => compare a b <= 0) (sortBy compare l).
Proof.
  induction l as [|x l IH]; simpl; [constructor|]. now apply insertSorted_sorted.
Qed.

End Sorting.

Lemma consistent_on {A} (key : A -> string) localeCompare :
  consistent localeCompare ->
  (forall a b : A, Z.sgn (localeCompare (key a) (key b))
                   = - Z.sgn (localeCompare (key b) (key a))) /\
  (forall a b c : A, localeCompare (key b) (key a) <= 0 ->
                     localeCompare (key c) (key b) <= 0 ->
                     localeCompare (key c) (key a) <= 0).
Proof.
  intros [Hsym Htrans]. split.
  - intros a b. apply Hsym.
  - intros a b c Hab Hbc. now apply (Htrans _ (key b)).
Qed.




Lemma filter_both pid qid (l : list QuizRow) :
  List.filter (fun r => bool_decide (qr_profileId r = pid /\ qr_quizId r = qid)) l
  = List.filter (fun r => bool_decide (qr_quizId r = qid))
                (List.filter (fun r => bool_decide (qr_profileId r = pid)) l).
Proof.
  induction l as [|r l IH]; [reflexivity|]. simpl.
  destruct (bool_decide (qr_profileId r = pid)) eqn:Ep; simpl.
  - apply bool_decide_eq_true in Ep.
    destruct (bool_decide (qr_quizId r = qid)) eqn:Eq'.
    + apply bool_decide_eq_true in Eq'. rewrite bool_decide_eq_true_2 by auto. now rewrite IH.
    + apply bool_decide_eq_false in Eq'. rewrite bool_decide_eq_false_2 by tauto. exact IH.
  - apply bool_decide_eq_false in Ep. rewrite bool_decide_eq_false_2 by tauto. exact IH.
Qed.

(** The two listings of quiz results. [getAllQuizResults] returns the rows
    of the profile, and [getQuizResultsByQuizId] its attempts at one quiz,
    each row once, newest first: no row is older, by [completedAt] in the
    collation of [localeCompare], than one that comes after it. Neither
    changes the database. *)
Theorem quiz_listings_newest_first localeCompare pid qid env d :
  consistent localeCompare -> fails env 0%nat = false ->
  exists every these,
    run (getAllQuizResults localeCompare pid) env d = (Ok every, d) /\
    run (getQuizResultsByQuizId localeCompare pid qid) env d = (Ok these, d) /\
    every ≡ₚ Idb.quizByProfileId pid d /\
    these ≡ₚ attempts pid qid d /\
    StronglySorted (fun a b => notOlder localeCompare (qr_completedAt a) (qr_completedAt b))
                   every /\
    StronglySorted (fun a b => notOlder localeCompare (qr_completedAt a) (qr_completedAt b))
                   these.
Proof.
  intros Hc Hf. eexists _, _. split.
  { unfold run, getAllQuizResults, Idb.getAllQuizFromIndex.
    erewrite bind_run by (apply request_run; exact Hf). reflexivity. }
  split.
  { unfold run, getQuizResultsByQuizId, getAllQuizFromProfileQuizIndex.
    erewrite bind_run by (apply request_run; exact Hf). reflexivity. }
  cbn [fst].
  destruct (consistent_on qr_completedAt localeCompare Hc) as [Hsym Htrans].
  split; [apply sortBy_Permutation|].
  split; [rewrite sortBy_Permutation, filter_both; reflexivity|].
  split; apply (sortBy_sorted (fun a b => localeCompare (qr_completedAt b) (qr_completedAt a)));
    first [intros a b; apply Hsym | intros a b c; apply Htrans].
Qed.

Lemma compareKeys_le a b : compareKeys a b <= 0 <-> String.compare a b <> Gt.
Proof. unfold compareKeys. destruct (String.compare a b); split; intros; try lia; congruence. Qed.

Lemma compare_Lt_trans a b c :
  String.compare a b = Lt -> String.compare b c = Lt -> String.compare a c = Lt.
Proof.
  intros H1 H2.
  pose proof (OrdersEx.String_as_OT.lt_strorder) as [_ Ht].
  exact (Ht a b c H1 H2).
Qed.

Lemma compareKeys_consistent : consistent compareKeys.
Proof.
  split.
  - intros a b. unfold compareKeys. rewrite (String.compare_antisym a b).
    destruct (String.compare b a); reflexivity.
  - intros a b c. rewrite !compareKeys_le. intros Hab Hbc Hac.
    destruct (String.compare a b) eqn:E1; [|clear Hab|congruence].
    + apply String.compare_eq_iff in E1. subst b. congruence.
    + destruct (String.compare b c) eqn:E2; [| |congruence].
      * apply String.compare_eq_iff in E2. subst c. congruence.
      * rewrite (compare_Lt_trans a b c E1 E2) in Hac. discriminate.
Qed.


Lemma quiz_listings_newest_first_witness :
  exists every these,
    run (getAllQuizResults compareKeys "ava") sampleEnv (replay (threeAttempts "q1") emptyDb)
    = (Ok every, replay (threeAttempts "q1") emptyDb) /\
    run (getQuizResultsByQuizId compareKeys "ava" "q1") sampleEnv
        (replay (threeAttempts "q1") emptyDb)
    = (Ok these, replay (threeAttempts "q1") emptyDb) /\
    every ≡ₚ Idb.quizByProfileId "ava" (replay (threeAttempts "q1") emptyDb) /\
    these ≡ₚ attempts "ava" "q1" (replay (threeAttempts "q1") emptyDb) /\
    StronglySorted (fun a b => notOlder compareKeys (qr_completedAt a) (qr_completedAt b))
                   every /\
    StronglySorted (fun a b => notOlder compareKeys (qr_completedAt a) (qr_completedAt b))
                   these.
Proof.
  apply (quiz_listings_newest_first compareKeys "ava" "q1" sampleEnv
           (replay (threeAttempts "q1") emptyDb)).
  - exact compareKeys_consistent.
  - reflexivity.
Defined.

Lemma forEach_importQuiz_rows env pid qs : noFail env -> forall st,
  exists st' added,
    forEach qs (importQuizRow allStores pid) env st = (Ok tt, st') /\
    profiles (db st') = profiles (db st) /\
    progress (db st') = progress (db st) /\
    quizResults (db st') = (quizResults (db st) ++ added)%list /\
    Forall2 (addedFor pid) (List.filter (fun q => JsString.truthy (sq_quizId q)) qs) added.
Proof.
  intros Hnf. induction qs as [|q qs IH]; intros st.
  - exists st, []. simpl. rewrite app_nil_r.
    repeat (split; [reflexivity|]). constructor.
  - simpl forEach. unfold importQuizRow at 1. simpl List.filter.
    destruct (JsString.truthy (sq_quizId q)); cbn [negb].
    + assert (exists now st1,
                (if JsString.truthy_opt (sq_completedAt q)
                 then ret (default "" (sq_completedAt q)) else nowIso) env st = (Ok now, st1)
                /\ db st1 = db st
                /\ now = (if JsString.truthy_opt (sq_completedAt q)
                          then default "" (sq_completedAt q) else clock env (ticks st)))
        as (now & st1 & Hnow & Hdb1 & Hn).
      { destruct (JsString.truthy_opt (sq_completedAt q)); eexists _, _;
          (split; [reflexivity|split; reflexivity]). }
      erewrite bind_run.
      2:{ erewrite bind_run by exact Hnow.
          erewrite bind_run by (apply quizAdd_run; apply Hnf). reflexivity. }
      match goal with |- context [forEach qs _ env ?s] =>
        destruct (IH s) as (st' & added & Hrun & Hp & Hg & Hq & Hall) end.
      cbn [db appendQuiz profiles progress quizResults] in Hp, Hg, Hq.
      eexists st', (_ :: added). split; [exact Hrun|].
      rewrite Hdb1 in Hp, Hg, Hq.
      split; [exact Hp|]. split; [exact Hg|]. split.
      * rewrite Hq, <- app_assoc. reflexivity.
      * constructor; [|exact Hall].
        exists (clock env (ticks st)), (quizKeyGen (db st) + 1).
        unfold importedQuiz. rewrite Hn. reflexivity.
    + erewrite bind_run by reflexivity. apply IH.
Qed.

(** The batch of an import on a target that is stored. *)
Lemma importBatch_run data newName t p env st :
  noFail env -> profiles (db st) !! t = Some p ->
  exists st' added,
    importBatch data newName t allStores env st = (Ok tt, st') /\
    profiles (db st')
    = <[profileId p := setName p newName (clock env (ticks st))]> (profiles (db st)) /\
    progress (db st')
    = fold_left (putImported t) (default [] (sn_progress data)) (progress (db st)) /\
    quizResults (db st') = (quizResults (db st) ++ added)%list /\
    Forall2 (addedFor t) (keptQuizzes data) added.
Proof.
  intros Hnf Hp.
  set (renamed := setName p newName (clock env (ticks st))).
  set (d1 := withProfiles (db st) (<[profileId p := renamed]> (profiles (db st)))).
  destruct (forEach_importProgress env t (default [] (sn_progress data)) Hnf
              {| db := d1; requests := S (S (requests st)); ticks := S (ticks st) |})
    as (st3 & Hrun3 & Hdb3 & Ht3).
  destruct (forEach_importQuiz_rows env t (default [] (sn_quizResults data)) Hnf st3)
    as (st4 & added & Hrun4 & Hp4 & Hg4 & Hq4 & Hall).
  exists st4, added. split.
  { unfold importBatch, Idb.profilesGet, Idb.profilesPut.
    erewrite bind_run.
    2:{ erewrite bind_run by (apply objectStore_all, allStores_all).
        apply request_run, Hnf. }
    cbn [fst snd]. rewrite Hp.
    erewrite bind_run.
    2:{ erewrite (bind_run nowIso) by reflexivity.
        erewrite bind_run by (apply objectStore_all, allStores_all).
        apply request_run, Hnf. }
    erewrite bind_run by exact Hrun3. exact Hrun4. }
  rewrite Hp4, Hg4, Hq4, Hdb3. cbn [profiles progress quizResults withProgress d1 withProfiles].
  repeat split; assumption || reflexivity.
Qed.

Lemma importProfileData_overwrite_run data sp t p env d :
  version data = 1 -> sn_profile data = Some sp -> JsString.truthy (sp_name sp) = true ->
  JsString.truthy t = true -> profiles d !! t = Some p -> noFail env ->
  exists d2 added,
    run (importProfileData data (Some t)) env d = (Ok t, d2) /\
    profiles d2 = <[profileId p := setName p (sp_name sp) (clock env 0)]> (profiles d) /\
    progress d2 = fold_left (putImported t) (default [] (sn_progress data)) (progress d) /\
    quizResults d2 = (quizResults d ++ added)%list /\
    Forall2 (addedFor t) (keptQuizzes data) added.
Proof.
  intros Hv Hsp Hn Ht Hp Hnf. unfold run, importProfileData.
  rewrite Hv, Hsp. cbn [Z.eqb Pos.eqb negb]. rewrite Hn. cbn [negb].
  unfold importTarget. cbn [JsString.truthy_opt default from_option id]. rewrite Ht.
  erewrite bind_run.
  2:{ unfold getProfile. erewrite bind_run by (apply get_found; [apply Hnf|exact Hp]).
      reflexivity. }
  destruct (importBatch_run data (sp_name sp) t p env
              {| db := d; requests := 1; ticks := 0 |} Hnf Hp)
    as (st' & added & Hb & Hpr & Hg & Hq & Hall).
  erewrite bind_run by (apply transaction_run; [exact Hb|apply Hnf]).
  exists (db st'), added. split; [reflexivity|]. cbn [db ticks] in *. auto.
Qed.

Lemma fold_putImported_other pid q lid ps : forall m,
  q <> pid -> fold_left (putImported pid) ps m !! (q, lid) = m !! (q, lid).
Proof.
  induction ps as [|p ps IH]; intros m Hq; [reflexivity|].
  cbn [fold_left]. rewrite IH by exact Hq. unfold putImported.
  destruct (JsString.truthy (sg_lessonId p)); [|reflexivity].
  apply lookup_insert_ne. congruence.
Qed.

Lemma find_kept lid ps :
  List.find (fun p => bool_decide (sg_lessonId p = lid) && JsString.truthy (sg_lessonId p)) ps
  = List.find (fun p => bool_decide (sg_lessonId p = lid))
              (List.filter (fun p => JsString.truthy (sg_lessonId p)) ps).
Proof.
  induction ps as [|p ps IH]; [reflexivity|]. simpl.
  destruct (JsString.truthy (sg_lessonId p)); simpl.
  - rewrite andb_true_r. destruct (bool_decide _); [reflexivity|exact IH].
  - rewrite andb_false_r. exact IH.
Qed.

Lemma filter_rev {A} (f : A -> bool) (l : list A) :
  List.filter f (rev l) = rev (List.filter f l).
Proof.
  induction l as [|a l IH]; [reflexivity|]. simpl.
  rewrite List.filter_app, IH. simpl. destruct (f a); [reflexivity|now rewrite app_nil_r].
Qed.

Lemma lookup_imported data t lid m :
  fold_left (putImported t) (default [] (sn_progress data)) m !! (t, lid)
  = match lastEntry data lid with
    | Some e => Some (importedProgress t e)
    | None => m !! (t, lid)
    end.
Proof.
  rewrite lookup_fold_putImported, find_kept, filter_rev. reflexivity.
Qed.

(** Importing over a stored profile merges. When no request fails the call
    returns the target; the profile takes the name of the snapshot as it is
    written there and a new [updatedAt], and keeps its [createdAt] and its
    PIN, so [verifyProfilePin] answers as before; a lesson takes the last
    entry the snapshot has for it, and a lesson the snapshot does not mention
    keeps its row; the quiz entries are added after the rows already stored,
    one row each, never replacing one; entries without [lessonId] or [quizId]
    are skipped; other profiles and their rows are not touched. *)
Theorem importProfileData_merges data sp t p env d env' attempt :
  version data = 1 -> sn_profile data = Some sp -> JsString.truthy (sp_name sp) = true ->
  JsString.truthy t = true -> profiles d !! t = Some p -> profileId p = t ->
  noFail env -> fails env' 0%nat = false ->
  exists d2 added,
    run (importProfileData data (Some t)) env d = (Ok t, d2) /\
    profiles d2 !! t = Some (setName p (sp_name sp) (clock env 0)) /\
    answer t attempt env' d2 = answer t attempt env' d /\
    (forall q, q <> t -> profiles d2 !! q = profiles d !! q) /\
    (forall lid, progress d2 !! (t, lid)
                 = match lastEntry data lid with
                   | Some e => Some (importedProgress t e)
                   | None => progress d !! (t, lid)
                   end) /\
    (forall q lid, q <> t -> progress d2 !! (q, lid) = progress d !! (q, lid)) /\
    quizResults d2 = (quizResults d ++ added)%list /\
    Forall2 (addedFor t) (keptQuizzes data) added.
Proof.
  intros Hv Hsp Hn Ht Hp Hid Hnf Hf'.
  destruct (importProfileData_overwrite_run data sp t p env d Hv Hsp Hn Ht Hp Hnf)
    as (d2 & added & Hrun & Hpr & Hg & Hq & Hall).
  exists d2, added. split; [exact Hrun|].
  rewrite Hid in Hpr.
  split; [rewrite Hpr; apply lookup_insert_eq|].
  split.
  { apply verifyProfilePin_same_profile; [exact Hf'| |];
      rewrite Hpr, lookup_insert_eq, Hp; reflexivity. }
  split; [intros q Hq'; rewrite Hpr; now apply lookup_insert_ne|].
  split; [intros lid; rewrite Hg; apply lookup_imported|].
  split; [intros q lid Hq'; rewrite Hg; now apply fold_putImported_other|].
  split; [exact Hq|exact Hall].
Qed.

Lemma quizByProfileId_added t added (l : list SnapshotQuiz) :
  Forall2 (addedFor t) l added ->
  List.filter (fun r => bool_decide (qr_profileId r = t)) added = added /\
  length added = length l.
Proof.
  intros H. split.
  - apply filter_all. induction H as [|q r l added (now & i & ->) H IH]; constructor.
    + now apply bool_decide_eq_true.
    + exact IH.
  - symmetry. eapply Forall2_length, H.
Qed.

(** Importing the same snapshot again over the same profile: the progress
    rows are the ones the first import left, and the quiz entries are added
    a second time. *)
Theorem importProfileData_again data sp t p env1 env2 d :
  version data = 1 -> sn_profile data = Some sp -> JsString.truthy (sp_name sp) = true ->
  JsString.truthy t = true -> profiles d !! t = Some p -> profileId p = t ->
  noFail env1 -> noFail env2 ->
  exists d1 d2,
    run (importProfileData data (Some t)) env1 d = (Ok t, d1) /\
    run (importProfileData data (Some t)) env2 d1 = (Ok t, d2) /\
    progress d2 = progress d1 /\
    length (Idb.quizByProfileId t d1)
    = (length (Idb.quizByProfileId t d) + length (keptQuizzes data))%nat /\
    length (Idb.quizByProfileId t d2)
    = (length (Idb.quizByProfileId t d) + 2 * length (keptQuizzes data))%nat.
Proof.
  intros Hv Hsp Hn Ht Hp Hid Hnf1 Hnf2.
  destruct (importProfileData_overwrite_run data sp t p env1 d Hv Hsp Hn Ht Hp Hnf1)
    as (d1 & added1 & Hrun1 & Hpr1 & Hg1 & Hq1 & Hall1).
  assert (Hp1 : profiles d1 !! t = Some (setName p (sp_name sp) (clock env1 0))).
  { rewrite Hpr1, Hid. apply lookup_insert_eq. }
  destruct (importProfileData_overwrite_run data sp t _ env2 d1 Hv Hsp Hn Ht Hp1 Hnf2)
    as (d2 & added2 & Hrun2 & Hpr2 & Hg2 & Hq2 & Hall2).
  exists d1, d2. split; [exact Hrun1|]. split; [exact Hrun2|].
  destruct (quizByProfileId_added t _ _ Hall1) as [Hf1 Hl1].
  destruct (quizByProfileId_added t _ _ Hall2) as [Hf2 Hl2].
  split; [|split].
  - apply map_eq. intros [q lid]. rewrite Hg2.
    destruct (decide (q = t)) as [->|Hne].
    + rewrite lookup_imported. rewrite Hg1, lookup_imported.
      now destruct (lastEntry data lid).
    + now apply fold_putImported_other.
  - unfold Idb.quizByProfileId. rewrite Hq1, List.filter_app, length_app, Hf1, Hl1. reflexivity.
  - unfold Idb.quizByProfileId. rewrite Hq2, Hq1, !List.filter_app, !length_app, Hf1, Hf2, Hl1, Hl2.
    lia.
Qed.

Lemma importProfileData_new_rows data sp env d :
  version data = 1 -> sn_profile data = Some sp -> nameMissing (sp_name sp) = false ->
  noFail env ->
  exists d2 added,
    run (importProfileData data None) env d = (Ok (uuid env), d2) /\
    profiles d2 !! uuid env
    = Some (setName (createdProfile env (sp_name sp) None) (sp_name sp) (clock env 1)) /\
    quizResults d2 = (quizResults d ++ added)%list /\
    Forall2 (addedFor (uuid env)) (keptQuizzes data) added.
Proof.
  intros Hv Hsp Hn Hnf. unfold run, importProfileData.
  rewrite Hv, Hsp. cbn [Z.eqb Pos.eqb negb]. rewrite (nameMissing_truthy _ Hn). cbn [negb].
  unfold importTarget. cbn [JsString.truthy_opt].
  erewrite bind_run.
  2:{ erewrite bind_run by (apply createProfile_noPin_run; [exact Hn|apply Hnf|apply Hnf]).
      reflexivity. }
  cbn [profileId createdProfile].
  set (created := createdProfile env (sp_name sp) None).
  set (d1 := withProfiles d (<[uuid env := created]> (profiles d))).
  destruct (importBatch_run data (sp_name sp) (uuid env) created env
              {| db := d1; requests := 2; ticks := 1 |} Hnf)
    as (st' & added & Hb & Hpr & Hg & Hq & Hall).
  { cbn [db d1 profiles withProfiles]. apply lookup_insert_eq. }
  erewrite bind_run by (apply transaction_run; [exact Hb|apply Hnf]).
  exists (db st'), added. split; [reflexivity|]. cbn [db ticks] in *.
  split; [rewrite Hpr; apply lookup_insert_eq|]. split; [exact Hq|exact Hall].
Qed.

(** The PIN does not travel. A profile exported and imported as a new
    profile has neither salt nor hash, whatever PIN the exported profile
    has: [verifyProfilePin] accepts every attempt on it. *)
Theorem import_drops_pin pid p env1 env2 env' attempt d :
  profiles d !! pid = Some p -> nameMissing (name p) = false ->
  noFail env1 -> noFail env2 -> fails env' 0%nat = false ->
  exists snap d2 q,
    run (exportProfileData pid) env1 d = (Ok snap, d) /\
    run (importProfileData snap None) env2 d = (Ok (uuid env2), d2) /\
    profiles d2 !! uuid env2 = Some q /\
    name q = name p /\ pinSalt q = None /\ pinHash q = None /\
    run (verifyProfilePin (uuid env2) attempt) env' d2 = (Ok true, d2).
Proof.
  intros Hp Hn Hnf1 Hnf2 Hf'.
  destruct (importProfileData_new_rows (snapshotOf env1 p pid d) (exportProfile p) env2 d)
    as (d2 & added & Hrun & Hpr & _); [reflexivity|reflexivity|exact Hn|exact Hnf2|].
  exists (snapshotOf env1 p pid d), d2,
    (setName (createdProfile env2 (name p) None) (name p) (clock env2 1)).
  split; [now apply exportProfileData_run|].
  split; [exact Hrun|]. split; [exact Hpr|].
  repeat (split; [reflexivity|]).
  rewrite verifyProfilePin_run by exact Hf'. now rewrite Hpr.
Qed.

Lemma import_drops_pin_witness :
  exists snap d2 q,
    run (exportProfileData (uuid sampleEnv)) sampleEnv sampleDbPin = (Ok snap, sampleDbPin) /\
    run (importProfileData snap None) sampleEnv2 sampleDbPin = (Ok (uuid sampleEnv2), d2) /\
    profiles d2 !! uuid sampleEnv2 = Some q /\
    name q = name (createdProfile sampleEnv "Ava" (Some "1234")) /\
    pinSalt q = None /\ pinHash q = None /\
    run (verifyProfilePin (uuid sampleEnv2) "0000") sampleEnv d2 = (Ok true, d2).
Proof.
  apply (import_drops_pin (uuid sampleEnv) (createdProfile sampleEnv "Ava" (Some "1234"))
           sampleEnv sampleEnv2 sampleEnv "0000" sampleDbPin).
  - exact sampleDbPin_profile.
  - reflexivity.
  - exact sampleEnv_noFail.
  - exact sampleEnv2_noFail.
  - reflexivity.
Defined.

Lemma bestStep_sameAttempt m r0 r : sameAttempt r0 r -> bestStep m r = bestStep m r0.
Proof.
  intros [Hq Hb]. unfold bestStep. rewrite Hq.
  assert (Hpct : rowPercentage r = rowPercentage r0)
    by exact (f_equal b_percentage Hb).
  rewrite Hpct.
  change {| b_score := qr_score r; b_totalQuestions := qr_totalQuestions r;
            b_percentage := rowPercentage r0; b_completedAt := qr_completedAt r |}
    with {| b_score := b_score (bestOf r); b_totalQuestions := b_totalQuestions (bestOf r);
            b_percentage := rowPercentage r0; b_completedAt := b_completedAt (bestOf r) |}.
  rewrite Hb. reflexivity.
Qed.

Lemma fold_bestStep_sameAttempt rows0 rows : forall m,
  Forall2 sameAttempt rows0 rows -> fold_left bestStep rows m = fold_left bestStep rows0 m.
Proof.
  intros m H. revert m. induction H as [|r0 r rows0 rows Hs H IH]; intros m; [reflexivity|].
  simpl. rewrite (bestStep_sameAttempt m r0 r Hs). apply IH.
Qed.

Lemma imported_sameAttempt pid r0 r :
  computedRow r0 -> JsString.truthy (qr_completedAt r0) = true ->
  addedFor pid (exportQuizRow r0) r -> sameAttempt r0 r.
Proof.
  intros Hc Ht (now & i & ->). split; [reflexivity|].
  unfold bestOf, rowPercentage, importedQuiz, exportQuizRow. simpl.
  rewrite Ht. f_equal.
  destruct (qr_totalQuestions r0 =? 0) eqn:E.
  - apply Z.eqb_eq in E. destruct Hc as [->|[-> _]]; now rewrite ?E.
  - destruct Hc as [->|[_ H0]]; [reflexivity|]. rewrite H0 in E. discriminate.
Qed.

Lemma imported_rows_same pid rows0 rows :
  Forall (fun r => computedRow r /\ JsString.truthy (qr_completedAt r) = true) rows0 ->
  Forall2 (fun r0 r => addedFor pid (exportQuizRow r0) r) rows0 rows ->
  Forall2 sameAttempt rows0 rows.
Proof.
  intros Hprops Hall. induction Hall as [|r0 r rows0 rows Hr H IH]; [constructor|].
  apply Forall_cons in Hprops as [[Hc Ht] Hrest].
  constructor; [now apply (imported_sameAttempt pid)|now apply IH].
Qed.

(** Export and import keep the best scores. For a profile whose quiz rows
    have a [quizId] and a [completedAt], importing its export as a new
    profile gives a profile for which [getBestQuizScores] returns the same
    table as for the original. *)
Theorem export_import_best_scores pid p env1 env2 env' d :
  percentagesComputed d ->
  profiles d !! pid = Some p -> nameMissing (name p) = false ->
  noFail env1 -> noFail env2 -> fails env' 0%nat = false ->
  Idb.quizByProfileId (uuid env2) d = [] ->
  (forall r, In r (Idb.quizByProfileId pid d) ->
             JsString.truthy (qr_quizId r) = true /\ JsString.truthy (qr_completedAt r) = true) ->
  exists snap d2 best,
    run (exportProfileData pid) env1 d = (Ok snap, d) /\
    run (importProfileData snap None) env2 d = (Ok (uuid env2), d2) /\
    run (getBestQuizScores pid) env' d = (Ok best, d) /\
    run (getBestQuizScores (uuid env2)) env' d2 = (Ok best, d2).
Proof.
  intros Hc Hp Hn Hnf1 Hnf2 Hf' Hfresh Hrows.
  destruct (importProfileData_new_rows (snapshotOf env1 p pid d) (exportProfile p) env2 d)
    as (d2 & added & Hrun & _ & Hq & Hall); [reflexivity|reflexivity|exact Hn|exact Hnf2|].
  exists (snapshotOf env1 p pid d), d2, (bestScoresOf pid d).
  split; [now apply exportProfileData_run|]. split; [exact Hrun|].
  split; [now apply getBestQuizScores_run|].
  rewrite getBestQuizScores_run by exact Hf'. f_equal. f_equal.
  unfold bestScoresOf. 
  assert (Hkept : keptQuizzes (snapshotOf env1 p pid d)
                  = map exportQuizRow (Idb.quizByProfileId pid d)).
  { unfold keptQuizzes. cbn [snapshotOf sn_quizResults default from_option id].
    apply filter_all, Forall_map, Forall_forall. intros r Hr.
    apply list_elem_of_In in Hr. now apply Hrows. }
  rewrite Hkept in Hall.
  destruct (quizByProfileId_added _ _ _ Hall) as [Hf _].
  unfold Idb.quizByProfileId at 1. rewrite Hq, List.filter_app.
  fold (Idb.quizByProfileId (uuid env2) d). rewrite Hfresh, Hf. simpl app.
  apply fold_bestStep_sameAttempt.
  change (map exportQuizRow ?l) with (exportQuizRow <$> l) in Hall.
  rewrite Forall2_fmap_l in Hall.
  assert (Hprops : Forall (fun r => computedRow r /\ JsString.truthy (qr_completedAt r) = true)
                          (Idb.quizByProfileId pid d)).
  { apply Forall_forall. intros r Hr. apply list_elem_of_In in Hr. split.
    - unfold percentagesComputed in Hc. rewrite Forall_forall in Hc. apply Hc.
      apply list_elem_of_In. unfold Idb.quizByProfileId in Hr. now apply filter_In in Hr as [Hr _].
    - now apply Hrows. }
  exact (imported_rows_same (uuid env2) _ _ Hprops Hall).
Qed.

Lemma sampleDb_profile :
  profiles sampleDb !! uuid sampleEnv = Some (createdProfile sampleEnv "Ava" None).
Proof. reflexivity. Qed.

Lemma importProfileData_merges_witness :
  exists d2 added,
    run (importProfileData sampleSnapshot (Some (uuid sampleEnv))) sampleEnv2 sampleDb
    = (Ok (uuid sampleEnv), d2) /\
    profiles d2 !! uuid sampleEnv
    = Some (setName (createdProfile sampleEnv "Ava" None) "Ava" (clock sampleEnv2 0)) /\
    answer (uuid sampleEnv) "0000" sampleEnv d2 = answer (uuid sampleEnv) "0000" sampleEnv sampleDb /\
    (forall q, q <> uuid sampleEnv -> profiles d2 !! q = profiles sampleDb !! q) /\
    (forall lid, progress d2 !! (uuid sampleEnv, lid)
                 = match lastEntry sampleSnapshot lid with
                   | Some e => Some (importedProgress (uuid sampleEnv) e)
                   | None => progress sampleDb !! (uuid sampleEnv, lid)
                   end) /\
    (forall q lid, q <> uuid sampleEnv ->
                   progress d2 !! (q, lid) = progress sampleDb !! (q, lid)) /\
    quizResults d2 = (quizResults sampleDb ++ added)%list /\
    Forall2 (addedFor (uuid sampleEnv)) (keptQuizzes sampleSnapshot) added.
Proof.
  apply (importProfileData_merges sampleSnapshot
           {| sp_profileId := "7f3c1a52-0000-4000-8000-000000000001"; sp_name := "Ava";
              sp_createdAt := "2026-01-01T00:00:00.000Z";
              sp_updatedAt := "2026-01-01T00:00:00.000Z" |}
           (uuid sampleEnv) (createdProfile sampleEnv "Ava" None)
           sampleEnv2 sampleDb sampleEnv "0000"); try reflexivity.
  exact sampleEnv2_noFail.
Defined.

Lemma importProfileData_again_witness :
  exists d1 d2,
    run (importProfileData sampleSnapshot (Some (uuid sampleEnv))) sampleEnv sampleDb
    = (Ok (uuid sampleEnv), d1) /\
    run (importProfileData sampleSnapshot (Some (uuid sampleEnv))) sampleEnv2 d1
    = (Ok (uuid sampleEnv), d2) /\
    progress d2 = progress d1 /\
    length (Idb.quizByProfileId (uuid sampleEnv) d1)
    = (length (Idb.quizByProfileId (uuid sampleEnv) sampleDb)
       + length (keptQuizzes sampleSnapshot))%nat /\
    length (Idb.quizByProfileId (uuid sampleEnv) d2)
    = (length (Idb.quizByProfileId (uuid sampleEnv) sampleDb)
       + 2 * length (keptQuizzes sampleSnapshot))%nat.
Proof.
  apply (importProfileData_again sampleSnapshot
           {| sp_profileId := "7f3c1a52-0000-4000-8000-000000000001"; sp_name := "Ava";
              sp_createdAt := "2026-01-01T00:00:00.000Z";
              sp_updatedAt := "2026-01-01T00:00:00.000Z" |}
           (uuid sampleEnv) (createdProfile sampleEnv "Ava" None)
           sampleEnv sampleEnv2 sampleDb); try reflexivity.
  - exact sampleEnv_noFail.
  - exact sampleEnv2_noFail.
Defined.

Lemma export_import_best_scores_witness :
  exists snap d2 best,
    run (exportProfileData (uuid sampleEnv)) sampleEnv sampleDb = (Ok snap, sampleDb) /\
    run (importProfileData snap None) sampleEnv2 sampleDb = (Ok (uuid sampleEnv2), d2) /\
    run (getBestQuizScores (uuid sampleEnv)) sampleEnv sampleDb = (Ok best, sampleDb) /\
    run (getBestQuizScores (uuid sampleEnv2)) sampleEnv d2 = (Ok best, d2).
Proof.
  apply (export_import_best_scores (uuid sampleEnv) (createdProfile sampleEnv "Ava" None)
           sampleEnv sampleEnv2 sampleEnv sampleDb); try reflexivity.
  - apply (wellFormed_replay _ emptyDb wellFormed_empty).
  - exact sampleEnv_noFail.
  - exact sampleEnv2_noFail.
  - vm_compute. intros r [<-|[]]. split; reflexivity.
Defined.

Lemma charCodes_app a b :
  JsString.charCodes (a ++ b) = (JsString.charCodes a ++ JsString.charCodes b)%list.
Proof.
  unfold JsString.charCodes. rewrite <- map_app. f_equal.
  induction a as [|c a IH]; [reflexivity|]. simpl. now rewrite IH.
Qed.

Lemma textEncode_app a b :
  JsString.textEncode (a ++ b) = (JsString.textEncode a ++ JsString.textEncode b)%list.
Proof. unfold JsString.textEncode. now rewrite charCodes_app, flat_map_app. Qed.

Lemma textEncode_nuls k : JsString.textEncode (nuls k) = repeat 0 k.
Proof.
  unfold nuls, JsString.textEncode, JsString.charCodes.
  rewrite list_ascii_of_string_of_list_ascii.
  induction k as [|k IH]; [reflexivity|]. simpl. now rewrite IH.
Qed.

Lemma keyBlock_zeros key k :
  (length key + k <= WebCrypto.blockSize)%nat ->
  WebCrypto.keyBlock (key ++ repeat 0 k) = WebCrypto.keyBlock key.
Proof.
  intros H. unfold WebCrypto.keyBlock.
  rewrite !(proj2 (Nat.ltb_ge _ _)) by (rewrite ?length_app, ?repeat_length; lia).
  rewrite <- app_assoc, <- repeat_app. do 2 f_equal.
  rewrite length_app, repeat_length. lia.
Qed.

Lemma textEncode_length_ge s : (String.length s <= length (JsString.textEncode s))%nat.
Proof.
  unfold JsString.textEncode, JsString.charCodes.
  induction s as [|c s IH]; [simpl; lia|].
  simpl. rewrite length_app. unfold JsString.utf8_unit at 1.
  destruct (_ <? 128); simpl; lia.
Qed.

Lemma string_length_app (a b : string) :
  String.length (a ++ b) = (String.length a + String.length b)%nat.
Proof. induction a as [|c a IH]; [reflexivity|]. simpl. now rewrite IH. Qed.

Lemma string_length_of_list (l : list ascii) :
  String.length (string_of_list_ascii l) = length l.
Proof. induction l as [|c l IH]; [reflexivity|]. simpl. now rewrite IH. Qed.

(** A PIN is checked by the key block of HMAC, which ends in zero bytes.
    The profile created with a PIN whose UTF-8 encoding has fewer than 64
    bytes is unlocked by that PIN followed by characters U+0000, as many as
    still fit in the block; such an attempt is another string than the PIN. *)
Theorem verifyProfilePin_zero_padding rawName pin k env d env' :
  ~ blank rawName -> JsString.truthy pin = true ->
  (0 < k)%nat -> (length (JsString.textEncode pin) + k <= 64)%nat ->
  subtle env = true -> fails env 0%nat = false -> fails env 1%nat = false ->
  subtle env' = true -> fails env' 0%nat = false ->
  exists p d1,
    run (createProfile rawName (Some pin)) env d = (Ok p, d1) /\
    pin ++ nuls k <> pin /\
    run (verifyProfilePin (profileId p) (pin ++ nuls k)) env' d1 = (Ok true, d1).
Proof.
  intros Hn Hp Hk Hlen Hs H0 H1 Hs' H0'.
  destruct (verifyProfilePin_created rawName pin env d env' (pin ++ nuls k))
    as (p & d1 & Hc & _ & _ & _ & Hv); try assumption.
  { now apply nameMissing_not_blank. }
  exists p, d1. split; [exact Hc|]. split.
  { intros Heq. apply (f_equal String.length) in Heq.
    rewrite string_length_app in Heq. unfold nuls in Heq.
    rewrite string_length_of_list, repeat_length in Heq. lia. }
  rewrite Hv. rewrite bool_decide_eq_true_2; [reflexivity|].
  unfold pinHashFor. apply (f_equal toBase64), pbkdf2_keyBlock.
  rewrite textEncode_app, textEncode_nuls. now apply keyBlock_zeros.
Qed.

Lemma verifyProfilePin_zero_padding_witness :
  exists p d1,
    run (createProfile "Ava" (Some "1234")) sampleEnv emptyDb = (Ok p, d1) /\
    "1234" ++ nuls 2 <> "1234" /\
    run (verifyProfilePin (profileId p) ("1234" ++ nuls 2)) sampleEnv d1 = (Ok true, d1).
Proof.
  apply (verifyProfilePin_zero_padding "Ava" "1234" 2 sampleEnv emptyDb sampleEnv);
    try reflexivity.
  - apply not_blank. reflexivity.
  - lia.
  - simpl. lia.
Defined.

Lemma encode_length_bytes bs :
  length (Base64.encode bs) = (4 * ((length bs + 2) / 3))%nat.
Proof.
  induction bs as [|a|a b|a b c r IH] using list_ind3; try reflexivity.
  unfold Base64.encode in *.
  change (Base64.sextets (a :: b :: c :: r))
    with (Z.shiftr a 2 :: Z.lor (Z.shiftl (Z.land a 3) 4) (Z.shiftr b 4)
          :: Z.lor (Z.shiftl (Z.land b 15) 2) (Z.shiftr c 6) :: Z.land c 63
          :: Base64.sextets r).
  assert (Hpad : Base64.padding (length (a :: b :: c :: r)) = Base64.padding (length r)).
  { unfold Base64.padding. change (length (a :: b :: c :: r)) with (3 + length r)%nat.
    replace (3 + length r)%nat with (length r + 1 * 3)%nat by lia.
    now rewrite Nat.Div0.mod_add. }
  rewrite Hpad. cbn [map length app]. rewrite length_app in *. rewrite length_map in *.
  rewrite IH.
  replace (S (S (S (length r))) + 2)%nat with ((length r + 2) + 1 * 3)%nat by lia.
  rewrite Nat.div_add by lia. lia.
Qed.

Lemma toBase64_length bytes :
  String.length (toBase64 bytes) = (4 * ((length bytes + 2) / 3))%nat.
Proof.
  unfold toBase64, Base64.btoa. rewrite string_length_of_list, encode_length_bytes.
  unfold JsString.charCodes, JsString.fromCharCodes.
  now rewrite list_ascii_of_string_of_list_ascii, !length_map.
Qed.

(** The encodings of crypto.js. [fromBase64] undoes [toBase64] on every
    byte array, and [toBase64] writes four characters for every three bytes,
    the last group filled up; so the salt [generateSaltBase64] returns has 24
    characters and decodes to the 16 random bytes drawn, and the hash
    [derivePinHashBase64] returns, when WebCrypto is there and the salt is
    one that [toBase64] wrote, has 44 characters. *)
Theorem base64_round_trip bytes pin env st :
  Forall isByte bytes ->
  fromBase64 (toBase64 bytes) env st = (Ok bytes, st) /\
  String.length (toBase64 bytes) = (4 * ((length bytes + 2) / 3))%nat /\
  (exists salt,
     generateSaltBase64 defaultSaltLength env st = (Ok salt, st) /\
     String.length salt = 24%nat /\
     exists saltBytes,
       fromBase64 salt env st = (Ok saltBytes, st) /\ length saltBytes = 16%nat /\
       Forall isByte saltBytes) /\
  (subtle env = true ->
   exists hash,
     derivePinHashBase64 pin (toBase64 bytes) defaultIterations env st = (Ok hash, st) /\
     String.length hash = 44%nat).
Proof.
  intros Hb. split; [now apply fromBase64_toBase64|]. split; [apply toBase64_length|].
  split.
  - exists (toBase64 (saltOf env)). split; [apply generateSaltBase64_run|].
    split; [rewrite toBase64_length; reflexivity|].
    exists (saltOf env). split; [apply fromBase64_toBase64, saltOf_isByte|].
    split; [reflexivity|apply saltOf_isByte].
  - intros Hs. exists (pinHashFor pin bytes).
    split; [now apply derivePinHashBase64_run|].
    unfold pinHashFor. now rewrite toBase64_length, pbkdf2_length.
Qed.

Lemma base64_round_trip_witness :
  fromBase64 (toBase64 [0; 255; 16; 32]) sampleEnv {| db := emptyDb; requests := 0; ticks := 0 |}
  = (Ok [0; 255; 16; 32], {| db := emptyDb; requests := 0; ticks := 0 |}) /\
  String.length (toBase64 [0; 255; 16; 32]) = (4 * ((length [0; 255; 16; 32] + 2) / 3))%nat /\
  (exists salt,
     generateSaltBase64 defaultSaltLength sampleEnv {| db := emptyDb; requests := 0; ticks := 0 |}
     = (Ok salt, {| db := emptyDb; requests := 0; ticks := 0 |}) /\
     String.length salt = 24%nat /\
     exists saltBytes,
       fromBase64 salt sampleEnv {| db := emptyDb; requests := 0; ticks := 0 |}
       = (Ok saltBytes, {| db := emptyDb; requests := 0; ticks := 0 |}) /\
       length saltBytes = 16%nat /\ Forall isByte saltBytes) /\
  (subtle sampleEnv = true ->
   exists hash,
     derivePinHashBase64 "1234" (toBase64 [0; 255; 16; 32]) defaultIterations sampleEnv
       {| db := emptyDb; requests := 0; ticks := 0 |}
     = (Ok hash, {| db := emptyDb; requests := 0; ticks := 0 |}) /\
     String.length hash = 44%nat).
Proof.
  apply (base64_round_trip [0; 255; 16; 32] "1234" sampleEnv
           {| db := emptyDb; requests := 0; ticks := 0 |}).
  repeat constructor; unfold isByte; lia.
Defined.

Lemma countLesson_fold progress phase module lessons : forall c t,
  fold_left (countLesson progress phase module) lessons (c, t)
  = (c + Z.of_nat (length (List.filter
                             (fun lesson => getLessonProgress progress (phase_id phase)
                                              (module_id module) (lesson_id lesson))
                             lessons)),
     t + Z.of_nat (length lessons)).
Proof.
  unfold getLessonProgress.
  induction lessons as [|l ls IH]; intros c t.
  - simpl. f_equal; lia.
  - cbn [fold_left]. unfold countLesson at 2. cbn [List.filter].
    destruct (completedIn progress _); rewrite IH; cbn [length]; f_equal; lia.
Qed.

Lemma filter_done_module progress phase module :
  List.filter (finished progress) (map (fun lesson => (phase, module, lesson)) (module_lessons module))
  = map (fun lesson => (phase, module, lesson))
        (List.filter (fun lesson => getLessonProgress progress (phase_id phase)
                                      (module_id module) (lesson_id lesson))
                     (module_lessons module)).
Proof. rewrite filter_map_comm. reflexivity. Qed.

Lemma phase_counters progress phase modules : forall c t,
  fold_left (fun counters module =>
               fold_left (countLesson progress phase module) (module_lessons module) counters)
            modules (c, t)
  = (c + Z.of_nat (length (List.filter (finished progress)
                             (flat_map (fun module =>
                                          map (fun lesson => (phase, module, lesson))
                                              (module_lessons module)) modules))),
     t + Z.of_nat (length (flat_map (fun module =>
                                       map (fun lesson => (phase, module, lesson))
                                           (module_lessons module)) modules))).
Proof.
  induction modules as [|m ms IH]; intros c t.
  - simpl. f_equal; lia.
  - cbn [fold_left flat_map]. rewrite countLesson_fold, IH.
    rewrite List.filter_app, !length_app, filter_done_module, !length_map. f_equal; lia.
Qed.

Lemma sidebar_counters progress phase modules : forall c t,
  fold_left (fun counters module =>
               let moduleProgress := getModuleProgress progress (phase_id phase) module in
               (fst counters + fst moduleProgress, snd counters + snd moduleProgress))
            modules (c, t)
  = (c + Z.of_nat (length (List.filter (finished progress)
                             (flat_map (fun module =>
                                          map (fun lesson => (phase, module, lesson))
                                              (module_lessons module)) modules))),
     t + Z.of_nat (length (flat_map (fun module =>
                                       map (fun lesson => (phase, module, lesson))
                                           (module_lessons module)) modules))).
Proof.
  induction modules as [|m ms IH]; intros c t.
  - simpl. f_equal; lia.
  - cbn [fold_left flat_map]. cbv zeta. rewrite IH.
    rewrite List.filter_app, !length_app, filter_done_module, !length_map.
    unfold getModuleProgress. cbn [fst snd]. f_equal; lia.
Qed.

Lemma filter_length_le {A} (f : A -> bool) (l : list A) :
  (length (List.filter f l) <= length l)%nat.
Proof. induction l as [|a l IH]; simpl; [lia|]. destruct (f a); simpl; lia. Qed.

(** The progress of a phase, on the Dashboard and in the Sidebar. For every
    table and phase [getPhaseStats] counts the lessons of the phase and those
    of them the table has as completed; the completed are never more than
    the total; the percentage is a whole number from 0 to 100, and 0 for a
    phase without lessons; and [getPhaseProgress] of the Sidebar arrives at
    the same two counts. *)
Theorem phase_stats progress phase :
  ps_total (getPhaseStats progress phase) = Z.of_nat (length (lessonsOfPhase phase)) /\
  ps_completed (getPhaseStats progress phase)
  = Z.of_nat (length (List.filter (finished progress) (lessonsOfPhase phase))) /\
  0 <= ps_completed (getPhaseStats progress phase) <= ps_total (getPhaseStats progress phase) /\
  (exists p, ps_percentage (getPhaseStats progress phase) = Int p /\ 0 <= p <= 100) /\
  (lessonsOfPhase phase = [] -> ps_percentage (getPhaseStats progress phase) = Int 0) /\
  getPhaseProgress progress phase
  = (ps_completed (getPhaseStats progress phase), ps_total (getPhaseStats progress phase)).
Proof.
  unfold getPhaseStats, getPhaseProgress.
  rewrite phase_counters, sidebar_counters. fold (lessonsOfPhase phase).
  cbn [ps_total ps_completed ps_percentage]. rewrite !Z.add_0_l.
  pose proof (filter_length_le (finished progress) (lessonsOfPhase phase)) as Hle.
  split; [reflexivity|]. split; [reflexivity|]. split; [lia|]. split; [|split].
  - destruct (0 <? _) eqn:E.
    + apply Z.ltb_lt in E. apply percentageOf_range; lia.
    + exists 0. split; [reflexivity|lia].
  - intros ->. reflexivity.
  - reflexivity.
Qed.

Lemma find_map {A B} (g : A -> B) (f : B -> bool) (l : list A) :
  List.find f (map g l) = g <$> List.find (fun a => f (g a)) l.
Proof.
  induction l as [|a l IH]; [reflexivity|]. simpl.
  destruct (f (g a)); [reflexivity|exact IH].
Qed.

Lemma nextInModules_find progress phase modules :
  nextInModules progress phase modules
  = List.find (fun place => negb (finished progress place))
      (flat_map (fun module => map (fun lesson => (phase, module, lesson))
                                   (module_lessons module)) modules).
Proof.
  induction modules as [|m ms IH]; [reflexivity|].
  cbn [nextInModules flat_map]. rewrite find_app_first, find_map, IH.
  unfold nextInModule, finished, keyOf. cbn [fst snd].
  now destruct (List.find _ (module_lessons m)).
Qed.

Lemma getNextLesson_find progress structure :
  getNextLesson progress structure
  = List.find (fun place => negb (finished progress place)) (courseOrder structure).
Proof.
  induction structure as [|ph rest IH]; [reflexivity|].
  cbn [getNextLesson]. unfold courseOrder. cbn [flat_map].
  rewrite find_app_first, nextInModules_find, IH. reflexivity.
Qed.

Lemma find_first {A} (f : A -> bool) (l : list A) :
  match List.find f l with
  | Some x => exists before after,
                l = (before ++ x :: after)%list /\ f x = true /\
                Forall (fun y => f y = false) before
  | None => Forall (fun y => f y = false) l
  end.
Proof.
  induction l as [|a l IH]; simpl; [constructor|].
  destruct (f a) eqn:E.
  - exists [], l. split; [reflexivity|]. split; [exact E|constructor].
  - destruct (List.find f l) as [x|].
    + destruct IH as (before & after & -> & Hx & Hb).
      exists (a :: before), after. split; [reflexivity|]. split; [exact Hx|].
      constructor; assumption.
    + constructor; assumption.
Qed.

(** [getNextLesson] of the Dashboard finds the first lesson left to do. It
    returns nothing exactly when the table has every lesson of the course as
    completed; otherwise it returns a lesson, with its module and phase,
    that is not completed and before which, in the order of the course,
    every lesson is. *)
Theorem getNextLesson_first_incomplete progress structure :
  match getNextLesson progress structure with
  | Some place =>
      exists before after,
        courseOrder structure = (before ++ place :: after)%list /\
        finished progress place = false /\
        Forall (fun earlier => finished progress earlier = true) before
  | None => Forall (fun place => finished progress place = true) (courseOrder structure)
  end.
Proof.
  rewrite getNextLesson_find.
  pose proof (find_first (fun place => negb (finished progress place)) (courseOrder structure)) as H.
  destruct (List.find _ _) as [place|].
  - destruct H as (before & after & Heq & Hx & Hb). exists before, after.
    split; [exact Heq|]. split; [now apply negb_true_iff|].
    eapply Forall_impl; [exact Hb|]. intros y Hy. now apply negb_false_iff.
  - eapply Forall_impl; [exact H|]. intros y Hy. now apply negb_false_iff.
Qed.
